(** * MediaFileOut and FakedVideoFrameDecoder: a shallow embedding

    The recording session of [woogeen_base/MediaFileOut.cpp] and the
    compositor-facing adapter of [mcu/media/FakedVideoFrameDecoder.h],
    written as functions over an explicit session record.

    Calls that leave the class (the muxing backend, the event registry,
    the job timer, the compositor) are recorded, in program order, in a
    trace of events.  Results the backend decides (whether a stream can
    be allocated, whether the sink opens, whether the header is written)
    are arguments of the call that asks for them.  A failed [assert] and
    a dereferenced null pointer end the call with a fault.

    The mutex of the session and the threads that call into it are not
    part of the model: every member function runs to completion on the
    session it is given.  Diagnostic logging (the ELOG macros) is left out. *)

From Stdlib Require Import ZArith List String Bool Lia.
From Stdlib Require Import Strings.Byte.
Import ListNotations.
Local Open Scope Z_scope.

(** ** Enumerations *)

(** Modelled from the spec: [FrameFormat] is declared in a header that is
    not part of the sources at hand.  These are the formats the two
    source files name: two video codecs, two audio codecs, the raw I420
    format of the compositor, and the unknown format. *)
Inductive FrameFormat : Type :=
| FRAME_FORMAT_UNKNOWN
| FRAME_FORMAT_I420
| FRAME_FORMAT_VP8
| FRAME_FORMAT_H264
| FRAME_FORMAT_PCMU
| FRAME_FORMAT_OPUS.

Inductive AVCodecID : Type :=
| AV_CODEC_ID_VP8
| AV_CODEC_ID_H264
| AV_CODEC_ID_PCM_MULAW
| AV_CODEC_ID_OPUS.

Inductive AVMediaType : Type :=
| AVMEDIA_TYPE_VIDEO
| AVMEDIA_TYPE_AUDIO.

Inductive AVPixelFormat : Type :=
| AV_PIX_FMT_NONE
| AV_PIX_FMT_YUV420P.

Inductive AVSampleFormat : Type :=
| AV_SAMPLE_FMT_NONE
| AV_SAMPLE_FMT_S16
| AV_SAMPLE_FMT_FLT.

(** Modelled from the spec: [AVStreamOut::Status], of the base class
    declared in MediaFileOut.h, which is not part of the sources at hand.
    The states are Empty, Ready and the terminal Error; Empty is
    initial. *)
Inductive Status : Type :=
| Context_EMPTY
| Context_READY
| Context_ERROR.

Definition FrameFormat_eqb (a b : FrameFormat) : bool :=
  match a, b with
  | FRAME_FORMAT_UNKNOWN, FRAME_FORMAT_UNKNOWN
  | FRAME_FORMAT_I420, FRAME_FORMAT_I420
  | FRAME_FORMAT_VP8, FRAME_FORMAT_VP8
  | FRAME_FORMAT_H264, FRAME_FORMAT_H264
  | FRAME_FORMAT_PCMU, FRAME_FORMAT_PCMU
  | FRAME_FORMAT_OPUS, FRAME_FORMAT_OPUS => true
  | _, _ => false
  end.

Definition AVCodecID_eqb (a b : AVCodecID) : bool :=
  match a, b with
  | AV_CODEC_ID_VP8, AV_CODEC_ID_VP8
  | AV_CODEC_ID_H264, AV_CODEC_ID_H264
  | AV_CODEC_ID_PCM_MULAW, AV_CODEC_ID_PCM_MULAW
  | AV_CODEC_ID_OPUS, AV_CODEC_ID_OPUS => true
  | _, _ => false
  end.

(** ** Format flags of the muxing backend (libavformat, libavcodec) *)

Definition AVFMT_NOFILE : Z := 0x0001.
Definition AVFMT_GLOBALHEADER : Z := 0x0040.
Definition AVFMT_VARIABLE_FPS : Z := 0x0400.
Definition CODEC_FLAG_GLOBAL_HEADER : Z := 0x00400000.

(** [flags & bit] read as a C condition. *)
Definition has_flag (flags bit : Z) : bool := negb (Z.land flags bit =? 0).

(** ** Frames *)

Record VideoFrameSpecificInfo : Type := {
  width : Z;
  height : Z
}.

Record AudioFrameSpecificInfo : Type := {
  isRtpPacket : bool;
  sampleRate : Z;
  channels : Z
}.

(** [additionalInfo] is a union in the source; [onFrame] reads the
    [video] member of VP8/H264 frames only and the [audio] member of
    PCMU/OPUS frames only, so both members are kept side by side. *)
Record MediaSpecInfo : Type := {
  video : VideoFrameSpecificInfo;
  audio : AudioFrameSpecificInfo
}.

(** Modelled from the spec: [woogeen_base::Frame] is declared in a header
    that is not part of the sources at hand; the fields are those
    [onFrame] reads, [format], [payload], [length], [timeStamp] and
    [additionalInfo].  [f_payload] is the byte sequence the source's
    [uint8_t* payload] points at; advancing the pointer by [n] is
    [skipn n]. *)
Record Frame : Type := {
  f_format : FrameFormat;
  f_payload : list byte;
  f_length : Z;
  f_timeStamp : Z;
  f_additionalInfo : MediaSpecInfo
}.

(** ** EncodedFrame and MediaFrameQueue *)

Record EncodedFrame : Type := {
  m_timeStamp : Z;
  m_payloadData : list byte;
  m_payloadSize : Z
}.

(** Modelled from the spec: [MediaFrameQueue] and the [EncodedFrame]
    constructor are declared in a header that is not part of the sources
    at hand.  The queue is a FIFO of frames of one media type;
    [pushFrame data length] appends, at the back, a frame that owns a copy
    of the [length] bytes at [data], stamped with the ingestion clock
    ([now]); [popFrame] removes the frame at the front, or reports that
    the queue is empty. *)
Definition MediaFrameQueue : Type := list EncodedFrame.

Definition pushFrame (now : Z) (data : list byte) (length : Z)
    (q : MediaFrameQueue) : MediaFrameQueue :=
  q ++ [ {| m_timeStamp := now;
            m_payloadData := firstn (Z.to_nat length) data;
            m_payloadSize := length |} ].

Definition popFrame (q : MediaFrameQueue) : option EncodedFrame * MediaFrameQueue :=
  match q with
  | [] => (None, [])
  | mf :: rest => (Some mf, rest)
  end.

(** ** Container context *)

Inductive ChannelLayout : Type :=
| av_get_default_channel_layout (nbChannels : Z).

Record AVCodecContext : Type := {
  codec_id : AVCodecID;
  codec_type : AVMediaType;
  cc_width : Z;
  cc_height : Z;
  pix_fmt : AVPixelFormat;
  cc_channels : Z;
  channel_layout : option ChannelLayout;
  sample_rate : Z;
  sample_fmt : AVSampleFormat;
  cc_flags : Z
}.

(** [avformat_new_stream] gives the new stream the index
    [nb_streams] had before the call, and a codec context of its own, so
    [stream->codec] is not null wherever the stream is not. *)
Record AVStream : Type := {
  index : Z;
  codec : AVCodecContext
}.

Record AVOutputFormat : Type := {
  of_flags : Z;
  video_codec : option AVCodecID
}.

Record AVFormatContext : Type := {
  oformat : AVOutputFormat;
  filename : string;
  streams : list AVStream;
  pb : bool   (* the sink handle is open *)
}.

Record AVPacket : Type := {
  pkt_data : list byte;
  pkt_size : Z;
  pkt_timeStamp : Z;  (* the frame's time stamp, from which [pts] is derived *)
  stream_index : Z
}.

(** ** Calls that leave the session *)

Inductive Event : Type :=
| EvAvioOpen (ok : bool)
| EvDumpFormat
| EvWriteHeader (ok : bool)
| EvWriteFrame (pkt : AVPacket)
| EvWriteTrailer
| EvAvcodecClose (c : AVCodecContext)
| EvAvioClose
| EvFreeContext
| EvTimerStop
| EvNotify (category message : string).

(** ** The session *)

Record MediaFileOut : Type := {
  m_status : Status;
  m_videoStream : option AVStream;
  m_audioStream : option AVStream;
  m_context : option AVFormatContext;
  m_avTrailerNeeded : bool;
  m_videoId : Z;
  m_audioId : Z;
  m_videoFrameFormat : FrameFormat;
  m_audioFrameFormat : FrameFormat;
  m_videoQueue : MediaFrameQueue;
  m_audioQueue : MediaFrameQueue;
  m_recordPath : string;
  m_snapshotInterval : Z
}.

Definition set_status (v : Status) (s : MediaFileOut) : MediaFileOut :=
  {| m_status := v; m_videoStream := m_videoStream s; m_audioStream := m_audioStream s;
     m_context := m_context s; m_avTrailerNeeded := m_avTrailerNeeded s;
     m_videoId := m_videoId s; m_audioId := m_audioId s;
     m_videoFrameFormat := m_videoFrameFormat s; m_audioFrameFormat := m_audioFrameFormat s;
     m_videoQueue := m_videoQueue s; m_audioQueue := m_audioQueue s;
     m_recordPath := m_recordPath s; m_snapshotInterval := m_snapshotInterval s |}.

Definition set_videoStream (v : option AVStream) (s : MediaFileOut) : MediaFileOut :=
  {| m_status := m_status s; m_videoStream := v; m_audioStream := m_audioStream s;
     m_context := m_context s; m_avTrailerNeeded := m_avTrailerNeeded s;
     m_videoId := m_videoId s; m_audioId := m_audioId s;
     m_videoFrameFormat := m_videoFrameFormat s; m_audioFrameFormat := m_audioFrameFormat s;
     m_videoQueue := m_videoQueue s; m_audioQueue := m_audioQueue s;
     m_recordPath := m_recordPath s; m_snapshotInterval := m_snapshotInterval s |}.

Definition set_audioStream (v : option AVStream) (s : MediaFileOut) : MediaFileOut :=
  {| m_status := m_status s; m_videoStream := m_videoStream s; m_audioStream := v;
     m_context := m_context s; m_avTrailerNeeded := m_avTrailerNeeded s;
     m_videoId := m_videoId s; m_audioId := m_audioId s;
     m_videoFrameFormat := m_videoFrameFormat s; m_audioFrameFormat := m_audioFrameFormat s;
     m_videoQueue := m_videoQueue s; m_audioQueue := m_audioQueue s;
     m_recordPath := m_recordPath s; m_snapshotInterval := m_snapshotInterval s |}.

Definition set_context (v : option AVFormatContext) (s : MediaFileOut) : MediaFileOut :=
  {| m_status := m_status s; m_videoStream := m_videoStream s; m_audioStream := m_audioStream s;
     m_context := v; m_avTrailerNeeded := m_avTrailerNeeded s;
     m_videoId := m_videoId s; m_audioId := m_audioId s;
     m_videoFrameFormat := m_videoFrameFormat s; m_audioFrameFormat := m_audioFrameFormat s;
     m_videoQueue := m_videoQueue s; m_audioQueue := m_audioQueue s;
     m_recordPath := m_recordPath s; m_snapshotInterval := m_snapshotInterval s |}.

Definition set_avTrailerNeeded (v : bool) (s : MediaFileOut) : MediaFileOut :=
  {| m_status := m_status s; m_videoStream := m_videoStream s; m_audioStream := m_audioStream s;
     m_context := m_context s; m_avTrailerNeeded := v;
     m_videoId := m_videoId s; m_audioId := m_audioId s;
     m_videoFrameFormat := m_videoFrameFormat s; m_audioFrameFormat := m_audioFrameFormat s;
     m_videoQueue := m_videoQueue s; m_audioQueue := m_audioQueue s;
     m_recordPath := m_recordPath s; m_snapshotInterval := m_snapshotInterval s |}.

Definition set_videoFrameFormat (v : FrameFormat) (s : MediaFileOut) : MediaFileOut :=
  {| m_status := m_status s; m_videoStream := m_videoStream s; m_audioStream := m_audioStream s;
     m_context := m_context s; m_avTrailerNeeded := m_avTrailerNeeded s;
     m_videoId := m_videoId s; m_audioId := m_audioId s;
     m_videoFrameFormat := v; m_audioFrameFormat := m_audioFrameFormat s;
     m_videoQueue := m_videoQueue s; m_audioQueue := m_audioQueue s;
     m_recordPath := m_recordPath s; m_snapshotInterval := m_snapshotInterval s |}.

Definition set_audioFrameFormat (v : FrameFormat) (s : MediaFileOut) : MediaFileOut :=
  {| m_status := m_status s; m_videoStream := m_videoStream s; m_audioStream := m_audioStream s;
     m_context := m_context s; m_avTrailerNeeded := m_avTrailerNeeded s;
     m_videoId := m_videoId s; m_audioId := m_audioId s;
     m_videoFrameFormat := m_videoFrameFormat s; m_audioFrameFormat := v;
     m_videoQueue := m_videoQueue s; m_audioQueue := m_audioQueue s;
     m_recordPath := m_recordPath s; m_snapshotInterval := m_snapshotInterval s |}.

Definition set_videoQueue (v : MediaFrameQueue) (s : MediaFileOut) : MediaFileOut :=
  {| m_status := m_status s; m_videoStream := m_videoStream s; m_audioStream := m_audioStream s;
     m_context := m_context s; m_avTrailerNeeded := m_avTrailerNeeded s;
     m_videoId := m_videoId s; m_audioId := m_audioId s;
     m_videoFrameFormat := m_videoFrameFormat s; m_audioFrameFormat := m_audioFrameFormat s;
     m_videoQueue := v; m_audioQueue := m_audioQueue s;
     m_recordPath := m_recordPath s; m_snapshotInterval := m_snapshotInterval s |}.

Definition set_audioQueue (v : MediaFrameQueue) (s : MediaFileOut) : MediaFileOut :=
  {| m_status := m_status s; m_videoStream := m_videoStream s; m_audioStream := m_audioStream s;
     m_context := m_context s; m_avTrailerNeeded := m_avTrailerNeeded s;
     m_videoId := m_videoId s; m_audioId := m_audioId s;
     m_videoFrameFormat := m_videoFrameFormat s; m_audioFrameFormat := m_audioFrameFormat s;
     m_videoQueue := m_videoQueue s; m_audioQueue := v;
     m_recordPath := m_recordPath s; m_snapshotInterval := m_snapshotInterval s |}.

(** ** A monad for member functions: session state, event trace, faults *)

Inductive Fault : Type :=
| AssertionFailed
| NullDereference.

Inductive Outcome (A : Type) : Type :=
| Ok (a : A) (s : MediaFileOut) (evs : list Event)
| Crash (why : Fault).

Arguments Ok {A} a s evs.
Arguments Crash {A} why.

Definition M (A : Type) : Type := MediaFileOut -> Outcome A.

Definition ret {A} (a : A) : M A := fun s => Ok a s [].

Definition bind {A B} (c : M A) (k : A -> M B) : M B :=
  fun s =>
    match c s with
    | Ok a s1 evs1 =>
        match k a s1 with
        | Ok b s2 evs2 => Ok b s2 (evs1 ++ evs2)
        | Crash why => Crash why
        end
    | Crash why => Crash why
    end.

Notation "x <- c ;; k" := (bind c (fun x => k))
  (at level 61, c at next level, right associativity).
Notation "c ;; k" := (bind c (fun _ => k))
  (at level 61, right associativity).

Definition get : M MediaFileOut := fun s => Ok s s [].
Definition modify (f : MediaFileOut -> MediaFileOut) : M unit := fun s => Ok tt (f s) [].
Definition emit (e : Event) : M unit := fun s => Ok tt s [e].
Definition crash {A} (why : Fault) : M A := fun _ => Crash why.

(** [assert(b)] *)
Definition assert (b : bool) : M unit :=
  if b then ret tt else crash AssertionFailed.

(** [p->...] for a pointer held in an [option] *)
Definition deref {A} (p : option A) : M A :=
  match p with
  | Some a => ret a
  | None => crash NullDereference
  end.

(** ** Format tags to codec ids *)

Definition frameFormat2VideoCodecID (frameFormat : FrameFormat) : AVCodecID :=
  match frameFormat with
  | FRAME_FORMAT_VP8 => AV_CODEC_ID_VP8
  | FRAME_FORMAT_H264 => AV_CODEC_ID_H264
  | _ => AV_CODEC_ID_VP8
  end.

Definition frameFormat2AudioCodecID (frameFormat : FrameFormat) : AVCodecID :=
  match frameFormat with
  | FRAME_FORMAT_PCMU => AV_CODEC_ID_PCM_MULAW
  | FRAME_FORMAT_OPUS => AV_CODEC_ID_OPUS
  | _ => AV_CODEC_ID_PCM_MULAW
  end.

(** ** Construction *)

(** [guessed] is the output format [av_guess_format] finds for the record
    path; the constructor asserts that there is one.  [filename] is a
    buffer of 1024 characters. *)
Definition MediaFileOut_new (recordUrl : string) (snapshotInterval : Z)
    (guessed : AVOutputFormat) : MediaFileOut :=
  {| m_status := Context_EMPTY;
     m_videoStream := None;
     m_audioStream := None;
     m_context := Some {| oformat := guessed;
                          filename := substring 0 1024 recordUrl;
                          streams := [];
                          pb := false |};
     m_avTrailerNeeded := false;
     m_videoId := -1;
     m_audioId := -1;
     m_videoFrameFormat := FRAME_FORMAT_UNKNOWN;
     m_audioFrameFormat := FRAME_FORMAT_UNKNOWN;
     m_videoQueue := [];
     m_audioQueue := [];
     m_recordPath := recordUrl;
     m_snapshotInterval := snapshotInterval |}.

(** ** Stream negotiation *)

(** The codec context a fresh stream comes with. *)
Definition fresh_codec_context : AVCodecContext :=
  {| codec_id := AV_CODEC_ID_VP8; codec_type := AVMEDIA_TYPE_VIDEO;
     cc_width := 0; cc_height := 0; pix_fmt := AV_PIX_FMT_NONE;
     cc_channels := 0; channel_layout := None; sample_rate := 0;
     sample_fmt := AV_SAMPLE_FMT_NONE; cc_flags := 0 |}.

Definition global_header_flags (ctx : AVFormatContext) (flags : Z) : Z :=
  if has_flag (of_flags (oformat ctx)) AVFMT_GLOBALHEADER
  then Z.lor flags CODEC_FLAG_GLOBAL_HEADER
  else flags.

Definition add_stream (stream : AVStream) (ctx : AVFormatContext) : AVFormatContext :=
  {| oformat := oformat ctx; filename := filename ctx;
     streams := streams ctx ++ [stream]; pb := pb ctx |}.

Definition set_oformat (o : AVOutputFormat) (ctx : AVFormatContext) : AVFormatContext :=
  {| oformat := o; filename := filename ctx; streams := streams ctx; pb := pb ctx |}.

Definition set_pb (b : bool) (ctx : AVFormatContext) : AVFormatContext :=
  {| oformat := oformat ctx; filename := filename ctx; streams := streams ctx; pb := b |}.

(** [new_stream_ok] tells whether [avformat_new_stream] returns a stream. *)
Definition addAudioStream (new_stream_ok : bool) (codec_id : AVCodecID)
    (nbChannels sampleRate : Z) : M bool :=
  s <- get ;;
  ctx <- deref (m_context s) ;;
  if new_stream_ok then
    let c :=
      {| codec_id := codec_id;
         codec_type := AVMEDIA_TYPE_AUDIO;
         cc_width := cc_width fresh_codec_context;
         cc_height := cc_height fresh_codec_context;
         pix_fmt := pix_fmt fresh_codec_context;
         cc_channels := nbChannels;
         channel_layout := Some (av_get_default_channel_layout nbChannels);
         sample_rate := sampleRate;
         sample_fmt := if AVCodecID_eqb codec_id AV_CODEC_ID_OPUS
                       then AV_SAMPLE_FMT_FLT else AV_SAMPLE_FMT_S16;
         cc_flags := global_header_flags ctx (cc_flags fresh_codec_context) |} in
    let stream := {| index := Z.of_nat (List.length (streams ctx)); codec := c |} in
    modify (set_context (Some (add_stream stream ctx))) ;;
    modify (set_audioStream (Some stream)) ;;
    ret true
  else
    modify (set_status Context_ERROR) ;;
    ret false.

(** [addVideoStream] receives the geometry as [unsigned int] and stores
    it in the [int] fields of the codec context: the value is taken
    modulo 2^32 at the call and read as a signed 32-bit value at the
    assignment. *)
Definition to_unsigned_int (z : Z) : Z := z mod 2 ^ 32.

Definition to_int (z : Z) : Z := (z + 2 ^ 31) mod 2 ^ 32 - 2 ^ 31.

Arguments to_unsigned_int : simpl never.
Arguments to_int : simpl never.

Definition addVideoStream (new_stream_ok : bool) (codec_id : AVCodecID)
    (width height : Z) : M bool :=
  s <- get ;;
  ctx0 <- deref (m_context s) ;;
  let ctx := set_oformat {| of_flags := of_flags (oformat ctx0);
                            video_codec := Some codec_id |} ctx0 in
  modify (set_context (Some ctx)) ;;
  if new_stream_ok then
    let c :=
      {| codec_id := codec_id;
         codec_type := AVMEDIA_TYPE_VIDEO;
         cc_width := to_int (to_unsigned_int width);
         cc_height := to_int (to_unsigned_int height);
         pix_fmt := AV_PIX_FMT_YUV420P;
         cc_channels := cc_channels fresh_codec_context;
         channel_layout := channel_layout fresh_codec_context;
         sample_rate := sample_rate fresh_codec_context;
         sample_fmt := sample_fmt fresh_codec_context;
         cc_flags := global_header_flags ctx (cc_flags fresh_codec_context) |} in
    let stream := {| index := Z.of_nat (List.length (streams ctx)); codec := c |} in
    let ctx1 := add_stream stream ctx in
    let ctx2 := set_oformat {| of_flags := Z.lor (of_flags (oformat ctx1)) AVFMT_VARIABLE_FPS;
                               video_codec := video_codec (oformat ctx1) |} ctx1 in
    modify (set_context (Some ctx2)) ;;
    modify (set_videoStream (Some stream)) ;;
    ret true
  else
    modify (set_status Context_ERROR) ;;
    ret false.

(** ** Writing packets *)

Definition writeVideoFrame (encodedVideoFrame : EncodedFrame) : M unit :=
  s <- get ;;
  _ <- deref (m_videoStream s) ;;
  _ <- deref (m_context s) ;;
  emit (EvWriteFrame {| pkt_data := m_payloadData encodedVideoFrame;
                        pkt_size := m_payloadSize encodedVideoFrame;
                        pkt_timeStamp := m_timeStamp encodedVideoFrame;
                        stream_index := 0 |}).

Definition writeAudioFrame (encodedAudioFrame : EncodedFrame) : M unit :=
  s <- get ;;
  _ <- deref (m_audioStream s) ;;
  _ <- deref (m_context s) ;;
  emit (EvWriteFrame {| pkt_data := m_payloadData encodedAudioFrame;
                        pkt_size := m_payloadSize encodedAudioFrame;
                        pkt_timeStamp := m_timeStamp encodedAudioFrame;
                        stream_index := 1 |}).

(** The two loops of [onTimeout]: pop the front frame and write it, until
    [popFrame] reports an empty queue.  The recursion is on the frames
    the queue holds when the loop starts: nothing is pushed while the
    loop runs. *)
Fixpoint drainAudio (q : MediaFrameQueue) : M unit :=
  match q with
  | [] => ret tt
  | mediaFrame :: rest =>
      modify (set_audioQueue (snd (popFrame q))) ;;
      writeAudioFrame mediaFrame ;;
      drainAudio rest
  end.

Fixpoint drainVideo (q : MediaFrameQueue) : M unit :=
  match q with
  | [] => ret tt
  | mediaFrame :: rest =>
      modify (set_videoQueue (snd (popFrame q))) ;;
      writeVideoFrame mediaFrame ;;
      drainVideo rest
  end.

Definition drainQueues : M unit :=
  s <- get ;;
  drainAudio (m_audioQueue s) ;;
  s' <- get ;;
  drainVideo (m_videoQueue s').

(** ** The timer tick *)

(** What the backend answers during one tick. *)
Record TickEnv : Type := {
  avio_open_ok : bool;
  write_header_ok : bool
}.

Definition notifyAsyncEvent (category message : string) : M unit :=
  emit (EvNotify category message).

Definition onTimeout (env : TickEnv) : M unit :=
  s <- get ;;
  match m_status s with
  | Context_EMPTY =>
      match m_audioStream s, m_videoStream s with
      | Some _, Some _ =>
          ctx <- deref (m_context s) ;;
          let write_header : M unit :=
            emit EvDumpFormat ;;
            emit (EvWriteHeader (write_header_ok env)) ;;
            if write_header_ok env then
              modify (set_avTrailerNeeded true) ;;
              modify (set_status Context_READY) ;;
              drainQueues
            else
              modify (set_status Context_ERROR) ;;
              notifyAsyncEvent "RecordingStream" "write file header error"
          in
          if negb (has_flag (of_flags (oformat ctx)) AVFMT_NOFILE) then
            emit (EvAvioOpen (avio_open_ok env)) ;;
            if avio_open_ok env then
              modify (set_context (Some (set_pb true ctx))) ;;
              write_header
            else
              modify (set_status Context_ERROR) ;;
              notifyAsyncEvent "RecordingStream"
                "output file does not exist or cannot be opened for write"
          else
            write_header
      | _, _ => ret tt
      end
  | Context_READY => drainQueues
  | Context_ERROR =>
      notifyAsyncEvent "RecordingStream" "context initialization failed"
  end.

(** ** Teardown *)

(** [close] does not reset [m_videoStream] and [m_audioStream].  Once
    the container context is released ([EvFreeContext]) the two fields
    are stale: the streams they point to went with the context, and the
    record keeps the descriptors they held only to tell which calls a
    later [close] makes through them.  Statements about the streams of a
    session are made for sessions whose context is not released. *)
Definition close : M unit :=
  emit EvTimerStop ;;
  s <- get ;;
  (match m_context s with
   | Some _ => if m_avTrailerNeeded s then emit EvWriteTrailer else ret tt
   | None => ret tt
   end) ;;
  (match m_videoStream s with
   | Some vs => emit (EvAvcodecClose (codec vs))
   | None => ret tt
   end) ;;
  (match m_audioStream s with
   | Some as_ => emit (EvAvcodecClose (codec as_))
   | None => ret tt
   end) ;;
  match m_context s with
  | Some ctx =>
      (if negb (has_flag (of_flags (oformat ctx)) AVFMT_NOFILE)
       then emit EvAvioClose else ret tt) ;;
      emit EvFreeContext ;;
      modify (set_context None)
  | None => ret tt
  end.

(** ** Frame ingestion *)

(** What the environment answers during one [onFrame]: whether
    [avformat_new_stream] returns a stream, and the reading of the
    ingestion clock the queue stamps the frame with. *)
Record FrameEnv : Type := {
  new_stream_ok : bool;
  now : Z
}.

Definition is_video_format (ff : FrameFormat) : bool :=
  match ff with
  | FRAME_FORMAT_VP8 | FRAME_FORMAT_H264 => true
  | _ => false
  end.

Definition is_audio_format (ff : FrameFormat) : bool :=
  match ff with
  | FRAME_FORMAT_PCMU | FRAME_FORMAT_OPUS => true
  | _ => false
  end.

Definition is_some {A} (o : option A) : bool :=
  match o with Some _ => true | None => false end.

Section Ingestion.

(** [RTPHeader::getHeaderLength] of rtputils.h, which is not among the
    sources at hand: the length of the RTP header that starts at the
    first byte of the payload. *)
Variable getHeaderLength : list byte -> Z.

(** Lines 151-161: the payload the audio queue receives.  Under the
    assertion the unsigned subtraction does not wrap. *)
Definition enqueueAudio (env : FrameEnv) (frame : Frame) : M unit :=
  let payload := f_payload frame in
  let length := f_length frame in
  if isRtpPacket (audio (f_additionalInfo frame)) then
    let headerLength := getHeaderLength payload in
    assert (headerLength <=? length) ;;
    modify (fun s => set_audioQueue
                       (pushFrame (now env) (skipn (Z.to_nat headerLength) payload)
                                  (length - headerLength) (m_audioQueue s)) s)
  else
    modify (fun s => set_audioQueue
                       (pushFrame (now env) payload length (m_audioQueue s)) s).

Definition enqueueVideo (env : FrameEnv) (frame : Frame) : M unit :=
  modify (fun s => set_videoQueue
                     (pushFrame (now env) (f_payload frame) (f_length frame)
                                (m_videoQueue s)) s).

Definition onFrame (env : FrameEnv) (frame : Frame) : M unit :=
  s <- get ;;
  match m_status s with
  | Context_ERROR => ret tt
  | _ =>
      match f_format frame with
      | FRAME_FORMAT_VP8
      | FRAME_FORMAT_H264 =>
          let info := video (f_additionalInfo frame) in
          match m_videoStream s with
          | None =>
              if (0 <? width info) && (0 <? height info) then
                added <- addVideoStream (new_stream_ok env)
                           (frameFormat2VideoCodecID (f_format frame))
                           (width info) (height info) ;;
                (if added : bool
                 then modify (set_videoFrameFormat (f_format frame))
                 else ret tt) ;;
                enqueueVideo env frame
              else
                ret tt
          | Some vs =>
              if negb (AVCodecID_eqb (codec_id (codec vs))
                         (frameFormat2VideoCodecID (f_format frame)))
              then modify (set_status Context_ERROR)
              else enqueueVideo env frame
          end
      | FRAME_FORMAT_PCMU
      | FRAME_FORMAT_OPUS =>
          let info := audio (f_additionalInfo frame) in
          if is_some (m_videoStream s) && negb (is_some (m_audioStream s)) then
            added <- addAudioStream (new_stream_ok env)
                       (frameFormat2AudioCodecID (f_format frame))
                       (channels info) (sampleRate info) ;;
            (if added : bool
             then modify (set_audioFrameFormat (f_format frame))
             else ret tt) ;;
            enqueueAudio env frame
          else
            match m_audioStream s with
            | Some as_ =>
                if negb (AVCodecID_eqb (codec_id (codec as_))
                           (frameFormat2AudioCodecID (f_format frame)))
                then modify (set_status Context_ERROR)
                else enqueueAudio env frame
            | None => enqueueAudio env frame
            end
      | _ => modify (set_status Context_ERROR)
      end
  end.

(** ** Runs of a session *)

Inductive Call : Type :=
| CallFrame (env : FrameEnv) (frame : Frame)
| CallTick (env : TickEnv)
| CallClose.

Definition call (c : Call) : M unit :=
  match c with
  | CallFrame env frame => onFrame env frame
  | CallTick env => onTimeout env
  | CallClose => close
  end.

Fixpoint run (cs : list Call) : M unit :=
  match cs with
  | [] => ret tt
  | c :: cs' => call c ;; run cs'
  end.

(** A session state is reachable when some run of calls leads to it from
    a freshly constructed session. *)
Definition reachable (s : MediaFileOut) : Prop :=
  exists recordUrl snapshotInterval guessed cs evs,
    run cs (MediaFileOut_new recordUrl snapshotInterval guessed) = Ok tt s evs.

End Ingestion.

(** ** FakedVideoFrameDecoder: the slot adapter of the compositor *)

Module FakedVideoFrameDecoder.

(** Calls on the [VideoFrameCompositor] the adapter shares. *)
Inductive CompositorCall : Type :=
| activateInput (slot : Z)
| deActivateInput (slot : Z)
| pushInput (slot : Z) (frame : list byte).

(** The adapter keeps its slot; [m_compositor] is the compositor whose
    calls the trace records. *)
Record t : Type := { m_slot : Z }.

(** Constructor and destructor. *)
Definition new (slot : Z) : t * list CompositorCall :=
  ({| m_slot := slot |}, [activateInput slot]).

Definition delete (d : t) : list CompositorCall :=
  [deActivateInput (m_slot d)].

(** A member function returns [None] when its assertion fails. *)
Definition onFrame (d : t) (format : FrameFormat) (payload : list byte)
    (len : Z) (ts : Z) : option (list CompositorCall) :=
  if FrameFormat_eqb format FRAME_FORMAT_I420
  then Some [pushInput (m_slot d) payload]
  else None.

Definition setInput (d : t) (format : FrameFormat) : option bool :=
  if FrameFormat_eqb format FRAME_FORMAT_I420 then Some true else None.

Definition unsetInput (d : t) : list CompositorCall := [].

(** The calls a client makes between construction and destruction. *)
Inductive Method : Type :=
| MSetInput (format : FrameFormat)
| MUnsetInput
| MOnFrame (format : FrameFormat) (payload : list byte) (len ts : Z).

Definition is_onFrame (m : Method) : bool :=
  match m with MOnFrame _ _ _ _ => true | _ => false end.

Definition invoke (d : t) (m : Method) : option (list CompositorCall) :=
  match m with
  | MSetInput format =>
      match setInput d format with Some _ => Some [] | None => None end
  | MUnsetInput => Some (unsetInput d)
  | MOnFrame format payload len ts => onFrame d format payload len ts
  end.

Fixpoint invoke_all (d : t) (ms : list Method) : option (list CompositorCall) :=
  match ms with
  | [] => Some []
  | m :: ms' =>
      match invoke d m with
      | Some evs =>
          match invoke_all d ms' with
          | Some evs' => Some (evs ++ evs')
          | None => None
          end
      | None => None
      end
  end.

(** Construct an adapter on [slot], make the calls [ms], destroy it. *)
Definition lifetime (slot : Z) (ms : list Method) : option (list CompositorCall) :=
  let (d, evs) := new slot in
  match invoke_all d ms with
  | Some mid => Some (evs ++ mid ++ delete d)
  | None => None
  end.

Definition is_activate (slot : Z) (c : CompositorCall) : bool :=
  match c with activateInput s => s =? slot | _ => false end.

Definition is_deactivate (slot : Z) (c : CompositorCall) : bool :=
  match c with deActivateInput s => s =? slot | _ => false end.

Definition is_push (c : CompositorCall) : bool :=
  match c with pushInput _ _ => true | _ => false end.

Definition count (p : CompositorCall -> bool) (evs : list CompositorCall) : nat :=
  List.length (filter p evs).

End FakedVideoFrameDecoder.

(** ** Vocabulary of the statements *)

Definition is_header_write (e : Event) : bool :=
  match e with EvWriteHeader _ => true | _ => false end.

(** Number of header writes attempted in a trace. *)
Definition header_writes (evs : list Event) : nat :=
  List.length (filter is_header_write evs).

Definition video_packet (ef : EncodedFrame) : AVPacket :=
  {| pkt_data := m_payloadData ef; pkt_size := m_payloadSize ef;
     pkt_timeStamp := m_timeStamp ef; stream_index := 0 |}.

Definition audio_packet (ef : EncodedFrame) : AVPacket :=
  {| pkt_data := m_payloadData ef; pkt_size := m_payloadSize ef;
     pkt_timeStamp := m_timeStamp ef; stream_index := 1 |}.

(** The media kind of a frame format, and the codec a frame of that kind
    asks for. *)
Definition frame_kind (ff : FrameFormat) : option AVMediaType :=
  if is_video_format ff then Some AVMEDIA_TYPE_VIDEO
  else if is_audio_format ff then Some AVMEDIA_TYPE_AUDIO
  else None.

Definition frame_codec (k : AVMediaType) (ff : FrameFormat) : AVCodecID :=
  match k with
  | AVMEDIA_TYPE_VIDEO => frameFormat2VideoCodecID ff
  | AVMEDIA_TYPE_AUDIO => frameFormat2AudioCodecID ff
  end.

Definition stream_of (k : AVMediaType) (s : MediaFileOut) : option AVStream :=
  match k with
  | AVMEDIA_TYPE_VIDEO => m_videoStream s
  | AVMEDIA_TYPE_AUDIO => m_audioStream s
  end.

Definition queue_of (k : AVMediaType) (s : MediaFileOut) : MediaFrameQueue :=
  match k with
  | AVMEDIA_TYPE_VIDEO => m_videoQueue s
  | AVMEDIA_TYPE_AUDIO => m_audioQueue s
  end.

(** The streams a session holds are those of its container, in creation
    order, video first; a ready session holds both. *)
Definition streams_in_order (s : MediaFileOut) : Prop :=
  match m_videoStream s, m_audioStream s with
  | None, None =>
      forall c, m_context s = Some c -> streams c = []
  | Some v, None =>
      index v = 0 /\ forall c, m_context s = Some c -> streams c = [v]
  | Some v, Some a =>
      index v = 0 /\ index a = 1 /\
      forall c, m_context s = Some c -> streams c = [v; a]
  | None, Some _ => False
  end.

Definition session_invariant (s : MediaFileOut) : Prop :=
  streams_in_order s /\
  (m_status s = Context_READY ->
   is_some (m_videoStream s) = true /\ is_some (m_audioStream s) = true).

(** The frame [onFrame] puts on the audio queue for an audio frame:
    the payload past the RTP header when the frame is flagged as an RTP
    packet, the payload as it is otherwise. *)
Definition audio_entry (getHeaderLength : list byte -> Z) (env : FrameEnv)
    (frame : Frame) : EncodedFrame :=
  let payload := f_payload frame in
  let length := f_length frame in
  if isRtpPacket (audio (f_additionalInfo frame)) then
    let headerLength := getHeaderLength payload in
    {| m_timeStamp := now env;
       m_payloadData := firstn (Z.to_nat (length - headerLength))
                               (skipn (Z.to_nat headerLength) payload);
       m_payloadSize := length - headerLength |}
  else
    {| m_timeStamp := now env;
       m_payloadData := firstn (Z.to_nat length) payload;
       m_payloadSize := length |}.

(** The packets a drain of both queues writes, and the session it
    leaves. *)
Definition queued_packets (s : MediaFileOut) : list Event :=
  map (fun ef => EvWriteFrame (audio_packet ef)) (m_audioQueue s)
  ++ map (fun ef => EvWriteFrame (video_packet ef)) (m_videoQueue s).

Definition drained (s : MediaFileOut) : MediaFileOut :=
  set_videoQueue [] (set_audioQueue [] s).

(** Whether the output format needs the session to open a file. *)
Definition needs_file (c : AVFormatContext) : bool :=
  negb (has_flag (of_flags (oformat c)) AVFMT_NOFILE).

(** The session and the trace once the sink is open. *)
Definition sink_opened (c : AVFormatContext) (s : MediaFileOut) : MediaFileOut :=
  if needs_file c then set_context (Some (set_pb true c)) s else s.

Definition open_events (c : AVFormatContext) : list Event :=
  if needs_file c then [EvAvioOpen true] else [].

(** ** Concrete sessions and frames *)

(** Modelled from the spec: the standard RTP header length (12 fixed
    bytes, 4 bytes per CSRC, and the header extension when the X bit is
    set), standing for the [getHeaderLength] of rtputils.h, which is not
    among the sources at hand. *)
Definition rtpHeaderLength (payload : list byte) : Z :=
  let b (i : nat) := Z.of_N (Byte.to_N (nth i payload x00)) in
  let cc := Z.land (b 0%nat) 0x0F in
  let x := Z.land (Z.shiftr (b 0%nat) 4) 1 in
  let ext := (12 + Z.to_nat cc * 4)%nat in
  let extensionlength := Z.lor (Z.shiftl (b (ext + 2)%nat) 8) (b (ext + 3)%nat) in
  12 + cc * 4 + x * (4 + extensionlength * 4).

Definition sample_format : AVOutputFormat :=
  {| of_flags := AVFMT_GLOBALHEADER; video_codec := None |}.

Definition sample_session : MediaFileOut :=
  MediaFileOut_new "/tmp/room.mkv" 0 sample_format.

Definition sample_env : FrameEnv := {| new_stream_ok := true; now := 40 |}.

Definition sample_tick : TickEnv :=
  {| avio_open_ok := true; write_header_ok := true |}.

Definition no_video_info : VideoFrameSpecificInfo := {| width := 0; height := 0 |}.

Definition no_audio_info : AudioFrameSpecificInfo :=
  {| isRtpPacket := false; sampleRate := 0; channels := 0 |}.

Definition vp8_frame : Frame :=
  {| f_format := FRAME_FORMAT_VP8;
     f_payload := [x9d; x01; x2a];
     f_length := 3;
     f_timeStamp := 0;
     f_additionalInfo := {| video := {| width := 640; height := 480 |};
                            audio := no_audio_info |} |}.

Definition h264_frame : Frame :=
  {| f_format := FRAME_FORMAT_H264;
     f_payload := [x00; x00; x01; x65];
     f_length := 4;
     f_timeStamp := 33;
     f_additionalInfo := {| video := {| width := 640; height := 480 |};
                            audio := no_audio_info |} |}.

(** An RTP packet with a 12-byte header and three bytes of OPUS data. *)
Definition opus_rtp_frame : Frame :=
  {| f_format := FRAME_FORMAT_OPUS;
     f_payload := [x80; x6f; x00; x01; x00; x00; x03; xc0;
                   x12; x34; x56; x78; xaa; xbb; xcc];
     f_length := 15;
     f_timeStamp := 20;
     f_additionalInfo := {| video := no_video_info;
                            audio := {| isRtpPacket := true; sampleRate := 48000;
                                        channels := 2 |} |} |}.

Definition pcmu_frame : Frame :=
  {| f_format := FRAME_FORMAT_PCMU;
     f_payload := [xff; x7f];
     f_length := 2;
     f_timeStamp := 20;
     f_additionalInfo := {| video := no_video_info;
                            audio := {| isRtpPacket := false; sampleRate := 8000;
                                        channels := 1 |} |} |}.

Definition i420_frame : Frame :=
  {| f_format := FRAME_FORMAT_I420;
     f_payload := [];
     f_length := 0;
     f_timeStamp := 0;
     f_additionalInfo := {| video := {| width := 640; height := 480 |};
                            audio := no_audio_info |} |}.


(** The sample session after a first VP8 frame and a first OPUS frame:
    both streams exist, one frame waits on each queue, and no tick has
    run yet. *)
Definition recording_calls : list Call :=
  [CallFrame sample_env vp8_frame; CallFrame sample_env opus_rtp_frame].

Definition recording_session : MediaFileOut :=
  Eval vm_compute in
    match run rtpHeaderLength recording_calls sample_session with
    | Ok _ s _ => s
    | Crash _ => sample_session
    end.

(** The sample session after a frame of a format that cannot be
    recorded. *)
Definition failed_session : MediaFileOut :=
  Eval vm_compute in
    match onFrame rtpHeaderLength sample_env i420_frame sample_session with
    | Ok _ s _ => s
    | Crash _ => sample_session
    end.

(** ** Vocabulary of the statements on traces and descriptors *)

Definition is_write_frame (e : Event) : bool :=
  match e with EvWriteFrame _ => true | _ => false end.

Definition is_write_trailer (e : Event) : bool :=
  match e with EvWriteTrailer => true | _ => false end.

(** Number of packets submitted, and of trailers written, in a trace. *)
Definition frame_writes (evs : list Event) : nat :=
  List.length (filter is_write_frame evs).

Definition trailer_writes (evs : list Event) : nat :=
  List.length (filter is_write_trailer evs).

(** The packets of a trace that carry stream index [idx], in the order
    they were submitted. *)
Fixpoint packets_of (idx : Z) (evs : list Event) : list AVPacket :=
  match evs with
  | [] => []
  | EvWriteFrame pkt :: rest =>
      if stream_index pkt =? idx
      then pkt :: packets_of idx rest
      else packets_of idx rest
  | _ :: rest => packets_of idx rest
  end.

(** No packet is submitted before a header write succeeded. *)
Fixpoint header_before_packets (evs : list Event) : bool :=
  match evs with
  | [] => true
  | EvWriteHeader true :: _ => true
  | EvWriteFrame _ :: _ => false
  | _ :: rest => header_before_packets rest
  end.

(** No trailer is written before a header write succeeded. *)
Fixpoint header_before_trailer (evs : list Event) : bool :=
  match evs with
  | [] => true
  | EvWriteHeader true :: _ => true
  | EvWriteTrailer :: _ => false
  | _ :: rest => header_before_trailer rest
  end.

Definition is_notify (e : Event) : bool :=
  match e with EvNotify _ _ => true | _ => false end.

(** Number of notifications sent to the event registry in a trace. *)
Definition notifications (evs : list Event) : nat :=
  List.length (filter is_notify evs).

(** The order in which a session passes through its states. *)
Definition status_rank (st : Status) : nat :=
  match st with
  | Context_EMPTY => 0
  | Context_READY => 1
  | Context_ERROR => 2
  end.

Definition option_list {A} (o : option A) : list A :=
  match o with Some a => [a] | None => [] end.

(** The stream descriptors a session holds, video first. *)
Definition session_streams (s : MediaFileOut) : list AVStream :=
  option_list (m_videoStream s) ++ option_list (m_audioStream s).

(** What the descriptors of a session say about the frames that created
    them: the recorded frame format is the one the codec id, the media
    type and the sample or pixel format were derived from. *)
Definition video_descriptor_ok (ff : FrameFormat) (v : AVStream) : Prop :=
  is_video_format ff = true /\
  codec_id (codec v) = frameFormat2VideoCodecID ff /\
  codec_type (codec v) = AVMEDIA_TYPE_VIDEO /\
  pix_fmt (codec v) = AV_PIX_FMT_YUV420P.

Definition audio_descriptor_ok (ff : FrameFormat) (a : AVStream) : Prop :=
  is_audio_format ff = true /\
  codec_id (codec a) = frameFormat2AudioCodecID ff /\
  codec_type (codec a) = AVMEDIA_TYPE_AUDIO /\
  sample_fmt (codec a) =
    match ff with
    | FRAME_FORMAT_OPUS => AV_SAMPLE_FMT_FLT
    | _ => AV_SAMPLE_FMT_S16
    end.

Definition descriptors_ok (s : MediaFileOut) : Prop :=
  (forall v, m_videoStream s = Some v ->
             video_descriptor_ok (m_videoFrameFormat s) v) /\
  (forall a, m_audioStream s = Some a ->
             audio_descriptor_ok (m_audioFrameFormat s) a).

(** The flags of the output format the session decides on, and their
    mirror in the codec context of a stream. *)
Definition same_format_flags (o : AVOutputFormat) (c : AVFormatContext) : Prop :=
  has_flag (of_flags (oformat c)) AVFMT_NOFILE = has_flag (of_flags o) AVFMT_NOFILE /\
  has_flag (of_flags (oformat c)) AVFMT_GLOBALHEADER
    = has_flag (of_flags o) AVFMT_GLOBALHEADER.

Definition global_header_mirrored (o : AVOutputFormat) (st : AVStream) : Prop :=
  has_flag (cc_flags (codec st)) CODEC_FLAG_GLOBAL_HEADER
    = has_flag (of_flags o) AVFMT_GLOBALHEADER.

(** What a session keeps of the format flags. *)
Definition flags_invariant (o : AVOutputFormat) (s : MediaFileOut) : Prop :=
  (forall c, m_context s = Some c -> same_format_flags o c) /\
  (forall st, In st (session_streams s) -> global_header_mirrored o st).

(** The slot adapter: the [pushInput] calls the member calls [ms] make
    on [slot], and whether a member call passes its assertion. *)
Definition adapter_pushes (slot : Z) (ms : list FakedVideoFrameDecoder.Method)
    : list FakedVideoFrameDecoder.CompositorCall :=
  flat_map (fun m =>
              match m with
              | FakedVideoFrameDecoder.MOnFrame _ payload _ _ =>
                  [FakedVideoFrameDecoder.pushInput slot payload]
              | _ => []
              end) ms.

Definition adapter_call_ok (m : FakedVideoFrameDecoder.Method) : bool :=
  match m with
  | FakedVideoFrameDecoder.MSetInput format
  | FakedVideoFrameDecoder.MOnFrame format _ _ _ =>
      FrameFormat_eqb format FRAME_FORMAT_I420
  | FakedVideoFrameDecoder.MUnsetInput => true
  end.

(** The frame a call of [onFrame] adds to a queue, told from the frame
    and the session it meets.  An audio frame is queued unless the session
    is in the error state or the frame asks for another codec than the
    audio stream's; a video frame is queued unless the session is in the
    error state, the frame asks for another codec than the video
    stream's, or there is no video stream yet and the frame carries no
    geometry. *)
Definition video_entry (env : FrameEnv) (frame : Frame) : EncodedFrame :=
  {| m_timeStamp := now env;
     m_payloadData := firstn (Z.to_nat (f_length frame)) (f_payload frame);
     m_payloadSize := f_length frame |}.

Definition audio_queued_by (getHeaderLength : list byte -> Z) (env : FrameEnv)
    (frame : Frame) (s : MediaFileOut) : list EncodedFrame :=
  match m_status s with
  | Context_ERROR => []
  | _ =>
      if is_audio_format (f_format frame) then
        match m_audioStream s with
        | Some a =>
            if negb (AVCodecID_eqb (codec_id (codec a))
                       (frameFormat2AudioCodecID (f_format frame)))
            then []
            else [audio_entry getHeaderLength env frame]
        | None => [audio_entry getHeaderLength env frame]
        end
      else []
  end.

Definition video_queued_by (env : FrameEnv) (frame : Frame) (s : MediaFileOut)
    : list EncodedFrame :=
  match m_status s with
  | Context_ERROR => []
  | _ =>
      if is_video_format (f_format frame) then
        match m_videoStream s with
        | Some v =>
            if negb (AVCodecID_eqb (codec_id (codec v))
                       (frameFormat2VideoCodecID (f_format frame)))
            then []
            else [video_entry env frame]
        | None =>
            if (0 <? width (video (f_additionalInfo frame)))
               && (0 <? height (video (f_additionalInfo frame)))
            then [video_entry env frame]
            else []
        end
      else []
  end.

(** The frames a call adds to the queues. *)
Definition audio_queued_by_call (getHeaderLength : list byte -> Z) (c : Call)
    (s : MediaFileOut) : list EncodedFrame :=
  match c with
  | CallFrame env frame => audio_queued_by getHeaderLength env frame s
  | _ => []
  end.

Definition video_queued_by_call (c : Call) (s : MediaFileOut) : list EncodedFrame :=
  match c with
  | CallFrame env frame => video_queued_by env frame s
  | _ => []
  end.

(** The frames the [onFrame] calls of a run add to the queues, in the
    order of the calls. *)
Fixpoint audio_queued_by_run (getHeaderLength : list byte -> Z)
    (cs : list Call) (s : MediaFileOut) : list EncodedFrame :=
  match cs with
  | [] => []
  | c :: cs' =>
      match call getHeaderLength c s with
      | Ok _ s1 _ =>
          audio_queued_by_call getHeaderLength c s
          ++ audio_queued_by_run getHeaderLength cs' s1
      | Crash _ => []
      end
  end.

Fixpoint video_queued_by_run (getHeaderLength : list byte -> Z)
    (cs : list Call) (s : MediaFileOut) : list EncodedFrame :=
  match cs with
  | [] => []
  | c :: cs' =>
      match call getHeaderLength c s with
      | Ok _ s1 _ =>
          video_queued_by_call c s ++ video_queued_by_run getHeaderLength cs' s1
      | Crash _ => []
      end
  end.

(** What the compositor has seen of an adapter when its lifetime ends:
    a failed assertion ends the lifetime on the spot, after the calls
    made so far and without the destructor.  The flag tells whether the
    lifetime ran to its destructor. *)
Fixpoint adapter_calls_until_abort (d : FakedVideoFrameDecoder.t)
    (ms : list FakedVideoFrameDecoder.Method)
    : list FakedVideoFrameDecoder.CompositorCall * bool :=
  match ms with
  | [] => ([], true)
  | m :: ms' =>
      match FakedVideoFrameDecoder.invoke d m with
      | Some evs =>
          let (rest, completed) := adapter_calls_until_abort d ms' in
          (evs ++ rest, completed)
      | None => ([], false)
      end
  end.

Definition adapter_observed (slot : Z) (ms : list FakedVideoFrameDecoder.Method)
    : list FakedVideoFrameDecoder.CompositorCall * bool :=
  let (d, evs) := FakedVideoFrameDecoder.new slot in
  let (mid, completed) := adapter_calls_until_abort d ms in
  if completed
  then (evs ++ mid ++ FakedVideoFrameDecoder.delete d, true)
  else (evs ++ mid, false).

(** Calls that are not teardown. *)
Definition is_close (c : Call) : bool :=
  match c with CallClose => true | _ => false end.

(** ** Further concrete sessions and frames *)

Definition failing_env : FrameEnv := {| new_stream_ok := false; now := 40 |}.

Definition vp8_frame_without_geometry : Frame :=
  {| f_format := FRAME_FORMAT_VP8;
     f_payload := [x9d; x01; x2a];
     f_length := 3;
     f_timeStamp := 0;
     f_additionalInfo := {| video := no_video_info; audio := no_audio_info |} |}.

(** A tick during which the sink cannot be opened. *)
Definition failing_sink_tick : TickEnv :=
  {| avio_open_ok := false; write_header_ok := true |}.

(** The sample session after an OPUS frame that came before any video,
    then, both streams created by a VP8 and a second OPUS frame, and at
    last after a tick during which the sink cannot be opened. *)
Definition early_audio_session : MediaFileOut :=
  Eval vm_compute in
    match onFrame rtpHeaderLength sample_env opus_rtp_frame sample_session with
    | Ok _ s _ => s
    | Crash _ => sample_session
    end.

Definition both_streams_session : MediaFileOut :=
  Eval vm_compute in
    match run rtpHeaderLength recording_calls early_audio_session with
    | Ok _ s _ => s
    | Crash _ => sample_session
    end.

Definition sink_failed_session : MediaFileOut :=
  Eval vm_compute in
    match onTimeout failing_sink_tick both_streams_session with
    | Ok _ s _ => s
    | Crash _ => sample_session
    end.

(** The sample session with a video stream only. *)
Definition video_only_session : MediaFileOut :=
  Eval vm_compute in
    match onFrame rtpHeaderLength sample_env vp8_frame sample_session with
    | Ok _ s _ => s
    | Crash _ => sample_session
    end.

(** The recording session after its first tick: ready, queues empty. *)
Definition ready_session : MediaFileOut :=
  Eval vm_compute in
    match onTimeout sample_tick recording_session with
    | Ok _ s _ => s
    | Crash _ => sample_session
    end.

(** The ready session with two more frames queued. *)
Definition ready_session_with_frames : MediaFileOut :=
  Eval vm_compute in
    match run rtpHeaderLength
            [CallFrame sample_env vp8_frame; CallFrame sample_env opus_rtp_frame;
             CallFrame sample_env vp8_frame] ready_session with
    | Ok _ s _ => s
    | Crash _ => sample_session
    end.

(** The sample session after teardown. *)
Definition closed_session : MediaFileOut :=
  Eval vm_compute in
    match close sample_session with
    | Ok _ s _ => s
    | Crash _ => sample_session
    end.

(** * Properties *)

Lemma AVCodecID_eqb_eq (a b : AVCodecID) : AVCodecID_eqb a b = true <-> a = b.
Proof. destruct a, b; simpl; split; congruence. Qed.

Lemma AVCodecID_eqb_neq (a b : AVCodecID) : AVCodecID_eqb a b = false <-> a <> b.
Proof. destruct a, b; simpl; split; congruence. Qed.

Example rtpHeaderLength_opus : rtpHeaderLength (f_payload opus_rtp_frame) = 12.
Proof. reflexivity. Qed.

Example onFrame_first_video :
  exists s, onFrame rtpHeaderLength sample_env vp8_frame sample_session = Ok tt s []
            /\ is_some (m_videoStream s) = true
            /\ List.length (m_videoQueue s) = 1%nat.
Proof. eexists. split; [reflexivity | split; reflexivity]. Qed.

Example run_records :
  exists s evs,
    run rtpHeaderLength
        [CallFrame sample_env vp8_frame; CallFrame sample_env opus_rtp_frame;
         CallTick sample_tick; CallFrame sample_env vp8_frame; CallTick sample_tick;
         CallClose] sample_session = Ok tt s evs
    /\ header_writes evs = 1%nat
    /\ m_status s = Context_READY
    /\ m_context s = None.
Proof. do 2 eexists. split; [vm_compute; reflexivity | repeat split]. Qed.

(** ** The monad *)

Ltac unfold_m :=
  unfold bind, ret, get, modify, emit, crash, assert, deref, notifyAsyncEvent in *.

Lemma bind_Ok_inv {A B} (c : M A) (k : A -> M B) s b s2 evs :
  bind c k s = Ok b s2 evs ->
  exists a s1 evs1 evs2,
    c s = Ok a s1 evs1 /\ k a s1 = Ok b s2 evs2 /\ evs = evs1 ++ evs2.
Proof.
  unfold bind. destruct (c s) as [a s1 evs1 | why]; [ | discriminate ].
  destruct (k a s1) as [b' s2' evs2 | why] eqn:Hk; [ | discriminate ].
  intros H. inversion H; subst. exists a, s1, evs1, evs2. auto.
Qed.

Lemma bind_Ok {A B} (c : M A) (k : A -> M B) s a s1 evs1 :
  c s = Ok a s1 evs1 ->
  bind c k s =
  match k a s1 with
  | Ok b s2 evs2 => Ok b s2 (evs1 ++ evs2)
  | Crash why => Crash why
  end.
Proof. intros H. unfold bind. rewrite H. reflexivity. Qed.

(** Setters that write back what a field already holds. *)
Lemma set_status_same s : set_status (m_status s) s = s.
Proof. destruct s; reflexivity. Qed.

Lemma set_audioQueue_same s : set_audioQueue (m_audioQueue s) s = s.
Proof. destruct s; reflexivity. Qed.

Lemma set_videoQueue_same s : set_videoQueue (m_videoQueue s) s = s.
Proof. destruct s; reflexivity. Qed.

(** ** Draining the queues *)

Lemma drainAudio_ok q : forall s a c,
  m_audioStream s = Some a -> m_context s = Some c ->
  drainAudio q s =
  Ok tt (match q with [] => s | _ :: _ => set_audioQueue [] s end)
        (map (fun ef => EvWriteFrame (audio_packet ef)) q).
Proof.
  induction q as [ | ef rest IH ]; intros s a c Ha Hc; [ reflexivity | ].
  cbn [drainAudio map].
  rewrite (bind_Ok _ _ s tt (set_audioQueue rest s) []) by reflexivity.
  assert (Hw : writeAudioFrame ef (set_audioQueue rest s)
               = Ok tt (set_audioQueue rest s) [EvWriteFrame (audio_packet ef)]).
  { unfold writeAudioFrame. unfold_m. cbn. rewrite Ha, Hc. reflexivity. }
  rewrite (bind_Ok _ _ _ _ _ _ Hw).
  rewrite (IH (set_audioQueue rest s) a c) by assumption.
  destruct rest; reflexivity.
Qed.

Lemma drainVideo_ok q : forall s v c,
  m_videoStream s = Some v -> m_context s = Some c ->
  drainVideo q s =
  Ok tt (match q with [] => s | _ :: _ => set_videoQueue [] s end)
        (map (fun ef => EvWriteFrame (video_packet ef)) q).
Proof.
  induction q as [ | ef rest IH ]; intros s v c Hv Hc; [ reflexivity | ].
  cbn [drainVideo map].
  rewrite (bind_Ok _ _ s tt (set_videoQueue rest s) []) by reflexivity.
  assert (Hw : writeVideoFrame ef (set_videoQueue rest s)
               = Ok tt (set_videoQueue rest s) [EvWriteFrame (video_packet ef)]).
  { unfold writeVideoFrame. unfold_m. cbn. rewrite Hv, Hc. reflexivity. }
  rewrite (bind_Ok _ _ _ _ _ _ Hw).
  rewrite (IH (set_videoQueue rest s) v c) by assumption.
  destruct rest; reflexivity.
Qed.

(** A non-empty queue cannot be drained without its stream and the
    container context: the first write dereferences both. *)
Lemma drainAudio_crash ef rest s :
  m_audioStream s = None \/ m_context s = None ->
  drainAudio (ef :: rest) s = Crash NullDereference.
Proof.
  intros H. cbn [drainAudio].
  rewrite (bind_Ok _ _ s tt (set_audioQueue rest s) []) by reflexivity.
  assert (Hw : writeAudioFrame ef (set_audioQueue rest s) = Crash NullDereference).
  { unfold writeAudioFrame. unfold_m. cbn.
    destruct H as [H | H]; rewrite H; [ reflexivity | ].
    destruct (m_audioStream s); reflexivity. }
  unfold bind at 1. rewrite Hw. reflexivity.
Qed.

Lemma drainVideo_crash ef rest s :
  m_videoStream s = None \/ m_context s = None ->
  drainVideo (ef :: rest) s = Crash NullDereference.
Proof.
  intros H. cbn [drainVideo].
  rewrite (bind_Ok _ _ s tt (set_videoQueue rest s) []) by reflexivity.
  assert (Hw : writeVideoFrame ef (set_videoQueue rest s) = Crash NullDereference).
  { unfold writeVideoFrame. unfold_m. cbn.
    destruct H as [H | H]; rewrite H; [ reflexivity | ].
    destruct (m_videoStream s); reflexivity. }
  unfold bind at 1. rewrite Hw. reflexivity.
Qed.

Lemma drainAudio_inv q s s' evs :
  drainAudio q s = Ok tt s' evs ->
  s' = match q with [] => s | _ :: _ => set_audioQueue [] s end /\
  evs = map (fun ef => EvWriteFrame (audio_packet ef)) q.
Proof.
  destruct q as [ | ef rest ].
  - cbn. intros H. inversion H. auto.
  - destruct (m_audioStream s) as [a | ] eqn:Ha;
      [ destruct (m_context s) as [c | ] eqn:Hc | ].
    + rewrite (drainAudio_ok _ s a c Ha Hc). intros H. inversion H. auto.
    + rewrite drainAudio_crash by auto. discriminate.
    + rewrite drainAudio_crash by auto. discriminate.
Qed.

Lemma drainVideo_inv q s s' evs :
  drainVideo q s = Ok tt s' evs ->
  s' = match q with [] => s | _ :: _ => set_videoQueue [] s end /\
  evs = map (fun ef => EvWriteFrame (video_packet ef)) q.
Proof.
  destruct q as [ | ef rest ].
  - cbn. intros H. inversion H. auto.
  - destruct (m_videoStream s) as [v | ] eqn:Hv;
      [ destruct (m_context s) as [c | ] eqn:Hc | ].
    + rewrite (drainVideo_ok _ s v c Hv Hc). intros H. inversion H. auto.
    + rewrite drainVideo_crash by auto. discriminate.
    + rewrite drainVideo_crash by auto. discriminate.
Qed.

(** A drain that completes leaves both queues empty, touches nothing
    else, and writes every queued frame: the audio frames first, each
    queue in its own order. *)
Lemma drainQueues_inv s s' evs :
  drainQueues s = Ok tt s' evs ->
  s' = set_videoQueue [] (set_audioQueue [] s) /\
  evs = map (fun ef => EvWriteFrame (audio_packet ef)) (m_audioQueue s)
        ++ map (fun ef => EvWriteFrame (video_packet ef)) (m_videoQueue s).
Proof.
  unfold drainQueues. intros H.
  apply bind_Ok_inv in H. destruct H as (s0 & s1 & e1 & e2 & Hg & H & ->).
  unfold get in Hg. inversion Hg; subst; clear Hg.
  apply bind_Ok_inv in H. destruct H as ([] & s2 & e3 & e4 & Ha & H & ->).
  apply drainAudio_inv in Ha. destruct Ha as [-> ->].
  apply bind_Ok_inv in H. destruct H as (s3 & s4 & e5 & e6 & Hg & H & ->).
  unfold get in Hg. inversion Hg; subst; clear Hg.
  apply drainVideo_inv in H. destruct H as [-> ->].
  split.
  - destruct s1 as [st vs as_ cx tr vi ai vf af vq aq rp si].
    cbn. destruct aq, vq; reflexivity.
  - cbn. f_equal. f_equal.
    destruct (m_audioQueue s1); reflexivity.
Qed.

(** ** One timer tick, case by case *)

Arguments has_flag : simpl never.
Arguments drainQueues : simpl never.

Lemma onTimeout_cases env s s' evs :
  onTimeout env s = Ok tt s' evs ->
  (m_status s = Context_ERROR /\ s' = s /\
   evs = [EvNotify "RecordingStream" "context initialization failed"])
  \/ (m_status s = Context_READY /\ s' = drained s /\ evs = queued_packets s)
  \/ (m_status s = Context_EMPTY /\
      (m_audioStream s = None \/ m_videoStream s = None) /\ s' = s /\ evs = [])
  \/ (exists a v c,
        m_status s = Context_EMPTY /\ m_audioStream s = Some a /\
        m_videoStream s = Some v /\ m_context s = Some c /\
        ((needs_file c = true /\ avio_open_ok env = false /\
          s' = set_status Context_ERROR s /\
          evs = [EvAvioOpen false;
                 EvNotify "RecordingStream"
                   "output file does not exist or cannot be opened for write"])
         \/ ((needs_file c = true -> avio_open_ok env = true) /\
             write_header_ok env = false /\
             s' = set_status Context_ERROR (sink_opened c s) /\
             evs = open_events c ++
                   [EvDumpFormat; EvWriteHeader false;
                    EvNotify "RecordingStream" "write file header error"])
         \/ ((needs_file c = true -> avio_open_ok env = true) /\
             write_header_ok env = true /\
             s' = drained (set_status Context_READY
                            (set_avTrailerNeeded true (sink_opened c s))) /\
             evs = open_events c ++ [EvDumpFormat; EvWriteHeader true]
                   ++ queued_packets s))).
Proof.
  unfold onTimeout. intros H.
  apply bind_Ok_inv in H. destruct H as (s0 & s1 & e1 & e2 & Hg & H & ->).
  unfold get in Hg. inversion Hg; subst s0 s1 e1; clear Hg. cbn [app].
  destruct (m_status s) eqn:Hst.
  - (* Context_EMPTY *)
    destruct (m_audioStream s) as [a | ] eqn:Ha;
      [ destruct (m_videoStream s) as [v | ] eqn:Hv | ].
    2,3: unfold ret in H; inversion H; subst; right; right; left; auto.
    right; right; right.
    destruct (m_context s) as [c | ] eqn:Hc; [ | discriminate H ].
    exists a, v, c. repeat (split; [ reflexivity | ]).
    unfold open_events, sink_opened, needs_file.
    destruct env as [open_ok header_ok]; cbn [avio_open_ok write_header_ok] in *.
    unfold_m. cbn in H.
    destruct (has_flag (of_flags (oformat c)) AVFMT_NOFILE) eqn:Hnf;
      cbn in H |- *.
    + destruct header_ok; cbn in H.
      * destruct (drainQueues _) as [ [] s2 e | ] eqn:Hd; [ | discriminate H ].
        apply drainQueues_inv in Hd. destruct Hd as [-> ->].
        inversion H; subst. right; right. repeat split; try reflexivity.
        intros; discriminate.
      * inversion H; subst. right; left. repeat split; try reflexivity.
        intros; discriminate.
    + destruct open_ok; cbn in H.
      * destruct header_ok; cbn in H.
        -- destruct (drainQueues _) as [ [] s2 e | ] eqn:Hd; [ | discriminate H ].
           apply drainQueues_inv in Hd. destruct Hd as [-> ->].
           inversion H; subst. right; right. repeat split; reflexivity.
        -- inversion H; subst. right; left. repeat split; reflexivity.
      * inversion H; subst. left. repeat split; reflexivity.
  - (* Context_READY *)
    apply drainQueues_inv in H. destruct H as [-> ->]. right; left. auto.
  - (* Context_ERROR *)
    unfold_m. inversion H; subst. left. auto.
Qed.

(** ** One frame *)

Arguments global_header_flags : simpl never.
Arguments pushFrame : simpl never.

Ltac unfold_onFrame :=
  unfold onFrame, enqueueAudio, enqueueVideo, addVideoStream, addAudioStream;
  unfold_m.

(** Case analysis on every test a hypothesis is stuck on. *)
Ltac break_tests H :=
  repeat match type of H with
         | context [ match ?x with _ => _ end ] =>
             lazymatch x with
             | context [ match _ with _ => _ end ] => fail
             | _ => destruct x eqn:?; cbn in H; try discriminate H
             end
         end.

Ltac grown :=
  first [ exists []; symmetry; apply app_nil_r
        | eexists; unfold pushFrame; reflexivity ].

Section Frames.

Variable getHeaderLength : list byte -> Z.

Lemma onFrame_effect env frame s s' evs :
  onFrame getHeaderLength env frame s = Ok tt s' evs ->
  evs = [] /\
  (m_status s' = m_status s \/ m_status s' = Context_ERROR) /\
  m_avTrailerNeeded s' = m_avTrailerNeeded s /\
  (exists more, m_audioQueue s' = m_audioQueue s ++ more) /\
  (exists more, m_videoQueue s' = m_videoQueue s ++ more) /\
  (is_some (m_videoStream s) = true -> m_videoStream s' = m_videoStream s) /\
  (is_some (m_audioStream s) = true -> m_audioStream s' = m_audioStream s).
Proof.
  destruct s as [st [v | ] [a | ] cx tr vi ai vf af vq aq rp si];
    unfold_onFrame; cbn; intros H;
    break_tests H; inversion H; subst; cbn;
    repeat split; auto; try grown; try discriminate.
Qed.

(** [onFrame] keeps the streams of the session and of its container in
    step: a stream it creates takes the next index of the container. *)
Lemma onFrame_streams_in_order env frame s s' evs :
  streams_in_order s ->
  onFrame getHeaderLength env frame s = Ok tt s' evs ->
  streams_in_order s'.
Proof.
  destruct s as [st [v | ] [a | ] [c | ] tr vi ai vf af vq aq rp si];
    unfold streams_in_order; cbn; intros Hinv; try contradiction;
    unfold_onFrame; cbn; intros H;
    break_tests H; inversion H; subst; cbn;
    repeat match type of Hinv with _ /\ _ => destruct Hinv as [? Hinv] end;
    try specialize (Hinv c eq_refl);
    repeat split; auto;
    try (intros c0 Hc0; inversion Hc0; subst; cbn; try rewrite Hinv; auto; fail);
    try (rewrite Hinv; reflexivity).
Qed.

End Frames.

(** ** The session invariant *)

Lemma streams_in_order_ext s s' :
  m_videoStream s' = m_videoStream s ->
  m_audioStream s' = m_audioStream s ->
  (forall c', m_context s' = Some c' ->
              exists c, m_context s = Some c /\ streams c' = streams c) ->
  streams_in_order s -> streams_in_order s'.
Proof.
  unfold streams_in_order. intros -> -> Hc.
  destruct (m_videoStream s) as [v | ], (m_audioStream s) as [a | ]; auto.
  - intros (Hv & Ha & H). repeat split; auto.
    intros c' Hc'. destruct (Hc c' Hc') as (c & Hs & ->). auto.
  - intros (Hv & H). split; auto.
    intros c' Hc'. destruct (Hc c' Hc') as (c & Hs & ->). auto.
  - intros H c' Hc'. destruct (Hc c' Hc') as (c & Hs & ->). auto.
Qed.

Lemma sink_opened_fields c s :
  m_context s = Some c ->
  m_videoStream (sink_opened c s) = m_videoStream s /\
  m_audioStream (sink_opened c s) = m_audioStream s /\
  m_status (sink_opened c s) = m_status s /\
  m_audioQueue (sink_opened c s) = m_audioQueue s /\
  m_videoQueue (sink_opened c s) = m_videoQueue s /\
  exists c', m_context (sink_opened c s) = Some c' /\ streams c' = streams c.
Proof.
  intros Hc. unfold sink_opened. destruct (needs_file c); cbn; repeat split; eauto.
Qed.

Lemma onTimeout_invariant env s s' evs :
  session_invariant s ->
  onTimeout env s = Ok tt s' evs ->
  session_invariant s'.
Proof.
  intros [Hord Hready] H. apply onTimeout_cases in H.
  destruct H as [ (Hst & -> & _) | [ (Hst & -> & _) | [ (Hst & _ & -> & _) | H ] ] ].
  - split; assumption.
  - split; [ | exact Hready ].
    revert Hord. apply streams_in_order_ext; try reflexivity. cbn. eauto.
  - split; assumption.
  - destruct H as (a & v & c & Hst & Ha & Hv & Hc & H).
    destruct (sink_opened_fields c s Hc) as (Ev & Ea & Es & _ & _ & c' & Ec' & Estr).
    destruct H as [ (_ & _ & -> & _) | [ (_ & _ & -> & _) | (_ & _ & -> & _) ] ].
    + split; [ | cbn; discriminate ].
      revert Hord. apply streams_in_order_ext; try reflexivity. cbn. eauto.
    + split; [ | cbn; discriminate ].
      revert Hord. apply streams_in_order_ext; cbn; auto.
      intros c0 Hc0. rewrite Ec' in Hc0. inversion Hc0; subst. eauto.
    + split.
      * revert Hord. apply streams_in_order_ext; cbn; auto.
        intros c0 Hc0. rewrite Ec' in Hc0. inversion Hc0; subst. eauto.
      * intros _. cbn. rewrite Ev, Ea, Hv, Ha. split; reflexivity.
Qed.

(** [close] always completes; of the session it changes the container
    context only, which it releases. *)
Lemma close_state s : exists evs, close s = Ok tt (set_context None s) evs.
Proof.
  destruct s as [st [v | ] [a | ] [c | ] [ | ] vi ai vf af vq aq rp si];
    unfold close; unfold_m; cbn;
    try destruct (has_flag (of_flags (oformat c)) AVFMT_NOFILE);
    cbn; eexists; reflexivity.
Qed.

Lemma close_invariant s s' evs :
  session_invariant s ->
  close s = Ok tt s' evs ->
  session_invariant s'.
Proof.
  intros [Hord Hready] H.
  destruct (close_state s) as [evs' H']. rewrite H' in H. inversion H; subst.
  split; [ | exact Hready ].
  revert Hord. apply streams_in_order_ext; try reflexivity.
  cbn. discriminate.
Qed.

Section Runs.

Variable getHeaderLength : list byte -> Z.

Lemma onFrame_invariant env frame s s' evs :
  session_invariant s ->
  onFrame getHeaderLength env frame s = Ok tt s' evs ->
  session_invariant s'.
Proof.
  intros [Hord Hready] H. split.
  - eapply onFrame_streams_in_order; eauto.
  - apply onFrame_effect in H.
    destruct H as (_ & Hst & _ & _ & _ & Hv & Ha).
    intros Hr. destruct Hst as [Hst | Hst]; [ | congruence ].
    rewrite Hst in Hr. destruct (Hready Hr) as [Sv Sa].
    rewrite (Hv Sv), (Ha Sa). auto.
Qed.

Lemma call_invariant c s s' evs :
  session_invariant s ->
  call getHeaderLength c s = Ok tt s' evs ->
  session_invariant s'.
Proof.
  destruct c as [env frame | env | ]; cbn [call].
  - apply onFrame_invariant.
  - apply onTimeout_invariant.
  - apply close_invariant.
Qed.

Lemma run_cons c cs s s' evs :
  run getHeaderLength (c :: cs) s = Ok tt s' evs ->
  exists s1 evs1 evs2,
    call getHeaderLength c s = Ok tt s1 evs1 /\
    run getHeaderLength cs s1 = Ok tt s' evs2 /\
    evs = evs1 ++ evs2.
Proof.
  cbn [run]. intros H. apply bind_Ok_inv in H.
  destruct H as ([] & s1 & evs1 & evs2 & H1 & H2 & ->). eauto 6.
Qed.

Lemma run_invariant cs : forall s s' evs,
  session_invariant s ->
  run getHeaderLength cs s = Ok tt s' evs ->
  session_invariant s'.
Proof.
  induction cs as [ | c cs IH ]; intros s s' evs Hinv H.
  - cbn in H. unfold ret in H. inversion H; subst. exact Hinv.
  - apply run_cons in H. destruct H as (s1 & evs1 & evs2 & Hc & Hr & _).
    eapply IH; [ | exact Hr ]. eapply call_invariant; eauto.
Qed.

Lemma new_invariant recordUrl snapshotInterval guessed :
  session_invariant (MediaFileOut_new recordUrl snapshotInterval guessed).
Proof.
  split.
  - unfold streams_in_order. cbn. intros c H. inversion H. reflexivity.
  - cbn. discriminate.
Qed.

Lemma reachable_invariant s :
  reachable getHeaderLength s -> session_invariant s.
Proof.
  intros (recordUrl & snapshotInterval & guessed & cs & evs & H).
  eapply run_invariant; [ apply new_invariant | exact H ].
Qed.

End Runs.

(** ** Frame ingestion: discarded and accepted frames *)

Section IngestionProperties.

Variable getHeaderLength : list byte -> Z.

(** C7. For every frame of any format, [onFrame] on a session in the
    terminal error state is a no-op: the call returns the session it was
    given (no frame is put on either queue, no stream is created, the
    status stays as it is) and makes no call to the outside. *)
Theorem onFrame_in_error_state_is_noop env frame s :
  m_status s = Context_ERROR ->
  onFrame getHeaderLength env frame s = Ok tt s [].
Proof.
  intros H. unfold onFrame. unfold_m. cbn. rewrite H. reflexivity.
Qed.

(** C1. Once the stream of a media kind exists (its codec was fixed by
    the first frame of that kind), [onFrame] with a frame of the same
    kind that asks for another codec leaves the session in the terminal
    error state, puts the frame on no queue, and changes nothing but the
    status: the stream descriptors, with their codec id, geometry and
    audio parameters, and the container context are as they were. *)
Theorem onFrame_codec_mismatch env frame s k st :
  frame_kind (f_format frame) = Some k ->
  stream_of k s = Some st ->
  codec_id (codec st) <> frame_codec k (f_format frame) ->
  exists s',
    onFrame getHeaderLength env frame s = Ok tt s' [] /\
    m_status s' = Context_ERROR /\
    m_videoQueue s' = m_videoQueue s /\
    m_audioQueue s' = m_audioQueue s /\
    stream_of k s' = Some st /\
    m_videoStream s' = m_videoStream s /\
    m_audioStream s' = m_audioStream s /\
    m_context s' = m_context s /\
    s' = set_status Context_ERROR s.
Proof.
  intros Hk Hs Hne. exists (set_status Context_ERROR s).
  split; [ | destruct k; cbn in *; repeat split; auto ].
  apply AVCodecID_eqb_neq in Hne.
  destruct s as [status [v | ] [a | ] cx tr vi ai vf af vq aq rp si].
  all: unfold frame_kind in Hk.
  all: destruct k; cbn in Hs; try discriminate Hs; inversion Hs; subst.
  all: destruct (f_format frame) eqn:Hf; cbn in Hk; try discriminate Hk.
  all: cbn in Hne; unfold onFrame; unfold_m.
  all: destruct status; cbn; rewrite ?Hf; cbn; rewrite ?Hne; reflexivity.
Qed.

(** Byte [i] of the [n] bytes kept from offset [h] is byte [h + i] of
    the buffer. *)
Lemma stripped_payload_nth (payload : list byte) (h n : nat) :
  forall i d, (i < n)%nat ->
    nth i (firstn n (skipn h payload)) d = nth (h + i) payload d.
Proof.
  intros i d Hi. rewrite nth_firstn.
  apply Nat.ltb_lt in Hi. rewrite Hi. apply nth_skipn.
Qed.

(** C5. An audio frame that reaches the enqueue step (the session is
    neither in the error state nor closed, and the frame's codec is the
    one of the audio stream, if there is one), with payload length [L]
    and RTP header length [H] computed from the payload: when the frame
    is flagged as an RTP packet, [onFrame] asserts [H <= L], and the
    frame it appends to the audio queue has size [L - H] and holds the
    [L - H] bytes that start at offset [H] of the payload; a frame that
    is not flagged is appended with its payload and length as they
    are. *)
Theorem onFrame_audio_rtp_strip env frame s :
  is_audio_format (f_format frame) = true ->
  m_status s <> Context_ERROR ->
  m_context s <> None ->
  (forall a, m_audioStream s = Some a ->
             codec_id (codec a) = frameFormat2AudioCodecID (f_format frame)) ->
  let payload := f_payload frame in
  let L := f_length frame in
  let H := getHeaderLength payload in
  (isRtpPacket (audio (f_additionalInfo frame)) = true -> H <= L ->
   exists s' entry,
     onFrame getHeaderLength env frame s = Ok tt s' [] /\
     m_audioQueue s' = m_audioQueue s ++ [entry] /\
     m_timeStamp entry = now env /\
     m_payloadSize entry = L - H /\
     m_payloadData entry = firstn (Z.to_nat (L - H)) (skipn (Z.to_nat H) payload) /\
     (forall i d, (i < Z.to_nat (L - H))%nat ->
        nth i (m_payloadData entry) d = nth (Z.to_nat H + i) payload d))
  /\ (isRtpPacket (audio (f_additionalInfo frame)) = true -> L < H ->
      onFrame getHeaderLength env frame s = Crash AssertionFailed)
  /\ (isRtpPacket (audio (f_additionalInfo frame)) = false ->
      exists s',
        onFrame getHeaderLength env frame s = Ok tt s' [] /\
        m_audioQueue s' =
          m_audioQueue s ++
          [ {| m_timeStamp := now env;
               m_payloadData := firstn (Z.to_nat L) payload;
               m_payloadSize := L |} ]).
Proof.
  intros Hf Hst Hcx Hcodec payload L H.
  destruct s as [status vs as_ [c | ] tr vi ai vf af vq aq rp si];
    cbn in Hst, Hcx, Hcodec; [ | congruence ].
  assert (Hm : forall a, as_ = Some a ->
             negb (AVCodecID_eqb (codec_id (codec a))
                     (frameFormat2AudioCodecID (f_format frame))) = false).
  { intros a Ha. rewrite (Hcodec a Ha).
    apply negb_false_iff, AVCodecID_eqb_eq. reflexivity. }
  repeat split.
  - intros Hrtp Hle. apply Z.leb_le in Hle. fold payload L H in Hle.
    unfold_onFrame. cbn. fold payload L H. rewrite Hrtp, Hle.
    destruct status; [ | | congruence ];
      destruct (f_format frame); try discriminate Hf;
      destruct vs as [v | ], as_ as [a | ]; cbn;
      try (pose proof (Hm a eq_refl) as Hma; cbn in Hma; rewrite Hma);
      try destruct (new_stream_ok env); cbn;
      do 2 eexists; (split; [ reflexivity | ]);
      (split; [ unfold pushFrame; reflexivity | ]);
      cbn; repeat (split; [ reflexivity | ]);
      apply stripped_payload_nth.
  - intros Hrtp Hlt. apply Z.leb_gt in Hlt. fold payload L H in Hlt.
    unfold_onFrame. cbn. fold payload L H. rewrite Hrtp, Hlt.
    destruct status; [ | | congruence ];
      destruct (f_format frame); try discriminate Hf;
      destruct vs as [v | ], as_ as [a | ]; cbn;
      try (pose proof (Hm a eq_refl) as Hma; cbn in Hma; rewrite Hma);
      try destruct (new_stream_ok env); cbn;
      reflexivity.
  - intros Hrtp.
    unfold_onFrame. cbn. fold payload L H. rewrite Hrtp.
    destruct status; [ | | congruence ];
      destruct (f_format frame); try discriminate Hf;
      destruct vs as [v | ], as_ as [a | ]; cbn;
      try (pose proof (Hm a eq_refl) as Hma; cbn in Hma; rewrite Hma);
      try destruct (new_stream_ok env); cbn;
      eexists; split; reflexivity.
Qed.

End IngestionProperties.

(** ** The timer tick: error state and header *)

Lemma header_writes_app evs1 evs2 :
  header_writes (evs1 ++ evs2) = (header_writes evs1 + header_writes evs2)%nat.
Proof. unfold header_writes. rewrite filter_app, length_app. reflexivity. Qed.

Lemma header_writes_packets {A} (f : A -> AVPacket) (q : list A) :
  header_writes (map (fun ef => EvWriteFrame (f ef)) q) = 0%nat.
Proof. induction q; [ reflexivity | exact IHq ]. Qed.

Lemma header_writes_queued s : header_writes (queued_packets s) = 0%nat.
Proof.
  unfold queued_packets. rewrite header_writes_app, !header_writes_packets.
  reflexivity.
Qed.

Lemma header_writes_open c : header_writes (open_events c) = 0%nat.
Proof. unfold open_events. destruct (needs_file c); reflexivity. Qed.

Lemma not_header_in_queued ok s : ~ In (EvWriteHeader ok) (queued_packets s).
Proof.
  unfold queued_packets. intros H. apply in_app_or in H.
  destruct H as [H | H]; apply in_map_iff in H;
    destruct H as (ef & Hef & _); discriminate.
Qed.

Lemma not_header_in_open ok c : ~ In (EvWriteHeader ok) (open_events c).
Proof.
  unfold open_events. destruct (needs_file c); cbn; intros H.
  - destruct H as [H | []]. discriminate.
  - exact H.
Qed.

Lemma close_header_writes s s' evs :
  close s = Ok tt s' evs -> header_writes evs = 0%nat /\ m_status s' = m_status s.
Proof.
  destruct s as [st [v | ] [a | ] [c | ] [ | ] vi ai vf af vq aq rp si];
    unfold close; unfold_m; cbn;
    try destruct (has_flag (of_flags (oformat c)) AVFMT_NOFILE);
    cbn; intros H; inversion H; subst; split; reflexivity.
Qed.

(** A tick attempts the header at most once, and only out of
    [Context_EMPTY], which it then leaves. *)
Lemma onTimeout_header_writes env s s' evs :
  onTimeout env s = Ok tt s' evs ->
  (header_writes evs = 0%nat /\ m_status s' = m_status s)
  \/ (header_writes evs <= 1 /\ m_status s = Context_EMPTY /\
      m_status s' <> Context_EMPTY)%nat.
Proof.
  intros H. apply onTimeout_cases in H.
  destruct H as [ (Hst & -> & ->) | [ (Hst & -> & ->) | [ (Hst & _ & -> & ->) | H ] ] ].
  - left. split; reflexivity.
  - left. split; [ apply header_writes_queued | reflexivity ].
  - left. split; reflexivity.
  - right. destruct H as (a & v & c & Hst & Ha & Hv & Hc & H).
    destruct (sink_opened_fields c s Hc) as (_ & _ & Es & _).
    destruct H as [ (_ & _ & -> & ->) | [ (_ & _ & -> & ->) | (_ & _ & -> & ->) ] ].
    + repeat split; auto. cbn. discriminate.
    + repeat split; auto; [ | cbn; discriminate ].
      rewrite header_writes_app, header_writes_open. cbn. lia.
    + repeat split; auto; [ | cbn; discriminate ].
      rewrite !header_writes_app, header_writes_open, header_writes_queued.
      cbn. lia.
Qed.

Section HeaderOnce.

Variable getHeaderLength : list byte -> Z.

Lemma call_header_writes c s s' evs :
  call getHeaderLength c s = Ok tt s' evs ->
  (header_writes evs = 0%nat /\
   (m_status s <> Context_EMPTY -> m_status s' <> Context_EMPTY))
  \/ (header_writes evs <= 1 /\ m_status s = Context_EMPTY /\
      m_status s' <> Context_EMPTY)%nat.
Proof.
  destruct c as [env frame | env | ]; cbn [call]; intros H.
  - apply onFrame_effect in H. destruct H as (-> & Hst & _).
    left. split; [ reflexivity | ].
    destruct Hst as [-> | ->]; [ auto | discriminate ].
  - apply onTimeout_header_writes in H.
    destruct H as [ [H0 Hst] | H ]; [ left | right; exact H ].
    split; [ exact H0 | rewrite Hst; auto ].
  - apply close_header_writes in H. destruct H as [H0 Hst].
    left. split; [ exact H0 | rewrite Hst; auto ].
Qed.

Lemma run_header_writes cs : forall s s' evs,
  run getHeaderLength cs s = Ok tt s' evs ->
  (header_writes evs <= 1)%nat /\
  (m_status s <> Context_EMPTY ->
   header_writes evs = 0%nat /\ m_status s' <> Context_EMPTY).
Proof.
  induction cs as [ | c cs IH ]; intros s s' evs H.
  - cbn in H. unfold ret in H. inversion H; subst. cbn. auto.
  - apply run_cons in H. destruct H as (s1 & evs1 & evs2 & Hc & Hr & ->).
    apply call_header_writes in Hc. apply IH in Hr. destruct Hr as [Hle Hne].
    rewrite header_writes_app.
    destruct Hc as [ [H0 Hst] | (H1 & Hst & Hst1) ].
    + rewrite H0. split; [ exact Hle | ].
      intros Hs. apply Hne. auto.
    + destruct (Hne Hst1) as [H0 Hst']. rewrite H0. split; [ lia | ].
      intros Hs. contradiction.
Qed.

(** No call leaves the error state. *)
Lemma call_error_is_terminal c s s' evs :
  m_status s = Context_ERROR ->
  call getHeaderLength c s = Ok tt s' evs ->
  m_status s' = Context_ERROR.
Proof.
  intros Hst. destruct c as [env frame | env | ]; cbn [call]; intros H.
  - apply onFrame_effect in H. destruct H as (_ & [H | H] & _); congruence.
  - apply onTimeout_header_writes in H.
    destruct H as [ [_ H] | (_ & H & _) ]; congruence.
  - apply close_header_writes in H. destruct H as [_ H]. congruence.
Qed.

Lemma run_error_is_terminal cs : forall s s' evs,
  m_status s = Context_ERROR ->
  run getHeaderLength cs s = Ok tt s' evs ->
  m_status s' = Context_ERROR.
Proof.
  induction cs as [ | c cs IH ]; intros s s' evs Hst H.
  - cbn in H. unfold ret in H. inversion H; subst. exact Hst.
  - apply run_cons in H. destruct H as (s1 & evs1 & evs2 & Hc & Hr & _).
    eapply IH; [ | exact Hr ]. eapply call_error_is_terminal; eauto.
Qed.

(** C8. A timer tick that starts in the terminal error state makes
    exactly one call to the outside, the fatal notification to the event
    registry; it writes no packet, leaves both queues as they are, and
    returns the session unchanged, still in the error state.  There is
    no way back: whatever calls follow, the session stays in the error
    state. *)
Theorem onTimeout_in_error_state env s :
  m_status s = Context_ERROR ->
  onTimeout env s =
    Ok tt s [EvNotify "RecordingStream" "context initialization failed"]
  /\ (forall cs s' evs,
        run getHeaderLength cs s = Ok tt s' evs -> m_status s' = Context_ERROR).
Proof.
  intros H. split.
  - unfold onTimeout. unfold_m. cbn. rewrite H. reflexivity.
  - intros cs s' evs Hrun. eapply run_error_is_terminal; eauto.
Qed.

(** C2. In every run of calls on a session (timer ticks, with frames and
    teardown in between), the container header is written at most once;
    a tick attempts the header write only when it starts with the video
    stream and the audio stream both present, in [Context_EMPTY]; and
    the tick whose header write succeeds sets the trailer-needed flag
    and ends in [Context_READY]. *)
Theorem header_written_at_most_once :
  (forall cs s s' evs,
     run getHeaderLength cs s = Ok tt s' evs -> (header_writes evs <= 1)%nat)
  /\ (forall env s s' evs ok,
        onTimeout env s = Ok tt s' evs ->
        In (EvWriteHeader ok) evs ->
        is_some (m_videoStream s) = true /\
        is_some (m_audioStream s) = true /\
        m_status s = Context_EMPTY /\
        (ok = true ->
         m_avTrailerNeeded s' = true /\ m_status s' = Context_READY)).
Proof.
  split.
  - intros cs s s' evs H. apply run_header_writes in H. tauto.
  - intros env s s' evs ok H Hin. apply onTimeout_cases in H.
    destruct H as [ (Hst & -> & ->) | [ (Hst & -> & ->) | [ (Hst & _ & -> & ->) | H ] ] ].
    + destruct Hin as [Hin | []]. discriminate.
    + exfalso. eapply not_header_in_queued; eauto.
    + destruct Hin.
    + destruct H as (a & v & c & Hst & Ha & Hv & Hc & H).
      rewrite Ha, Hv. repeat split; auto.
      * destruct H as [ (_ & _ & -> & ->) | [ (_ & _ & -> & ->) | (_ & _ & -> & ->) ] ];
          [ | | reflexivity ]; exfalso; subst ok.
        -- destruct Hin as [Hin | [Hin | []]]; discriminate.
        -- apply in_app_or in Hin. destruct Hin as [Hin | Hin].
           ++ eapply not_header_in_open; eauto.
           ++ destruct Hin as [Hin | [Hin | [Hin | []]]]; discriminate.
      * destruct H as [ (_ & _ & -> & ->) | [ (_ & _ & -> & ->) | (_ & _ & -> & ->) ] ];
          [ | | reflexivity ]; exfalso; subst ok.
        -- destruct Hin as [Hin | [Hin | []]]; discriminate.
        -- apply in_app_or in Hin. destruct Hin as [Hin | Hin].
           ++ eapply not_header_in_open; eauto.
           ++ destruct Hin as [Hin | [Hin | [Hin | []]]]; discriminate.
Qed.

End HeaderOnce.

(** ** Video first *)

Section VideoFirst.

Variable getHeaderLength : list byte -> Z.

(** C6. On a session without a video stream, [onFrame] with an audio
    frame creates no audio stream: the audio stream, the video stream
    and the container context are what they were.  Consequently, in
    every reachable session, where there is an audio stream there is a
    video stream, and it was created first: it has the smaller index. *)
Theorem audio_stream_needs_video :
  (forall env frame s s' evs,
     m_videoStream s = None ->
     is_audio_format (f_format frame) = true ->
     onFrame getHeaderLength env frame s = Ok tt s' evs ->
     m_audioStream s' = m_audioStream s /\
     m_videoStream s' = None /\
     m_context s' = m_context s)
  /\ (forall s a,
        reachable getHeaderLength s ->
        m_audioStream s = Some a ->
        exists v, m_videoStream s = Some v /\ index v < index a).
Proof.
  split.
  - intros env frame s s' evs Hv Hf.
    destruct s as [st vs [a | ] cx tr vi ai vf af vq aq rp si];
      cbn in Hv; subst vs;
      unfold_onFrame; cbn; intros H;
      break_tests H; try discriminate Hf; inversion H; subst; cbn; auto.
  - intros s a Hr Ha. apply reachable_invariant in Hr. destruct Hr as [Hord _].
    unfold streams_in_order in Hord. rewrite Ha in Hord.
    destruct (m_videoStream s) as [v | ]; [ | contradiction ].
    destruct Hord as (Hv & Hi & _). exists v. split; [ reflexivity | lia ].
Qed.

(** ** Audio that arrives before video *)

Lemma run_app cs1 : forall cs2 s s' evs,
  run getHeaderLength (cs1 ++ cs2) s = Ok tt s' evs ->
  exists s1 evs1 evs2,
    run getHeaderLength cs1 s = Ok tt s1 evs1 /\
    run getHeaderLength cs2 s1 = Ok tt s' evs2 /\
    evs = evs1 ++ evs2.
Proof.
  induction cs1 as [ | c cs1 IH ]; intros cs2 s s' evs H.
  - exists s, [], evs. auto.
  - rewrite <- app_comm_cons in H. apply run_cons in H.
    destruct H as (s1 & e1 & e2 & Hc & Hr & ->).
    apply IH in Hr. destruct Hr as (s2 & e3 & e4 & Hr1 & Hr2 & ->).
    exists s2, (e1 ++ e3), e4. repeat split; auto.
    + cbn [run]. rewrite (bind_Ok _ _ _ _ _ _ Hc), Hr1. reflexivity.
    + apply app_assoc.
Qed.

Lemma in_queued_packets e s :
  In e (m_audioQueue s) -> In (EvWriteFrame (audio_packet e)) (queued_packets s).
Proof.
  intros H. unfold queued_packets. apply in_or_app. left.
  apply in_map_iff. exists e. auto.
Qed.

(** A queued audio frame stays queued until a tick writes it. *)
Lemma call_keeps_audio e c s s' evs :
  call getHeaderLength c s = Ok tt s' evs ->
  In e (m_audioQueue s) ->
  In e (m_audioQueue s') \/ In (EvWriteFrame (audio_packet e)) evs.
Proof.
  destruct c as [env frame | env | ]; cbn [call]; intros H Hin.
  - apply onFrame_effect in H. destruct H as (_ & _ & _ & [more Hq] & _).
    left. rewrite Hq. apply in_or_app. auto.
  - apply onTimeout_cases in H.
    destruct H as [ (_ & -> & _) | [ (_ & _ & ->) | [ (_ & _ & -> & _) | H ] ] ]; auto.
    + right. apply in_queued_packets, Hin.
    + destruct H as (a & v & c & _ & _ & _ & Hc & H).
      destruct (sink_opened_fields c s Hc) as (_ & _ & _ & Eq & _).
      destruct H as [ (_ & _ & -> & _) | [ (_ & _ & -> & _) | (_ & _ & _ & ->) ] ].
      * left. exact Hin.
      * left. cbn. rewrite Eq. exact Hin.
      * right. apply in_or_app. right. apply in_or_app. right.
        apply in_queued_packets, Hin.
  - destruct (close_state s) as [evs' H']. rewrite H' in H. inversion H; subst.
    left. exact Hin.
Qed.

Lemma run_keeps_audio e cs : forall s s' evs,
  run getHeaderLength cs s = Ok tt s' evs ->
  In e (m_audioQueue s) ->
  In e (m_audioQueue s') \/ In (EvWriteFrame (audio_packet e)) evs.
Proof.
  induction cs as [ | c cs IH ]; intros s s' evs H Hin.
  - cbn in H. unfold ret in H. inversion H; subst. auto.
  - apply run_cons in H. destruct H as (s1 & evs1 & evs2 & Hc & Hr & ->).
    destruct (call_keeps_audio e _ _ _ _ Hc Hin) as [Hin1 | Hw].
    + destruct (IH _ _ _ Hr Hin1) as [Hin2 | Hw]; auto.
      right. apply in_or_app. auto.
    + right. apply in_or_app. auto.
Qed.

(** A tick that ends in [Context_READY] has written every audio frame
    that was queued when it started. *)
Lemma onTimeout_ready_writes env s s' evs e :
  onTimeout env s = Ok tt s' evs ->
  m_status s' = Context_READY ->
  In e (m_audioQueue s) ->
  In (EvWriteFrame (audio_packet e)) evs.
Proof.
  intros H Hready Hin. apply onTimeout_cases in H.
  destruct H as [ (Hst & -> & _) | [ (_ & _ & ->) | [ (Hst & _ & -> & _) | H ] ] ];
    try congruence.
  - apply in_queued_packets, Hin.
  - destruct H as (a & v & c & _ & _ & _ & Hc & H).
    destruct H as [ (_ & _ & -> & _) | [ (_ & _ & -> & _) | (_ & _ & _ & ->) ] ];
      try (cbn in Hready; discriminate).
    apply in_or_app. right. apply in_or_app. right.
    apply in_queued_packets, Hin.
Qed.

End VideoFirst.

(** ** The container writer *)

Section Writer.

Variable getHeaderLength : list byte -> Z.


End Writer.

(** ** Teardown *)

(** Of a second [close], the parts that hold on every session: it leaves
    the session as the first call left it, writes no trailer, closes no
    sink and releases no container context. *)
Lemma close_twice_no_second_trailer s s1 evs1 s2 evs2 :
  close s = Ok tt s1 evs1 ->
  close s1 = Ok tt s2 evs2 ->
  s2 = s1 /\ ~ In EvWriteTrailer evs2 /\ ~ In EvAvioClose evs2 /\
  ~ In EvFreeContext evs2.
Proof.
  destruct s as [st [v | ] [a | ] [c | ] [ | ] vi ai vf af vq aq rp si];
    unfold close; unfold_m; cbn;
    try destruct (has_flag (of_flags (oformat c)) AVFMT_NOFILE);
    cbn; intros H1; inversion H1; subst; cbn; intros H2; inversion H2; subst;
    repeat split; cbn; intuition discriminate.
Qed.

(** On a session that never got a stream, the second [close] stops the
    timer again and does nothing else. *)
Lemma close_twice_without_streams s s1 evs1 :
  m_videoStream s = None ->
  m_audioStream s = None ->
  close s = Ok tt s1 evs1 ->
  close s1 = Ok tt s1 [EvTimerStop].
Proof.
  destruct s as [st vs as_ [c | ] [ | ] vi ai vf af vq aq rp si];
    cbn; intros -> ->;
    unfold close; unfold_m; cbn;
    try destruct (has_flag (of_flags (oformat c)) AVFMT_NOFILE);
    cbn; intros H1; inversion H1; subst; reflexivity.
Qed.

(** Where a stream was created, the second [close] closes its codec
    again, after the first call released the container context that owns
    the stream. *)
Lemma close_twice_closes_streams_again s s1 evs1 st :
  m_videoStream s = Some st \/ m_audioStream s = Some st ->
  m_context s <> None ->
  close s = Ok tt s1 evs1 ->
  exists evs2,
    close s1 = Ok tt s1 evs2 /\
    In (EvAvcodecClose (codec st)) evs1 /\ In EvFreeContext evs1 /\
    In (EvAvcodecClose (codec st)) evs2.
Proof.
  destruct s as [status [v | ] [a | ] [c | ] [ | ] vi ai vf af vq aq rp si];
    cbn; intros Hs Hc; try congruence;
    destruct Hs as [Hs | Hs]; inversion Hs; subst;
    unfold close; unfold_m; cbn;
    destruct (has_flag (of_flags (oformat c)) AVFMT_NOFILE);
    cbn; intros H1; inversion H1; subst; cbn;
    eexists; (split; [ reflexivity | cbn; intuition auto ]).
Qed.

(** C4 fails on the code.  A session that received one video frame and
    is closed twice: the first [close] closes the codec of the video
    stream and frees the container context, and the second [close],
    finding [m_videoStream] still set, closes that codec again. *)
Theorem close_twice_closes_codec_again :
  exists s1 evs1 cc,
    run rtpHeaderLength [CallFrame sample_env vp8_frame; CallClose] sample_session
      = Ok tt s1 evs1 /\
    evs1 = [EvTimerStop; EvAvcodecClose cc; EvAvioClose; EvFreeContext] /\
    m_context s1 = None /\
    close s1 = Ok tt s1 [EvTimerStop; EvAvcodecClose cc].
Proof.
  do 3 eexists. split; [ vm_compute; reflexivity | ].
  repeat split.
Qed.

(** ** The slot adapter *)

Section SlotAdapter.

Import FakedVideoFrameDecoder.

Lemma invoke_all_pushes d ms : forall mid,
  invoke_all d ms = Some mid ->
  count (is_activate (m_slot d)) mid = 0%nat /\
  count (is_deactivate (m_slot d)) mid = 0%nat /\
  (existsb is_onFrame ms = false -> mid = []).
Proof.
  unfold count.
  induction ms as [ | m ms IH ]; intros mid H.
  - cbn in H. inversion H; subst. auto.
  - cbn [invoke_all] in H.
    destruct (invoke d m) as [evs | ] eqn:Hm; [ | discriminate H ].
    destruct (invoke_all d ms) as [evs' | ]; [ | discriminate H ].
    inversion H; subst; clear H.
    destruct (IH evs' eq_refl) as (Ia & Id & Hn).
    rewrite !filter_app, !length_app, Ia, Id.
    destruct m as [format | | format payload len ts]; cbn in Hm.
    + destruct (setInput d format); inversion Hm; subst. cbn. auto.
    + inversion Hm; subst. cbn. auto.
    + unfold FakedVideoFrameDecoder.onFrame in Hm.
      destruct (FrameFormat_eqb format FRAME_FORMAT_I420); inversion Hm; subst.
      cbn. repeat split; auto. discriminate.
Qed.

(** C9. An adapter constructed on slot [slot] and destroyed at once
    calls exactly [activateInput slot] and then [deActivateInput slot]
    on the compositor.  Over any lifetime (construction, member calls,
    destruction) [activateInput slot] is called exactly once, first, and
    [deActivateInput slot] exactly once, last; and when [onFrame] is not
    among the member calls there is no [pushInput] between them. *)
Theorem slot_adapter_activates_and_deactivates_once slot :
  lifetime slot [] = Some [activateInput slot; deActivateInput slot]
  /\ forall ms evs,
       lifetime slot ms = Some evs ->
       (exists mid, evs = activateInput slot :: mid ++ [deActivateInput slot]) /\
       count (is_activate slot) evs = 1%nat /\
       count (is_deactivate slot) evs = 1%nat /\
       (existsb is_onFrame ms = false ->
        evs = [activateInput slot; deActivateInput slot] /\
        count is_push evs = 0%nat).
Proof.
  split; [ reflexivity | ].
  intros ms evs H. unfold lifetime in H. cbn in H.
  destruct (invoke_all {| m_slot := slot |} ms) as [mid | ] eqn:Hmid;
    [ | discriminate H ].
  inversion H; subst; clear H.
  apply invoke_all_pushes in Hmid. cbn [m_slot] in Hmid.
  destruct Hmid as (Ia & Id & Hn). unfold count in *.
  split; [ exists mid; reflexivity | ].
  unfold delete. cbn [m_slot app].
  split; [ | split ].
  - cbn [filter is_activate]. rewrite Z.eqb_refl. cbn [List.length].
    rewrite filter_app, length_app, Ia. reflexivity.
  - cbn [filter is_deactivate].
    rewrite filter_app, length_app, Id. cbn. rewrite Z.eqb_refl. reflexivity.
  - intros Hno. rewrite (Hn Hno). split; reflexivity.
Qed.

End SlotAdapter.

(** ** The statements at concrete sessions and frames *)

Lemma sample_session_reachable : reachable rtpHeaderLength sample_session.
Proof.
  exists "/tmp/room.mkv"%string, 0, sample_format, [], []. reflexivity.
Defined.

Lemma recording_session_reachable : reachable rtpHeaderLength recording_session.
Proof.
  exists "/tmp/room.mkv"%string, 0, sample_format, recording_calls, [].
  vm_compute. reflexivity.
Defined.

Lemma onFrame_in_error_state_is_noop_witness :
  m_status failed_session = Context_ERROR /\
  onFrame rtpHeaderLength sample_env vp8_frame failed_session
    = Ok tt failed_session [].
Proof.
  split; [ reflexivity | ].
  apply (onFrame_in_error_state_is_noop rtpHeaderLength sample_env vp8_frame
           failed_session).
  reflexivity.
Defined.

Lemma onTimeout_in_error_state_witness :
  m_status failed_session = Context_ERROR /\
  onTimeout sample_tick failed_session =
    Ok tt failed_session [EvNotify "RecordingStream" "context initialization failed"] /\
  exists s',
    run rtpHeaderLength
        (recording_calls ++ [CallTick sample_tick; CallFrame sample_env vp8_frame;
                             CallTick sample_tick])
        failed_session
    = Ok tt s' [EvNotify "RecordingStream" "context initialization failed";
                EvNotify "RecordingStream" "context initialization failed"] /\
    m_status s' = Context_ERROR.
Proof.
  assert (Hst : m_status failed_session = Context_ERROR) by reflexivity.
  destruct (onTimeout_in_error_state rtpHeaderLength sample_tick failed_session Hst)
    as [Htick Hlater].
  split; [ exact Hst | ]. split; [ exact Htick | ].
  eexists.
  assert (Hrun : run rtpHeaderLength
                   (recording_calls ++ [CallTick sample_tick;
                                        CallFrame sample_env vp8_frame;
                                        CallTick sample_tick])
                   failed_session
                 = Ok tt _ [EvNotify "RecordingStream" "context initialization failed";
                            EvNotify "RecordingStream" "context initialization failed"])
    by (vm_compute; reflexivity).
  split; [ exact Hrun | exact (Hlater _ _ _ Hrun) ].
Defined.

Lemma onFrame_codec_mismatch_witness :
  exists st,
    frame_kind (f_format h264_frame) = Some AVMEDIA_TYPE_VIDEO /\
    stream_of AVMEDIA_TYPE_VIDEO recording_session = Some st /\
    codec_id (codec st) <> frame_codec AVMEDIA_TYPE_VIDEO (f_format h264_frame) /\
    exists s',
      onFrame rtpHeaderLength sample_env h264_frame recording_session = Ok tt s' [] /\
      m_status s' = Context_ERROR /\
      m_videoQueue s' = m_videoQueue recording_session /\
      m_videoStream s' = m_videoStream recording_session.
Proof.
  eexists.
  assert (Hk : frame_kind (f_format h264_frame) = Some AVMEDIA_TYPE_VIDEO)
    by reflexivity.
  assert (Hs : stream_of AVMEDIA_TYPE_VIDEO recording_session = Some _)
    by reflexivity.
  assert (Hne : AV_CODEC_ID_VP8 <> frame_codec AVMEDIA_TYPE_VIDEO (f_format h264_frame))
    by (vm_compute; discriminate).
  split; [ exact Hk | ]. split; [ exact Hs | ]. split; [ exact Hne | ].
  destruct (onFrame_codec_mismatch rtpHeaderLength sample_env h264_frame
              recording_session AVMEDIA_TYPE_VIDEO _ Hk Hs Hne)
    as (s' & H1 & H2 & H3 & _ & _ & H4 & _).
  exists s'. auto.
Defined.

Lemma onFrame_audio_rtp_strip_witness :
  is_audio_format (f_format opus_rtp_frame) = true /\
  m_status sample_session <> Context_ERROR /\
  m_context sample_session <> None /\
  isRtpPacket (audio (f_additionalInfo opus_rtp_frame)) = true /\
  rtpHeaderLength (f_payload opus_rtp_frame) = 12 /\
  f_length opus_rtp_frame = 15 /\
  exists s',
    onFrame rtpHeaderLength sample_env opus_rtp_frame sample_session = Ok tt s' [] /\
    m_audioQueue s' =
      [ {| m_timeStamp := 40; m_payloadData := [xaa; xbb; xcc]; m_payloadSize := 3 |} ].
Proof.
  assert (H1 : is_audio_format (f_format opus_rtp_frame) = true) by reflexivity.
  assert (H2 : m_status sample_session <> Context_ERROR) by (vm_compute; discriminate).
  assert (H3 : m_context sample_session <> None) by (vm_compute; discriminate).
  assert (H4 : forall a, m_audioStream sample_session = Some a ->
               codec_id (codec a) = frameFormat2AudioCodecID (f_format opus_rtp_frame))
    by (intros a Ha; vm_compute in Ha; discriminate Ha).
  repeat (split; [ first [ assumption | reflexivity ] | ]).
  destruct (onFrame_audio_rtp_strip rtpHeaderLength sample_env opus_rtp_frame
              sample_session H1 H2 H3 H4) as (Hstrip & _ & _).
  destruct Hstrip as (s' & entry & Hon & Hq & Hts & Hsz & Hdata & _);
    [ reflexivity | vm_compute; discriminate | ].
  exists s'. split; [ exact Hon | ].
  rewrite Hq. destruct entry as [ts data size]. cbn in Hts, Hsz, Hdata.
  rewrite Hts, Hsz, Hdata. reflexivity.
Defined.

Lemma header_written_at_most_once_witness :
  (exists s' evs,
     run rtpHeaderLength
         (recording_calls ++ [CallTick sample_tick; CallFrame sample_env vp8_frame;
                              CallTick sample_tick])
         sample_session = Ok tt s' evs /\
     (header_writes evs <= 1)%nat)
  /\ (exists s' evs,
        onTimeout sample_tick recording_session = Ok tt s' evs /\
        In (EvWriteHeader true) evs /\
        is_some (m_videoStream recording_session) = true /\
        is_some (m_audioStream recording_session) = true /\
        m_status recording_session = Context_EMPTY /\
        m_avTrailerNeeded s' = true /\ m_status s' = Context_READY).
Proof.
  destruct (header_written_at_most_once rtpHeaderLength) as [Hrun Htick].
  split.
  - do 2 eexists.
    assert (H : run rtpHeaderLength
                  (recording_calls ++ [CallTick sample_tick;
                                       CallFrame sample_env vp8_frame;
                                       CallTick sample_tick])
                  sample_session = Ok tt _ _) by (vm_compute; reflexivity).
    split; [ exact H | exact (Hrun _ _ _ _ H) ].
  - do 2 eexists.
    assert (H : onTimeout sample_tick recording_session = Ok tt _ _)
      by (vm_compute; reflexivity).
    assert (Hin : In (EvWriteHeader true)
                     [EvAvioOpen true; EvDumpFormat; EvWriteHeader true;
                      EvWriteFrame (audio_packet
                        {| m_timeStamp := 40; m_payloadData := [xaa; xbb; xcc];
                           m_payloadSize := 3 |});
                      EvWriteFrame (video_packet
                        {| m_timeStamp := 40; m_payloadData := [x9d; x01; x2a];
                           m_payloadSize := 3 |})])
      by (cbn; auto).
    destruct (Htick _ _ _ _ true H Hin) as (Hv & Ha & Hst & Hok).
    destruct (Hok eq_refl) as [Htr Hrd].
    split; [ exact H | ].
    split; [ exact Hin | ]. auto.
Defined.


Lemma audio_stream_needs_video_witness :
  (m_videoStream sample_session = None /\
   is_audio_format (f_format opus_rtp_frame) = true /\
   exists s',
     onFrame rtpHeaderLength sample_env opus_rtp_frame sample_session = Ok tt s' [] /\
     m_audioStream s' = None /\ m_videoStream s' = None)
  /\ (reachable rtpHeaderLength recording_session /\
      exists a v,
        m_audioStream recording_session = Some a /\
        m_videoStream recording_session = Some v /\
        index v < index a).
Proof.
  destruct (audio_stream_needs_video rtpHeaderLength) as [Hframe Hreach].
  split.
  - split; [ reflexivity | ]. split; [ reflexivity | ].
    eexists.
    assert (H : onFrame rtpHeaderLength sample_env opus_rtp_frame sample_session
                = Ok tt _ []) by (vm_compute; reflexivity).
    destruct (Hframe sample_env opus_rtp_frame sample_session _ _ eq_refl eq_refl H)
      as (Ha & Hv & _).
    split; [ exact H | ]. split; [ exact Ha | exact Hv ].
  - split; [ exact recording_session_reachable | ].
    assert (Ha : m_audioStream recording_session = Some _) by reflexivity.
    destruct (Hreach _ _ recording_session_reachable Ha) as (v & Hv & Hlt).
    eexists. exists v. split; [ exact Ha | ]. split; [ exact Hv | exact Hlt ].
Defined.

Lemma slot_adapter_activates_and_deactivates_once_witness :
  FakedVideoFrameDecoder.lifetime 3 []
    = Some [FakedVideoFrameDecoder.activateInput 3;
            FakedVideoFrameDecoder.deActivateInput 3]
  /\ FakedVideoFrameDecoder.lifetime 3
       [FakedVideoFrameDecoder.MSetInput FRAME_FORMAT_I420;
        FakedVideoFrameDecoder.MUnsetInput]
     = Some [FakedVideoFrameDecoder.activateInput 3;
             FakedVideoFrameDecoder.deActivateInput 3]
  /\ FakedVideoFrameDecoder.count (FakedVideoFrameDecoder.is_activate 3)
       [FakedVideoFrameDecoder.activateInput 3;
        FakedVideoFrameDecoder.deActivateInput 3] = 1%nat
  /\ FakedVideoFrameDecoder.count (FakedVideoFrameDecoder.is_deactivate 3)
       [FakedVideoFrameDecoder.activateInput 3;
        FakedVideoFrameDecoder.deActivateInput 3] = 1%nat
  /\ FakedVideoFrameDecoder.count FakedVideoFrameDecoder.is_push
       [FakedVideoFrameDecoder.activateInput 3;
        FakedVideoFrameDecoder.deActivateInput 3] = 0%nat.
Proof.
  destruct (slot_adapter_activates_and_deactivates_once 3) as [Hnow Hlife].
  split; [ exact Hnow | ].
  assert (H : FakedVideoFrameDecoder.lifetime 3
                [FakedVideoFrameDecoder.MSetInput FRAME_FORMAT_I420;
                 FakedVideoFrameDecoder.MUnsetInput]
              = Some [FakedVideoFrameDecoder.activateInput 3;
                      FakedVideoFrameDecoder.deActivateInput 3])
    by reflexivity.
  destruct (Hlife _ _ H) as (_ & Ha & Hd & Hno).
  destruct (Hno eq_refl) as [_ Hp].
  split; [ exact H | ]. split; [ exact Ha | ]. split; [ exact Hd | exact Hp ].
Defined.

(** * Further properties *)

(** ** Format flags *)

Lemma has_flag_variable_fps_set f :
  has_flag (Z.lor f AVFMT_VARIABLE_FPS) AVFMT_VARIABLE_FPS = true.
Proof.
  unfold has_flag. apply negb_true_iff, Z.eqb_neq. intros H.
  assert (Hb : Z.testbit (Z.land (Z.lor f AVFMT_VARIABLE_FPS) AVFMT_VARIABLE_FPS) 10
               = true).
  { rewrite Z.land_spec, Z.lor_spec.
    change (Z.testbit AVFMT_VARIABLE_FPS 10) with true.
    rewrite orb_true_r. reflexivity. }
  rewrite H, Z.bits_0 in Hb. discriminate Hb.
Qed.

Lemma has_flag_variable_fps_other f bit :
  Z.land AVFMT_VARIABLE_FPS bit = 0 ->
  has_flag (Z.lor f AVFMT_VARIABLE_FPS) bit = has_flag f bit.
Proof.
  intros H. unfold has_flag. rewrite Z.land_lor_distr_l, H, Z.lor_0_r. reflexivity.
Qed.

Lemma global_header_flags_mirror ctx :
  has_flag (global_header_flags ctx 0) CODEC_FLAG_GLOBAL_HEADER
  = has_flag (of_flags (oformat ctx)) AVFMT_GLOBALHEADER.
Proof.
  unfold global_header_flags.
  destruct (has_flag (of_flags (oformat ctx)) AVFMT_GLOBALHEADER); reflexivity.
Qed.

(** ** Frames that are turned away, and streams that are created *)

Section FrameCases.

Variable getHeaderLength : list byte -> Z.

(** A frame whose format is neither a video nor an audio codec the
    recorder knows moves a session that is not yet in the error state
    into it; nothing is queued and nothing else changes. *)
Theorem onFrame_unsupported_format env frame s :
  m_status s <> Context_ERROR ->
  frame_kind (f_format frame) = None ->
  onFrame getHeaderLength env frame s = Ok tt (set_status Context_ERROR s) [].
Proof.
  intros Hst Hk. unfold onFrame. unfold_m. cbn.
  destruct (m_status s); [ | | congruence ];
    destruct (f_format frame); try discriminate Hk; reflexivity.
Qed.

(** While there is no video stream, a video frame that carries no
    geometry (width or height not positive) is dropped: it is not
    queued, no stream is created, and the session is unchanged. *)
Theorem onFrame_video_without_geometry env frame s :
  is_video_format (f_format frame) = true ->
  m_videoStream s = None ->
  width (video (f_additionalInfo frame)) <= 0 \/
  height (video (f_additionalInfo frame)) <= 0 ->
  onFrame getHeaderLength env frame s = Ok tt s [].
Proof.
  intros Hf Hv Hg.
  assert (Hg' : (0 <? width (video (f_additionalInfo frame)))
                && (0 <? height (video (f_additionalInfo frame))) = false).
  { apply andb_false_iff. destruct Hg as [Hg | Hg]; [ left | right ];
      apply Z.ltb_ge; exact Hg. }
  unfold onFrame. unfold_m. cbn. rewrite Hv, Hg'.
  destruct (m_status s);
    destruct (f_format frame); try discriminate Hf; reflexivity.
Qed.

(** When the container refuses the video stream, the session enters the
    error state without a video stream, and the frame that asked for the
    stream is queued all the same. *)
Theorem onFrame_video_stream_allocation_fails env frame s c :
  m_status s <> Context_ERROR ->
  is_video_format (f_format frame) = true ->
  m_videoStream s = None ->
  m_context s = Some c ->
  0 < width (video (f_additionalInfo frame)) ->
  0 < height (video (f_additionalInfo frame)) ->
  new_stream_ok env = false ->
  exists s' c',
    onFrame getHeaderLength env frame s = Ok tt s' [] /\
    m_status s' = Context_ERROR /\
    m_videoStream s' = None /\
    m_audioStream s' = m_audioStream s /\
    m_videoFrameFormat s' = m_videoFrameFormat s /\
    m_context s' = Some c' /\ streams c' = streams c /\
    m_videoQueue s' =
      pushFrame (now env) (f_payload frame) (f_length frame) (m_videoQueue s) /\
    m_audioQueue s' = m_audioQueue s.
Proof.
  intros Hst Hf Hv Hc Hw Hh Hno.
  apply Z.ltb_lt in Hw. apply Z.ltb_lt in Hh.
  destruct s as [status vs as_ cx tr vi ai vf af vq aq rp si].
  cbn in Hst, Hv, Hc. subst vs cx.
  unfold_onFrame. cbn. rewrite Hw, Hh, Hno. cbn.
  destruct status; [ | | congruence ];
    destruct (f_format frame); try discriminate Hf; cbn;
    do 2 eexists; repeat split; reflexivity.
Qed.

(** The same for the audio stream: the session enters the error state
    without an audio stream, and the frame is queued all the same. *)
Theorem onFrame_audio_stream_allocation_fails env frame s v c :
  m_status s <> Context_ERROR ->
  is_audio_format (f_format frame) = true ->
  m_videoStream s = Some v ->
  m_audioStream s = None ->
  m_context s = Some c ->
  (isRtpPacket (audio (f_additionalInfo frame)) = true ->
   getHeaderLength (f_payload frame) <= f_length frame) ->
  new_stream_ok env = false ->
  exists s',
    onFrame getHeaderLength env frame s = Ok tt s' [] /\
    m_status s' = Context_ERROR /\
    m_audioStream s' = None /\
    m_videoStream s' = Some v /\
    m_audioFrameFormat s' = m_audioFrameFormat s /\
    m_context s' = Some c /\
    m_audioQueue s' = m_audioQueue s ++ [audio_entry getHeaderLength env frame] /\
    m_videoQueue s' = m_videoQueue s.
Proof.
  intros Hst Hf Hv Ha Hc Hassert Hno.
  destruct s as [status vs as_ cx tr vi ai vf af vq aq rp si].
  cbn in Hst, Hv, Ha, Hc. subst vs as_ cx.
  unfold audio_entry. unfold_onFrame. cbn. rewrite Hno. cbn.
  destruct (isRtpPacket (audio (f_additionalInfo frame))).
  - specialize (Hassert eq_refl). apply Z.leb_le in Hassert. rewrite Hassert.
    destruct status; [ | | congruence ];
      destruct (f_format frame); try discriminate Hf; cbn;
      eexists; repeat split; reflexivity.
  - destruct status; [ | | congruence ];
      destruct (f_format frame); try discriminate Hf; cbn;
      eexists; repeat split; reflexivity.
Qed.

Lemma to_int_small z : 0 <= z < 2 ^ 31 -> to_int (to_unsigned_int z) = z.
Proof.
  unfold to_int, to_unsigned_int.
  change (2 ^ 32) with 4294967296. change (2 ^ 31) with 2147483648.
  intros H. rewrite (Z.mod_small z) by lia. rewrite Z.mod_small by lia. lia.
Qed.

(** The first video frame with geometry creates the video stream the
    frame describes: the codec of the frame's format and the YUV420P
    pixel format, with the width and height of the frame as they come
    out of the conversion to [unsigned int] and then to [int], which
    are the frame's own width and height where these are below 2^31.
    The stream is appended to the container, takes the next index
    there, and mirrors the global-header requirement of the format; the
    format is marked as variable frame rate and its video codec is set;
    the frame format is recorded; the frame is queued; and the status is
    unchanged. *)
Theorem onFrame_first_video_creates_stream env frame s c :
  m_status s <> Context_ERROR ->
  is_video_format (f_format frame) = true ->
  m_videoStream s = None ->
  m_context s = Some c ->
  0 < width (video (f_additionalInfo frame)) ->
  0 < height (video (f_additionalInfo frame)) ->
  new_stream_ok env = true ->
  exists s' v c',
    onFrame getHeaderLength env frame s = Ok tt s' [] /\
    m_videoStream s' = Some v /\
    video_descriptor_ok (f_format frame) v /\
    cc_width (codec v)
      = to_int (to_unsigned_int (width (video (f_additionalInfo frame)))) /\
    cc_height (codec v)
      = to_int (to_unsigned_int (height (video (f_additionalInfo frame)))) /\
    (width (video (f_additionalInfo frame)) < 2 ^ 31 ->
     cc_width (codec v) = width (video (f_additionalInfo frame))) /\
    (height (video (f_additionalInfo frame)) < 2 ^ 31 ->
     cc_height (codec v) = height (video (f_additionalInfo frame))) /\
    index v = Z.of_nat (List.length (streams c)) /\
    global_header_mirrored (oformat c) v /\
    m_context s' = Some c' /\
    streams c' = streams c ++ [v] /\
    video_codec (oformat c') = Some (frameFormat2VideoCodecID (f_format frame)) /\
    has_flag (of_flags (oformat c')) AVFMT_VARIABLE_FPS = true /\
    m_videoFrameFormat s' = f_format frame /\
    m_videoQueue s' =
      pushFrame (now env) (f_payload frame) (f_length frame) (m_videoQueue s) /\
    m_status s' = m_status s /\
    m_audioStream s' = m_audioStream s /\
    m_audioQueue s' = m_audioQueue s.
Proof.
  intros Hst Hf Hv Hc Hw Hh Hok.
  assert (Hw' := Hw). assert (Hh' := Hh).
  apply Z.ltb_lt in Hw'. apply Z.ltb_lt in Hh'.
  destruct s as [status vs as_ cx tr vi ai vf af vq aq rp si].
  cbn in Hst, Hv, Hc. subst vs cx.
  unfold_onFrame. cbn. rewrite Hw', Hh', Hok. cbn.
  destruct status; [ | | congruence ];
    destruct (f_format frame) eqn:Hfmt; try discriminate Hf; cbn;
    do 3 eexists; (split; [ reflexivity | ]);
    (split; [ reflexivity | ]);
    (split; [ unfold video_descriptor_ok; cbn; auto 10 | ]);
    (split; [ reflexivity | ]); (split; [ reflexivity | ]);
    (split; [ intros Hb; cbn; apply to_int_small; lia | ]);
    (split; [ intros Hb; cbn; apply to_int_small; lia | ]);
    (split; [ reflexivity | ]);
    (split; [ unfold global_header_mirrored; cbn;
              apply (global_header_flags_mirror
                       (set_oformat {| of_flags := of_flags (oformat c);
                                       video_codec := _ |} c)) | ]);
    repeat (split; [ reflexivity | ]);
    (split; [ apply has_flag_variable_fps_set | ]);
    repeat split; reflexivity.
Qed.

(** The first audio frame that finds a video stream creates the audio
    stream the frame describes: the codec of the frame's format, its
    channel count and sample rate, float samples for OPUS and 16-bit
    samples for PCMU.  The stream is appended to the container and takes
    the next index there; the frame format is recorded; the frame is
    queued, without its RTP header when flagged; the status and the
    video stream are unchanged. *)
Theorem onFrame_first_audio_creates_stream env frame s v c :
  m_status s <> Context_ERROR ->
  is_audio_format (f_format frame) = true ->
  m_videoStream s = Some v ->
  m_audioStream s = None ->
  m_context s = Some c ->
  (isRtpPacket (audio (f_additionalInfo frame)) = true ->
   getHeaderLength (f_payload frame) <= f_length frame) ->
  new_stream_ok env = true ->
  exists s' a c',
    onFrame getHeaderLength env frame s = Ok tt s' [] /\
    m_audioStream s' = Some a /\
    audio_descriptor_ok (f_format frame) a /\
    cc_channels (codec a) = channels (audio (f_additionalInfo frame)) /\
    channel_layout (codec a)
      = Some (av_get_default_channel_layout (channels (audio (f_additionalInfo frame)))) /\
    sample_rate (codec a) = sampleRate (audio (f_additionalInfo frame)) /\
    index a = Z.of_nat (List.length (streams c)) /\
    global_header_mirrored (oformat c) a /\
    m_context s' = Some c' /\
    streams c' = streams c ++ [a] /\
    oformat c' = oformat c /\
    m_audioFrameFormat s' = f_format frame /\
    m_audioQueue s' = m_audioQueue s ++ [audio_entry getHeaderLength env frame] /\
    m_status s' = m_status s /\
    m_videoStream s' = Some v /\
    m_videoQueue s' = m_videoQueue s.
Proof.
  intros Hst Hf Hv Ha Hc Hassert Hok.
  destruct s as [status vs as_ cx tr vi ai vf af vq aq rp si].
  cbn in Hst, Hv, Ha, Hc. subst vs as_ cx.
  unfold audio_entry. unfold_onFrame. cbn. rewrite Hok. cbn.
  destruct (isRtpPacket (audio (f_additionalInfo frame)));
    [ specialize (Hassert eq_refl); apply Z.leb_le in Hassert; rewrite Hassert | ];
    (destruct status; [ | | congruence ]);
    destruct (f_format frame) eqn:Hfmt; try discriminate Hf; cbn;
    do 3 eexists; (split; [ reflexivity | ]);
    (split; [ reflexivity | ]);
    (split; [ unfold audio_descriptor_ok; cbn; auto 10 | ]);
    repeat (split; [ reflexivity | ]);
    (split; [ unfold global_header_mirrored; cbn;
              apply global_header_flags_mirror | ]);
    repeat split; reflexivity.
Qed.

(** After teardown the container context is gone: a video frame that
    asks for the video stream makes [addVideoStream] dereference the
    null context. *)
Theorem onFrame_video_after_close_crashes env frame s :
  m_status s <> Context_ERROR ->
  is_video_format (f_format frame) = true ->
  m_videoStream s = None ->
  m_context s = None ->
  0 < width (video (f_additionalInfo frame)) ->
  0 < height (video (f_additionalInfo frame)) ->
  onFrame getHeaderLength env frame s = Crash NullDereference.
Proof.
  intros Hst Hf Hv Hc Hw Hh.
  apply Z.ltb_lt in Hw. apply Z.ltb_lt in Hh.
  destruct s as [status vs as_ cx tr vi ai vf af vq aq rp si].
  cbn in Hst, Hv, Hc. subst vs cx.
  unfold_onFrame. cbn. rewrite Hw, Hh. cbn.
  destruct status; [ | | congruence ];
    destruct (f_format frame); try discriminate Hf; reflexivity.
Qed.

End FrameCases.

(** ** What ticks and teardown leave alone *)

Lemma onTimeout_keeps env s s' evs :
  onTimeout env s = Ok tt s' evs ->
  m_videoStream s' = m_videoStream s /\
  m_audioStream s' = m_audioStream s /\
  m_videoFrameFormat s' = m_videoFrameFormat s /\
  m_audioFrameFormat s' = m_audioFrameFormat s /\
  (forall c', m_context s' = Some c' ->
     exists c, m_context s = Some c /\ streams c' = streams c /\
               oformat c' = oformat c) /\
  (m_context s = None -> m_context s' = None).
Proof.
  intros H. apply onTimeout_cases in H.
  destruct H as [ (_ & -> & _) | [ (_ & -> & _) | [ (_ & _ & -> & _) | H ] ] ];
    try (repeat split; eauto; fail).
  destruct H as (a & v & c & _ & _ & _ & Hc & H).
  assert (Hk : forall s0,
             m_videoStream (sink_opened c s0) = m_videoStream s0 /\
             m_audioStream (sink_opened c s0) = m_audioStream s0 /\
             m_videoFrameFormat (sink_opened c s0) = m_videoFrameFormat s0 /\
             m_audioFrameFormat (sink_opened c s0) = m_audioFrameFormat s0).
  { intros s0. unfold sink_opened. destruct (needs_file c); cbn; auto. }
  assert (Hcx : forall c', m_context (sink_opened c s) = Some c' ->
             exists c0, m_context s = Some c0 /\ streams c' = streams c0 /\
                        oformat c' = oformat c0).
  { unfold sink_opened. destruct (needs_file c); cbn; intros c' H'.
    - inversion H'; subst. exists c. auto.
    - exists c'. auto. }
  destruct (Hk s) as (K1 & K2 & K3 & K4).
  destruct H as [ (_ & _ & -> & _) | [ (_ & _ & -> & _) | (_ & _ & -> & _) ] ];
    cbn; repeat split; auto; try (exists c; auto; fail); try congruence;
    eauto.
Qed.

Section Descriptors.

Variable getHeaderLength : list byte -> Z.

Ltac positive_tests :=
  repeat match goal with
         | H : _ && _ = true |- _ => apply andb_prop in H; destruct H
         | H : (_ <? _) = true |- _ => apply Z.ltb_lt in H
         end.

(** [onFrame] never changes a stream descriptor it finds, nor the frame
    format recorded for it. *)
Lemma onFrame_keeps_descriptors env frame s s' evs :
  onFrame getHeaderLength env frame s = Ok tt s' evs ->
  (forall v, m_videoStream s = Some v ->
     m_videoStream s' = Some v /\ m_videoFrameFormat s' = m_videoFrameFormat s) /\
  (forall a, m_audioStream s = Some a ->
     m_audioStream s' = Some a /\ m_audioFrameFormat s' = m_audioFrameFormat s).
Proof.
  destruct s as [st [v | ] [a | ] cx tr vi ai vf af vq aq rp si];
    unfold_onFrame; cbn; intros H;
    break_tests H; inversion H; subst; cbn;
    split; intros x Hx; inversion Hx; subst; auto.
Qed.

Lemma onFrame_descriptors_ok env frame s s' evs :
  descriptors_ok s ->
  onFrame getHeaderLength env frame s = Ok tt s' evs ->
  descriptors_ok s'.
Proof.
  destruct s as [st [v | ] [a | ] cx tr vi ai vf af vq aq rp si];
    unfold descriptors_ok; cbn; intros [Hv Ha];
    unfold_onFrame; cbn; intros H;
    break_tests H; inversion H; subst; cbn; positive_tests;
    (split; intros x Hx; inversion Hx; subst; auto);
    try discriminate;
    unfold video_descriptor_ok, audio_descriptor_ok; cbn; auto 10.
Qed.

Lemma call_descriptors_ok c s s' evs :
  descriptors_ok s ->
  call getHeaderLength c s = Ok tt s' evs ->
  descriptors_ok s'.
Proof.
  destruct c as [env frame | env | ]; cbn [call].
  - apply onFrame_descriptors_ok.
  - intros [Hv Ha] H. apply onTimeout_keeps in H.
    destruct H as (E1 & E2 & E3 & E4 & _).
    unfold descriptors_ok. rewrite E1, E2, E3, E4. auto.
  - intros Hd H. destruct (close_state s) as [evs' H'].
    rewrite H' in H. inversion H; subst. exact Hd.
Qed.

Lemma run_descriptors_ok cs : forall s s' evs,
  descriptors_ok s ->
  run getHeaderLength cs s = Ok tt s' evs ->
  descriptors_ok s'.
Proof.
  induction cs as [ | c cs IH ]; intros s s' evs Hd H.
  - cbn in H. unfold ret in H. inversion H; subst. exact Hd.
  - apply run_cons in H. destruct H as (s1 & evs1 & evs2 & Hc & Hr & _).
    eapply IH; [ | exact Hr ]. eapply call_descriptors_ok; eauto.
Qed.

Lemma reachable_descriptors_ok s :
  reachable getHeaderLength s -> descriptors_ok s.
Proof.
  intros (recordUrl & snapshotInterval & guessed & cs & evs & H).
  eapply run_descriptors_ok; [ | exact H ].
  split; cbn; intros x Hx; discriminate Hx.
Qed.

Lemma call_keeps_descriptors c s s' evs :
  call getHeaderLength c s = Ok tt s' evs ->
  (forall v, m_videoStream s = Some v ->
     m_videoStream s' = Some v /\ m_videoFrameFormat s' = m_videoFrameFormat s) /\
  (forall a, m_audioStream s = Some a ->
     m_audioStream s' = Some a /\ m_audioFrameFormat s' = m_audioFrameFormat s).
Proof.
  destruct c as [env frame | env | ]; cbn [call]; intros H.
  - eapply onFrame_keeps_descriptors; eauto.
  - apply onTimeout_keeps in H. destruct H as (E1 & E2 & E3 & E4 & _).
    rewrite E1, E2, E3, E4. auto.
  - destruct (close_state s) as [evs' H']. rewrite H' in H. inversion H; subst.
    cbn. auto.
Qed.

(** In a reachable session that has not been torn down, the container
    holds exactly the streams of the session, video first: at most two,
    at most one of each media type. *)
Theorem container_holds_session_streams s c :
  reachable getHeaderLength s ->
  m_context s = Some c ->
  streams c = session_streams s /\
  (List.length (streams c) <= 2)%nat /\
  (forall st, In st (streams c) ->
     (codec_type (codec st) = AVMEDIA_TYPE_VIDEO -> m_videoStream s = Some st) /\
     (codec_type (codec st) = AVMEDIA_TYPE_AUDIO -> m_audioStream s = Some st)).
Proof.
  intros Hr Hc.
  destruct (reachable_descriptors_ok _ Hr) as [Dv Da].
  apply reachable_invariant in Hr. destruct Hr as [Hord _].
  unfold streams_in_order in Hord. unfold session_streams.
  destruct (m_videoStream s) as [v | ] eqn:Ev;
    destruct (m_audioStream s) as [a | ] eqn:Ea; try contradiction.
  - destruct Hord as (_ & _ & Hs). rewrite (Hs c Hc).
    destruct (Dv v eq_refl) as (_ & _ & Tv & _).
    destruct (Da a eq_refl) as (_ & _ & Ta & _).
    repeat split; auto; intros Ht; destruct H as [<- | [<- | []]];
      congruence.
  - destruct Hord as (_ & Hs). rewrite (Hs c Hc).
    destruct (Dv v eq_refl) as (_ & _ & Tv & _).
    repeat split; auto; intros Ht; destruct H as [<- | []]; congruence.
  - rewrite (Hord c Hc). repeat split; auto; intros Ht; destruct H.
Qed.

End Descriptors.

(** ** One format per stream *)

Section Acceptance.

Variable getHeaderLength : list byte -> Z.

(** Once a reachable session has its video stream, it takes video
    frames of exactly one format, the one recorded when the stream was
    created: a frame of that format is appended to the video queue with
    its payload and length as they are, and nothing else changes; a
    video frame of the other format puts the session in the error
    state. *)
Theorem video_frame_accepted_iff_recorded_format env frame s v :
  reachable getHeaderLength s ->
  m_status s <> Context_ERROR ->
  m_videoStream s = Some v ->
  is_video_format (f_format frame) = true ->
  (f_format frame = m_videoFrameFormat s ->
   onFrame getHeaderLength env frame s =
   Ok tt (set_videoQueue
            (m_videoQueue s ++
             [ {| m_timeStamp := now env;
                  m_payloadData := firstn (Z.to_nat (f_length frame)) (f_payload frame);
                  m_payloadSize := f_length frame |} ]) s) [])
  /\ (f_format frame <> m_videoFrameFormat s ->
      onFrame getHeaderLength env frame s = Ok tt (set_status Context_ERROR s) []).
Proof.
  intros Hr Hst Hv Hf.
  destruct (reachable_descriptors_ok _ _ Hr) as [Dv _].
  destruct (Dv v Hv) as (Hrec & Hid & _).
  destruct s as [status vs as_ cx tr vi ai vf af vq aq rp si].
  cbn in Hst, Hv, Hrec, Hid |- *. subst vs.
  unfold onFrame, enqueueVideo. unfold_m. cbn. rewrite Hid.
  split; intros Hfmt.
  - rewrite Hfmt.
    destruct status; [ | | congruence ];
      destruct vf; try discriminate Hrec; reflexivity.
  - destruct status; [ | | congruence ];
      destruct (f_format frame); try discriminate Hf;
      destruct vf; try discriminate Hrec; try congruence; reflexivity.
Qed.

(** The same for audio: once a reachable session has its audio stream,
    an audio frame of the recorded format that passes the assertion on
    its RTP header length is appended to the audio queue, and an audio
    frame of the other format puts the session in the error state. *)
Theorem audio_frame_accepted_iff_recorded_format env frame s a :
  reachable getHeaderLength s ->
  m_status s <> Context_ERROR ->
  m_audioStream s = Some a ->
  is_audio_format (f_format frame) = true ->
  (f_format frame = m_audioFrameFormat s ->
   (isRtpPacket (audio (f_additionalInfo frame)) = true ->
    getHeaderLength (f_payload frame) <= f_length frame) ->
   onFrame getHeaderLength env frame s =
   Ok tt (set_audioQueue
            (m_audioQueue s ++ [audio_entry getHeaderLength env frame]) s) [])
  /\ (f_format frame <> m_audioFrameFormat s ->
      onFrame getHeaderLength env frame s = Ok tt (set_status Context_ERROR s) []).
Proof.
  intros Hr Hst Ha Hf.
  destruct (reachable_descriptors_ok _ _ Hr) as [_ Da].
  destruct (Da a Ha) as (Hrec & Hid & _).
  destruct s as [status vs as_ cx tr vi ai vf af vq aq rp si].
  cbn in Hst, Ha, Hrec, Hid |- *. subst as_.
  unfold onFrame, enqueueAudio, audio_entry. unfold_m. cbn.
  rewrite andb_false_r, Hid.
  split.
  - intros Hfmt Hassert. rewrite Hfmt.
    destruct (isRtpPacket (audio (f_additionalInfo frame)));
      [ specialize (Hassert eq_refl); apply Z.leb_le in Hassert; rewrite Hassert | ];
      (destruct status; [ | | congruence ]);
      destruct af; try discriminate Hrec; reflexivity.
  - intros Hfmt.
    destruct status; [ | | congruence ];
      destruct (f_format frame); try discriminate Hf;
      destruct af; try discriminate Hrec; try congruence; reflexivity.
Qed.

End Acceptance.

(** ** Ticks of a ready session, and the order of packets *)

Lemma drainQueues_ok s a v c :
  m_audioStream s = Some a ->
  m_videoStream s = Some v ->
  m_context s = Some c ->
  drainQueues s = Ok tt (drained s) (queued_packets s).
Proof.
  intros Ha Hv Hc. unfold drainQueues.
  rewrite (bind_Ok _ _ s s s []) by reflexivity.
  rewrite (bind_Ok _ _ _ _ _ _ (drainAudio_ok (m_audioQueue s) s a c Ha Hc)).
  set (s1 := match m_audioQueue s with [] => s | _ :: _ => set_audioQueue [] s end).
  assert (E1 : s1 = set_audioQueue [] s).
  { subst s1. destruct s as [st vs as_ cx tr vi ai vf af vq aq rp si].
    cbn. destruct aq; reflexivity. }
  rewrite (bind_Ok _ _ s1 s1 s1 []) by reflexivity.
  assert (Hv1 : m_videoStream s1 = Some v) by (rewrite E1; exact Hv).
  assert (Hc1 : m_context s1 = Some c) by (rewrite E1; exact Hc).
  rewrite (drainVideo_ok (m_videoQueue s1) s1 v c Hv1 Hc1).
  rewrite E1. cbn [app]. unfold drained, queued_packets.
  f_equal.
  destruct s as [st vs as_ cx tr vi ai vf af vq aq rp si].
  cbn. destruct vq; reflexivity.
Qed.

Section ReadyTicks.

Variable getHeaderLength : list byte -> Z.

(** A tick of a reachable session that is ready and not torn down
    writes every queued frame before it returns: the audio frames in
    queue order with stream index 1, then the video frames in queue
    order with stream index 0, each with the payload, size and time
    stamp of the queued frame.  It leaves both queues empty, makes no
    other call, and the session stays ready. *)
Theorem onTimeout_ready_drains_both_queues env s c :
  reachable getHeaderLength s ->
  m_status s = Context_READY ->
  m_context s = Some c ->
  onTimeout env s =
    Ok tt (set_videoQueue [] (set_audioQueue [] s))
       (map (fun ef => EvWriteFrame
                         {| pkt_data := m_payloadData ef; pkt_size := m_payloadSize ef;
                            pkt_timeStamp := m_timeStamp ef; stream_index := 1 |})
            (m_audioQueue s)
        ++ map (fun ef => EvWriteFrame
                            {| pkt_data := m_payloadData ef; pkt_size := m_payloadSize ef;
                               pkt_timeStamp := m_timeStamp ef; stream_index := 0 |})
               (m_videoQueue s))
  /\ m_status (set_videoQueue [] (set_audioQueue [] s)) = Context_READY.
Proof.
  intros Hr Hst Hc. split; [ | exact Hst ].
  apply reachable_invariant in Hr. destruct Hr as [_ Hboth].
  destruct (Hboth Hst) as [Sv Sa].
  destruct (m_videoStream s) as [v | ] eqn:Ev; [ | discriminate Sv ].
  destruct (m_audioStream s) as [a | ] eqn:Ea; [ | discriminate Sa ].
  unfold onTimeout.
  rewrite (bind_Ok _ _ s s s []) by reflexivity. rewrite Hst.
  rewrite (drainQueues_ok s a v c Ea Ev Hc). reflexivity.
Qed.

Lemma packets_of_app idx evs1 evs2 :
  packets_of idx (evs1 ++ evs2) = packets_of idx evs1 ++ packets_of idx evs2.
Proof.
  induction evs1 as [ | e evs1 IH ]; [ reflexivity | ].
  destruct e; cbn; auto.
  destruct (stream_index pkt =? idx); cbn; rewrite IH; reflexivity.
Qed.

Lemma packets_of_audio_map idx q :
  packets_of idx (map (fun ef => EvWriteFrame (audio_packet ef)) q)
  = if 1 =? idx then map audio_packet q else [].
Proof.
  induction q as [ | ef q IH ]; cbn [map packets_of audio_packet stream_index].
  - destruct (1 =? idx); reflexivity.
  - rewrite IH. destruct (1 =? idx); reflexivity.
Qed.

Lemma packets_of_video_map idx q :
  packets_of idx (map (fun ef => EvWriteFrame (video_packet ef)) q)
  = if 0 =? idx then map video_packet q else [].
Proof.
  induction q as [ | ef q IH ]; cbn [map packets_of video_packet stream_index].
  - destruct (0 =? idx); reflexivity.
  - rewrite IH. destruct (0 =? idx); reflexivity.
Qed.

Lemma packets_of_queued s :
  packets_of 1 (queued_packets s) = map audio_packet (m_audioQueue s) /\
  packets_of 0 (queued_packets s) = map video_packet (m_videoQueue s).
Proof.
  unfold queued_packets.
  rewrite !packets_of_app, !packets_of_audio_map, !packets_of_video_map.
  cbn. rewrite app_nil_r. auto.
Qed.

Lemma packets_of_open idx c : packets_of idx (open_events c) = [].
Proof. unfold open_events. destruct (needs_file c); reflexivity. Qed.

Lemma close_packets s s' evs idx :
  close s = Ok tt s' evs -> packets_of idx evs = [] /\ frame_writes evs = 0%nat.
Proof.
  destruct s as [st [v | ] [a | ] [c | ] [ | ] vi ai vf af vq aq rp si];
    unfold close; unfold_m; cbn;
    try destruct (has_flag (of_flags (oformat c)) AVFMT_NOFILE);
    cbn; intros H; inversion H; subst; split; reflexivity.
Qed.

(** What [onFrame] appends to the queues, told from the frame and the
    session it meets. *)
Lemma onFrame_queues env frame s s' evs :
  onFrame getHeaderLength env frame s = Ok tt s' evs ->
  m_audioQueue s' = m_audioQueue s ++ audio_queued_by getHeaderLength env frame s /\
  m_videoQueue s' = m_videoQueue s ++ video_queued_by env frame s.
Proof.
  destruct s as [st [v | ] [a | ] cx tr vi ai vf af vq aq rp si];
    unfold audio_queued_by, video_queued_by, audio_entry, video_entry;
    unfold_onFrame; cbn; intros H;
    break_tests H; inversion H; subst; cbn;
    repeat match goal with
           | E : ?x = _ |- context [ ?x ] => rewrite E; cbn
           end;
    unfold pushFrame; rewrite ?app_nil_r; split; reflexivity.
Qed.

(** What one call writes, followed by what it leaves queued, is what
    was queued before followed by what the call appended. *)
Lemma call_fifo c s s' evs :
  call getHeaderLength c s = Ok tt s' evs ->
  packets_of 1 evs ++ map audio_packet (m_audioQueue s')
    = map audio_packet (m_audioQueue s ++ audio_queued_by_call getHeaderLength c s) /\
  packets_of 0 evs ++ map video_packet (m_videoQueue s')
    = map video_packet (m_videoQueue s ++ video_queued_by_call c s).
Proof.
  destruct c as [env frame | env | ]; cbn [call audio_queued_by_call
                                           video_queued_by_call]; intros H.
  - pose proof (onFrame_queues _ _ _ _ _ H) as [Ha Hv].
    apply onFrame_effect in H. destruct H as (-> & _).
    rewrite Ha, Hv. split; reflexivity.
  - rewrite !app_nil_r. apply onTimeout_cases in H.
    destruct (packets_of_queued s) as [Pa Pv].
    destruct H as [ (_ & -> & ->) | [ (_ & -> & ->) | [ (_ & _ & -> & ->) | H ] ] ].
    + split; reflexivity.
    + rewrite Pa, Pv. cbn. rewrite !app_nil_r. split; reflexivity.
    + split; reflexivity.
    + destruct H as (a & v & c & _ & _ & _ & Hc & H).
      destruct (sink_opened_fields c s Hc) as (_ & _ & _ & Qa & Qv & _).
      destruct H as [ (_ & _ & -> & ->) | [ (_ & _ & -> & ->) | (_ & _ & -> & ->) ] ].
      * split; reflexivity.
      * rewrite !packets_of_app, !packets_of_open. cbn. rewrite Qa, Qv.
        split; reflexivity.
      * rewrite !packets_of_app, !packets_of_open, Pa, Pv. cbn.
        rewrite !app_nil_r. split; reflexivity.
  - rewrite !app_nil_r.
    destruct (close_packets _ _ _ 1 H) as [P1 _].
    destruct (close_packets _ _ _ 0 H) as [P0 _].
    destruct (close_state s) as [evs' H']. rewrite H' in H. inversion H; subst.
    rewrite P1, P0. cbn. split; reflexivity.
Qed.

(** Frames leave in the order they were accepted, none lost and none
    written twice.  Over any run of calls, for each of the two queues:
    the packets written for the stream, in the order of the trace,
    followed by the frames still queued at the end, are the frames that
    were queued at the start followed by the frames the [onFrame] calls
    of the run accepted for that queue, in the order of the calls.  The
    frame a call accepts is told from the frame and the session the call
    meets ([audio_queued_by], [video_queued_by]). *)
Theorem frames_are_written_in_queue_order cs s s' evs :
  run getHeaderLength cs s = Ok tt s' evs ->
  packets_of 1 evs ++ map audio_packet (m_audioQueue s')
    = map audio_packet (m_audioQueue s ++ audio_queued_by_run getHeaderLength cs s) /\
  packets_of 0 evs ++ map video_packet (m_videoQueue s')
    = map video_packet (m_videoQueue s ++ video_queued_by_run getHeaderLength cs s).
Proof.
  revert s s' evs. induction cs as [ | c cs IH ]; intros s s' evs H.
  - cbn in H. unfold ret in H. inversion H; subst. cbn.
    rewrite !app_nil_r. split; reflexivity.
  - apply run_cons in H. destruct H as (s1 & evs1 & evs2 & Hc & Hr & ->).
    cbn [audio_queued_by_run video_queued_by_run]. rewrite Hc.
    apply call_fifo in Hc. destruct Hc as [Ha1 Hv1].
    destruct (IH _ _ _ Hr) as [Ha2 Hv2].
    rewrite !packets_of_app. split.
    + rewrite <- app_assoc, Ha2, map_app, app_assoc, Ha1, <- map_app, app_assoc.
      reflexivity.
    + rewrite <- app_assoc, Hv2, map_app, app_assoc, Hv1, <- map_app, app_assoc.
      reflexivity.
Qed.

End ReadyTicks.

(** ** What a trace can hold, and in which order *)

Lemma frame_writes_app evs1 evs2 :
  frame_writes (evs1 ++ evs2) = (frame_writes evs1 + frame_writes evs2)%nat.
Proof. unfold frame_writes. rewrite filter_app, length_app. reflexivity. Qed.

Lemma trailer_writes_app evs1 evs2 :
  trailer_writes (evs1 ++ evs2) = (trailer_writes evs1 + trailer_writes evs2)%nat.
Proof. unfold trailer_writes. rewrite filter_app, length_app. reflexivity. Qed.

Lemma header_before_packets_app evs1 evs2 :
  frame_writes evs1 = 0%nat ->
  header_before_packets evs2 = true ->
  header_before_packets (evs1 ++ evs2) = true.
Proof.
  intros H1 H2. induction evs1 as [ | e evs1 IH ]; [ exact H2 | ].
  destruct e; cbn in H1 |- *; try discriminate H1; auto.
  destruct ok; auto.
Qed.

Lemma header_before_trailer_app evs1 evs2 :
  trailer_writes evs1 = 0%nat ->
  header_before_trailer evs2 = true ->
  header_before_trailer (evs1 ++ evs2) = true.
Proof.
  intros H1 H2. induction evs1 as [ | e evs1 IH ]; [ exact H2 | ].
  destruct e; cbn in H1 |- *; try discriminate H1; auto.
  destruct ok; auto.
Qed.

Lemma frame_writes_open c : frame_writes (open_events c) = 0%nat.
Proof. unfold open_events. destruct (needs_file c); reflexivity. Qed.

Lemma trailer_writes_open c : trailer_writes (open_events c) = 0%nat.
Proof. unfold open_events. destruct (needs_file c); reflexivity. Qed.

Lemma trailer_writes_packets {A} (f : A -> AVPacket) (q : list A) :
  trailer_writes (map (fun ef => EvWriteFrame (f ef)) q) = 0%nat.
Proof. induction q; [ reflexivity | exact IHq ]. Qed.

Lemma trailer_writes_queued s : trailer_writes (queued_packets s) = 0%nat.
Proof.
  unfold queued_packets. rewrite trailer_writes_app, !trailer_writes_packets.
  reflexivity.
Qed.

(** A tick writes no trailer, and packets only when it ends ready. *)
Lemma onTimeout_trace env s s' evs :
  onTimeout env s = Ok tt s' evs ->
  trailer_writes evs = 0%nat /\
  (m_status s <> Context_READY ->
   (frame_writes evs = 0%nat /\ m_status s' <> Context_READY /\
    m_avTrailerNeeded s' = m_avTrailerNeeded s)
   \/ (exists pre post,
         evs = pre ++ EvWriteHeader true :: post /\
         frame_writes pre = 0%nat /\ trailer_writes pre = 0%nat)) /\
  (m_status s = Context_READY ->
   m_status s' = Context_READY /\ m_avTrailerNeeded s' = m_avTrailerNeeded s) /\
  (status_rank (m_status s) <= status_rank (m_status s'))%nat.
Proof.
  intros H. apply onTimeout_cases in H.
  destruct H as [ (Hst & -> & ->) | [ (Hst & -> & ->) | [ (Hst & _ & -> & ->) | H ] ] ].
  - split; [ reflexivity | ]. split; [ | split; [ auto | lia ] ].
    intros _. left. rewrite Hst. split; [ reflexivity | ]. split; [ discriminate | auto ].
  - split; [ apply trailer_writes_queued | ].
    split; [ congruence | ]. split; [ auto | cbn; lia ].
  - split; [ reflexivity | ]. split; [ | split; [ auto | lia ] ].
    intros _. left. rewrite Hst. split; [ reflexivity | ]. split; [ discriminate | auto ].
  - destruct H as (a & v & c & Hst & _ & _ & Hc & H).
    destruct (sink_opened_fields c s Hc) as (_ & _ & Es & _).
    assert (Et : m_avTrailerNeeded (sink_opened c s) = m_avTrailerNeeded s).
    { unfold sink_opened. destruct (needs_file c); reflexivity. }
    rewrite Hst.
    destruct H as [ (_ & _ & -> & ->) | [ (_ & _ & -> & ->) | (_ & _ & -> & ->) ] ].
    + split; [ reflexivity | ].
      split; [ | split; [ discriminate | cbn; lia ] ].
      intros _. left. split; [ reflexivity | ]. split; [ cbn; discriminate | auto ].
    + split; [ rewrite trailer_writes_app, trailer_writes_open; reflexivity | ].
      split; [ | split; [ discriminate | cbn; lia ] ].
      intros _. left. rewrite frame_writes_app, frame_writes_open.
      split; [ reflexivity | ]. split; [ cbn; discriminate | exact Et ].
    + split.
      { rewrite !trailer_writes_app, trailer_writes_open, trailer_writes_queued.
        reflexivity. }
      split; [ | split; [ discriminate | cbn; lia ] ].
      intros _. right. exists (open_events c ++ [EvDumpFormat]), (queued_packets s).
      rewrite <- app_assoc. cbn.
      rewrite frame_writes_app, frame_writes_open,
        trailer_writes_app, trailer_writes_open. auto.
Qed.

(** [close] writes the trailer exactly when the container context is
    still there and the header was written. *)
Lemma close_trace s s' evs :
  close s = Ok tt s' evs ->
  frame_writes evs = 0%nat /\
  trailer_writes evs
    = (if is_some (m_context s) && m_avTrailerNeeded s then 1 else 0)%nat /\
  m_status s' = m_status s /\
  m_avTrailerNeeded s' = m_avTrailerNeeded s /\
  m_context s' = None /\
  m_audioQueue s' = m_audioQueue s /\
  m_videoQueue s' = m_videoQueue s.
Proof.
  destruct s as [st [v | ] [a | ] [c | ] [ | ] vi ai vf af vq aq rp si];
    unfold close; unfold_m; cbn;
    try destruct (has_flag (of_flags (oformat c)) AVFMT_NOFILE);
    cbn; intros H; inversion H; subst; repeat split; reflexivity.
Qed.

Section Traces.

Variable getHeaderLength : list byte -> Z.

Lemma onFrame_keeps_closed env frame s s' evs :
  onFrame getHeaderLength env frame s = Ok tt s' evs ->
  m_context s = None -> m_context s' = None.
Proof.
  destruct s as [st [v | ] [a | ] cx tr vi ai vf af vq aq rp si];
    unfold_onFrame; cbn; intros H Hc; subst cx; cbn in H;
    break_tests H; inversion H; subst; reflexivity.
Qed.

Lemma onFrame_error_unchanged env frame s s' evs :
  m_status s = Context_ERROR ->
  onFrame getHeaderLength env frame s = Ok tt s' evs ->
  s' = s /\ evs = [].
Proof.
  intros Hst. unfold onFrame. unfold_m. cbn. rewrite Hst.
  intros H. inversion H. auto.
Qed.

(** What one call can put in the trace before the header is written. *)
Lemma call_before_header c s s' evs :
  call getHeaderLength c s = Ok tt s' evs ->
  m_status s <> Context_READY ->
  (frame_writes evs = 0%nat /\ m_status s' <> Context_READY)
  \/ (exists pre post,
        evs = pre ++ EvWriteHeader true :: post /\ frame_writes pre = 0%nat).
Proof.
  destruct c as [env frame | env | ]; cbn [call]; intros H Hst.
  - apply onFrame_effect in H. destruct H as (-> & [E | E] & _).
    + left. split; [ reflexivity | congruence ].
    + left. split; [ reflexivity | rewrite E; discriminate ].
  - apply onTimeout_trace in H. destruct H as (_ & H & _).
    destruct (H Hst) as [ (F & S' & _) | (pre & post & E & F & _) ]; eauto 6.
  - apply close_trace in H. destruct H as (F & _ & S' & _).
    left. split; [ exact F | congruence ].
Qed.

(** No packet before the header.  In every run that starts on a session
    that is not ready (a fresh session in particular), each packet in the
    trace comes after a header write that succeeded. *)
Theorem no_packet_before_header cs s s' evs :
  m_status s <> Context_READY ->
  run getHeaderLength cs s = Ok tt s' evs ->
  header_before_packets evs = true.
Proof.
  revert s s' evs. induction cs as [ | c cs IH ]; intros s s' evs Hst H.
  - cbn in H. unfold ret in H. inversion H; subst. reflexivity.
  - apply run_cons in H. destruct H as (s1 & evs1 & evs2 & Hc & Hr & ->).
    destruct (call_before_header _ _ _ _ Hc Hst)
      as [ [F S1] | (pre & post & -> & F) ].
    + apply header_before_packets_app; [ exact F | ]. eapply IH; eauto.
    + rewrite <- app_assoc. apply header_before_packets_app; [ exact F | ].
      reflexivity.
Qed.

Lemma call_in_error c s s' evs :
  m_status s = Context_ERROR ->
  call getHeaderLength c s = Ok tt s' evs ->
  m_status s' = Context_ERROR /\
  frame_writes evs = 0%nat /\ header_writes evs = 0%nat /\
  m_audioQueue s' = m_audioQueue s /\ m_videoQueue s' = m_videoQueue s /\
  m_videoStream s' = m_videoStream s /\ m_audioStream s' = m_audioStream s.
Proof.
  intros Hst. destruct c as [env frame | env | ]; cbn [call]; intros H.
  - apply (onFrame_error_unchanged _ _ _ _ _ Hst) in H. destruct H as [-> ->].
    repeat split; auto.
  - apply onTimeout_cases in H.
    destruct H as [ (_ & -> & ->) | [ (E & _) | [ (E & _) | H ] ] ];
      try congruence.
    + repeat split; auto.
    + destruct H as (a & v & c & E & _). congruence.
  - pose proof (close_header_writes _ _ _ H) as [Hh _].
    pose proof (close_trace _ _ _ H) as (F & _ & S' & _ & _ & Qa & Qv).
    destruct (close_state s) as [evs' H']. rewrite H' in H. inversion H; subst.
    repeat split; auto.
Qed.

(** Once the session is in the error state, nothing is recorded any
    more.  Whatever calls follow, no packet and no header is written,
    the frames offered are not queued (both queues keep their content),
    no stream is created, and the session stays in the error state. *)
Theorem error_state_records_nothing cs s s' evs :
  m_status s = Context_ERROR ->
  run getHeaderLength cs s = Ok tt s' evs ->
  m_status s' = Context_ERROR /\
  frame_writes evs = 0%nat /\ header_writes evs = 0%nat /\
  m_audioQueue s' = m_audioQueue s /\ m_videoQueue s' = m_videoQueue s /\
  m_videoStream s' = m_videoStream s /\ m_audioStream s' = m_audioStream s.
Proof.
  revert s s' evs. induction cs as [ | c cs IH ]; intros s s' evs Hst H.
  - cbn in H. unfold ret in H. inversion H; subst. repeat split; auto.
  - apply run_cons in H. destruct H as (s1 & evs1 & evs2 & Hc & Hr & ->).
    destruct (call_in_error _ _ _ _ Hst Hc) as (S1 & F1 & H1 & Qa & Qv & Ev & Ea).
    destruct (IH _ _ _ S1 Hr) as (S2 & F2 & H2 & Qa2 & Qv2 & Ev2 & Ea2).
    rewrite frame_writes_app, header_writes_app, F1, F2, H1, H2.
    repeat split; auto; congruence.
Qed.

Lemma call_trailer c s s' evs :
  call getHeaderLength c s = Ok tt s' evs ->
  ((trailer_writes evs = 0%nat /\ (m_context s = None -> m_context s' = None))
   \/ (trailer_writes evs = 1%nat /\ m_context s' = None)) /\
  (m_avTrailerNeeded s = false ->
   (trailer_writes evs = 0%nat /\ m_avTrailerNeeded s' = false)
   \/ (exists pre post,
         evs = pre ++ EvWriteHeader true :: post /\ trailer_writes pre = 0%nat)).
Proof.
  destruct c as [env frame | env | ]; cbn [call]; intros H.
  - pose proof (onFrame_keeps_closed _ _ _ _ _ H) as Hk.
    apply onFrame_effect in H. destruct H as (-> & _ & T & _).
    split; [ left; auto | ]. intros Hn. left. split; [ reflexivity | congruence ].
  - pose proof (onTimeout_keeps _ _ _ _ H) as (_ & _ & _ & _ & _ & Hk).
    apply onTimeout_trace in H. destruct H as (T & Hnr & Hr & _).
    split; [ left; auto | ]. intros Hn.
    destruct (m_status s) eqn:Hst.
    + destruct Hnr as [ (_ & _ & E) | (pre & post & E & _ & F) ];
        [ discriminate | left; split; [ exact T | congruence ] | eauto 6 ].
    + destruct (Hr eq_refl) as [_ E]. left. split; [ exact T | congruence ].
    + destruct Hnr as [ (_ & _ & E) | (pre & post & E & _ & F) ];
        [ discriminate | left; split; [ exact T | congruence ] | eauto 6 ].
  - apply close_trace in H. destruct H as (_ & T & _ & E & Hc & _).
    split.
    + destruct (is_some (m_context s) && m_avTrailerNeeded s); auto.
    + intros Hn. rewrite Hn, andb_false_r in T. left. split; congruence.
Qed.

(** The trailer is written at most once in any run of calls, and, where
    the run starts on a session whose header is not written yet (a fresh
    session in particular), only after a header write that succeeded: a
    session that fails before the header leaves a file without
    trailer. *)
Theorem trailer_at_most_once_and_after_header cs s s' evs :
  run getHeaderLength cs s = Ok tt s' evs ->
  (trailer_writes evs <= 1)%nat /\
  (m_context s = None -> trailer_writes evs = 0%nat) /\
  (m_avTrailerNeeded s = false -> header_before_trailer evs = true).
Proof.
  revert s s' evs. induction cs as [ | c cs IH ]; intros s s' evs H.
  - cbn in H. unfold ret in H. inversion H; subst. cbn. auto.
  - apply run_cons in H. destruct H as (s1 & evs1 & evs2 & Hc & Hr & ->).
    destruct (call_trailer _ _ _ _ Hc) as [Hone Hafter].
    destruct (IH _ _ _ Hr) as (Hle & Hnone & Hhdr).
    rewrite trailer_writes_app. repeat split.
    + destruct Hone as [ [T K] | [T K] ]; rewrite T; [ lia | ].
      rewrite (Hnone K). lia.
    + intros Hn. destruct Hone as [ [T K] | [T K] ].
      * rewrite T, (Hnone (K Hn)). reflexivity.
      * exfalso.
        destruct c as [env frame | env | ]; cbn [call] in Hc.
        -- apply onFrame_effect in Hc. destruct Hc as (-> & _). discriminate T.
        -- apply onTimeout_trace in Hc. destruct Hc as (T0 & _). congruence.
        -- apply close_trace in Hc. destruct Hc as (_ & T0 & _).
           rewrite Hn in T0. cbn in T0. congruence.
    + intros Hn. destruct (Hafter Hn) as [ [T E] | (pre & post & -> & T) ].
      * apply header_before_trailer_app; auto.
      * rewrite <- app_assoc. apply header_before_trailer_app; [ exact T | ].
        reflexivity.
Qed.

Lemma call_status_rank c s s' evs :
  call getHeaderLength c s = Ok tt s' evs ->
  (status_rank (m_status s) <= status_rank (m_status s'))%nat.
Proof.
  destruct c as [env frame | env | ]; cbn [call]; intros H.
  - apply onFrame_effect in H. destruct H as (_ & [E | E] & _); rewrite E.
    + lia.
    + destruct (m_status s); cbn; lia.
  - apply onTimeout_trace in H. tauto.
  - apply close_trace in H. destruct H as (_ & _ & E & _). rewrite E. lia.
Qed.

(** A session only moves forward through Empty, Ready and Error: no run
    of calls takes it back to an earlier state; a tick of a ready
    session leaves it ready, so only a frame can take a ready session to
    the error state. *)
Theorem status_only_moves_forward :
  (forall cs s s' evs,
     run getHeaderLength cs s = Ok tt s' evs ->
     (status_rank (m_status s) <= status_rank (m_status s'))%nat)
  /\ (forall env s s' evs,
        m_status s = Context_READY ->
        onTimeout env s = Ok tt s' evs ->
        m_status s' = Context_READY).
Proof.
  split.
  - intros cs. induction cs as [ | c cs IH ]; intros s s' evs H.
    + cbn in H. unfold ret in H. inversion H; subst. lia.
    + apply run_cons in H. destruct H as (s1 & evs1 & evs2 & Hc & Hr & _).
      apply call_status_rank in Hc. apply IH in Hr. lia.
  - intros env s s' evs Hst H. apply onTimeout_trace in H.
    destruct H as (_ & _ & Hr & _). apply Hr, Hst.
Qed.

(** [onFrame] only queues and negotiates: it makes no call to the sink,
    the timer or the event registry, leaves the trailer-needed flag as
    it is, removes nothing from either queue, and changes the status
    only to the error state. *)
Theorem onFrame_makes_no_outside_call env frame s s' evs :
  onFrame getHeaderLength env frame s = Ok tt s' evs ->
  evs = [] /\
  m_avTrailerNeeded s' = m_avTrailerNeeded s /\
  (m_status s' = m_status s \/ m_status s' = Context_ERROR) /\
  (exists more, m_audioQueue s' = m_audioQueue s ++ more /\ (List.length more <= 1)%nat) /\
  (exists more, m_videoQueue s' = m_videoQueue s ++ more /\ (List.length more <= 1)%nat).
Proof.
  destruct s as [st [v | ] [a | ] cx tr vi ai vf af vq aq rp si];
    unfold_onFrame; cbn; intros H;
    break_tests H; inversion H; subst; cbn;
    repeat split; auto;
    first [ exists []; split; [ symmetry; apply app_nil_r | cbn; lia ]
          | eexists; split; [ unfold pushFrame; reflexivity | cbn; lia ] ].
Qed.

End Traces.

(** ** Descriptors of a live session *)

Section LiveDescriptors.

Variable getHeaderLength : list byte -> Z.

(** Stream descriptors are written once.  Over any run of calls at the
    end of which the session is not torn down (its container context is
    still there, so no call of the run was a teardown), a stream the
    session holds stays the stream it was, with the codec, the geometry
    and the audio parameters it was created with, and so does the frame
    format recorded for it. *)
Theorem stream_descriptors_are_write_once cs s s' evs :
  run getHeaderLength cs s = Ok tt s' evs ->
  m_context s' <> None ->
  forallb (fun c => negb (is_close c)) cs = true /\
  m_context s <> None /\
  (forall v, m_videoStream s = Some v ->
     m_videoStream s' = Some v /\ m_videoFrameFormat s' = m_videoFrameFormat s) /\
  (forall a, m_audioStream s = Some a ->
     m_audioStream s' = Some a /\ m_audioFrameFormat s' = m_audioFrameFormat s).
Proof.
  revert s s' evs. induction cs as [ | c cs IH ]; intros s s' evs H Hlive.
  - cbn in H. unfold ret in H. inversion H; subst. cbn. auto.
  - apply run_cons in H. destruct H as (s1 & evs1 & evs2 & Hc & Hr & _).
    destruct (IH _ _ _ Hr Hlive) as (Hnc & Hlive1 & Hv' & Ha').
    assert (Hnot : is_close c = false /\ m_context s <> None).
    { destruct c as [env frame | env | ]; cbn [call] in Hc.
      - split; [ reflexivity | ]. intros Hn. apply Hlive1.
        eapply onFrame_keeps_closed; eauto.
      - split; [ reflexivity | ]. intros Hn. apply Hlive1.
        apply onTimeout_keeps in Hc. destruct Hc as (_ & _ & _ & _ & _ & Hk). auto.
      - exfalso. apply Hlive1. apply close_trace in Hc. tauto. }
    destruct Hnot as [Hnot Hlive0].
    apply call_keeps_descriptors in Hc. destruct Hc as [Hv Ha].
    split; [ cbn; rewrite Hnot, Hnc; reflexivity | ].
    split; [ exact Hlive0 | ]. split.
    + intros v E. destruct (Hv v E) as [E1 F1]. destruct (Hv' v E1) as [E2 F2].
      split; congruence.
    + intros a E. destruct (Ha a E) as [E1 F1]. destruct (Ha' a E1) as [E2 F2].
      split; congruence.
Qed.

End LiveDescriptors.

(** ** Format flags and the sink *)

Section Flags.

Variable getHeaderLength : list byte -> Z.

Lemma onFrame_flags_invariant o env frame s s' evs :
  flags_invariant o s ->
  onFrame getHeaderLength env frame s = Ok tt s' evs ->
  flags_invariant o s'.
Proof.
  destruct s as [st [v | ] [a | ] [c | ] tr vi ai vf af vq aq rp si];
    unfold flags_invariant, session_streams; cbn; intros [Hc Hs];
    unfold_onFrame; cbn; intros H;
    break_tests H; inversion H; subst; cbn;
    (split;
     [ intros c0 E; inversion E; subst; try (apply Hc; reflexivity);
       destruct (Hc c eq_refl) as [N G];
       unfold same_format_flags; cbn;
       rewrite ?has_flag_variable_fps_other by reflexivity; auto
     | intros x Hin;
       repeat (destruct Hin as [Hin | Hin]; [ subst x | ]);
       try contradiction; try (apply Hs; cbn; auto; fail);
       destruct (Hc c eq_refl) as [N G];
       unfold global_header_mirrored; cbn;
       rewrite global_header_flags_mirror; cbn; exact G ]).
Qed.

Lemma call_flags_invariant o c s s' evs :
  flags_invariant o s ->
  call getHeaderLength c s = Ok tt s' evs ->
  flags_invariant o s'.
Proof.
  destruct c as [env frame | env | ]; cbn [call].
  - apply onFrame_flags_invariant.
  - intros [Hc Hs] H. apply onTimeout_keeps in H.
    destruct H as (E1 & E2 & _ & _ & Hk & _).
    split.
    + intros c' Hc'. destruct (Hk c' Hc') as (c0 & E0 & _ & Eo).
      unfold same_format_flags. rewrite Eo. apply Hc, E0.
    + unfold session_streams. rewrite E1, E2. exact Hs.
  - intros [Hc Hs] H. destruct (close_state s) as [evs' H'].
    rewrite H' in H. inversion H; subst. split.
    + cbn. discriminate.
    + exact Hs.
Qed.

(** The session never changes what the output format requires.  Along
    every run from a fresh session, the format of the container agrees
    with the format guessed at construction on whether a file must be
    opened (AVFMT_NOFILE) and on whether stream headers are global
    (AVFMT_GLOBALHEADER), although the video stream sets the
    variable-frame-rate bit of the same flag word; and every stream of
    the session carries CODEC_FLAG_GLOBAL_HEADER exactly when the format
    asks for global headers. *)
Theorem format_requirements_are_kept recordUrl snapshotInterval guessed cs s evs :
  run getHeaderLength cs (MediaFileOut_new recordUrl snapshotInterval guessed)
    = Ok tt s evs ->
  (forall c, m_context s = Some c ->
     has_flag (of_flags (oformat c)) AVFMT_NOFILE
       = has_flag (of_flags guessed) AVFMT_NOFILE /\
     has_flag (of_flags (oformat c)) AVFMT_GLOBALHEADER
       = has_flag (of_flags guessed) AVFMT_GLOBALHEADER) /\
  (forall st, m_videoStream s = Some st \/ m_audioStream s = Some st ->
     has_flag (cc_flags (codec st)) CODEC_FLAG_GLOBAL_HEADER
       = has_flag (of_flags guessed) AVFMT_GLOBALHEADER).
Proof.
  intros H.
  assert (Hgen : forall cs0 s0 s1 evs0,
             flags_invariant guessed s0 ->
             run getHeaderLength cs0 s0 = Ok tt s1 evs0 ->
             flags_invariant guessed s1).
  { induction cs0 as [ | c cs0 IH ]; intros s0 s1 evs0 Hi Hr.
    - cbn in Hr. unfold ret in Hr. inversion Hr; subst. exact Hi.
    - apply run_cons in Hr. destruct Hr as (s2 & e1 & e2 & Hc & Hr & _).
      eapply IH; [ | exact Hr ]. eapply call_flags_invariant; eauto. }
  assert (Hnew : flags_invariant guessed
                   (MediaFileOut_new recordUrl snapshotInterval guessed)).
  { split; cbn.
    - intros c E. inversion E; subst. split; reflexivity.
    - intros st []. }
  assert (Hinv := Hgen _ _ _ _ Hnew H).
  destruct Hinv as [Hc Hs]. split.
  - intros c E. exact (Hc c E).
  - intros st [E | E]; apply Hs; unfold session_streams; rewrite E.
    + left. reflexivity.
    + apply in_or_app. right. left. reflexivity.
Qed.

End Flags.

(** ** Teardown and the sink *)

(** Teardown completes on every session that is not torn down yet, and
    on a torn-down session that never held a stream: with or without
    streams, before or after the header, in whatever status.  It stops
    the timer before anything else, releases the container context
    exactly when there is one, writes the trailer exactly when there is
    a context and the header was written, closes the codec of each
    stream the session holds, and leaves the session without context and
    otherwise unchanged. *)
Theorem close_completes_on_every_session s :
  m_context s <> None \/ (m_videoStream s = None /\ m_audioStream s = None) ->
  exists evs,
    close s = Ok tt (set_context None s) evs /\
    hd_error evs = Some EvTimerStop /\
    (In EvWriteTrailer evs <-> m_context s <> None /\ m_avTrailerNeeded s = true) /\
    (In EvFreeContext evs <-> m_context s <> None) /\
    (In EvAvioClose evs <-> exists c, m_context s = Some c /\ needs_file c = true) /\
    (forall cc, In (EvAvcodecClose cc) evs <->
       exists st, (m_videoStream s = Some st \/ m_audioStream s = Some st) /\
                  codec st = cc).
Proof.
  intros Hlive.
  destruct s as [st [v | ] [a | ] [c | ] [ | ] vi ai vf af vq aq rp si];
    cbn in Hlive;
    try (exfalso; destruct Hlive as [Hl | [Hl1 Hl2]]; congruence);
    unfold close, needs_file; unfold_m; cbn;
    try destruct (has_flag (of_flags (oformat c)) AVFMT_NOFILE) eqn:Hnf;
    cbn; eexists; (split; [ reflexivity | ]); (split; [ reflexivity | ]);
    cbn;
    (split; [ split; [ intros Hin; intuition (try discriminate; try congruence)
                     | intros [Hc Ht]; intuition (try discriminate; try congruence) ] | ]);
    (split; [ split; [ intros Hin; intuition (try discriminate; try congruence)
                     | intros Hc; intuition (try discriminate; try congruence) ] | ]);
    (split;
     [ split;
       [ intros Hin;
         first [ exists c; split; [ reflexivity | rewrite Hnf; reflexivity ]
               | exfalso; intuition (try discriminate; try congruence) ]
       | intros (c0 & E & N);
         first [ discriminate E
               | inversion E; subst; rewrite Hnf in N; discriminate N
               | intuition auto ] ] | ]);
    intros cc;
    (split;
     [ intros Hin;
       repeat (destruct Hin as [Hin | Hin]; try discriminate Hin;
               try (inversion Hin; subst;
                    first [ solve [ eexists; (split; [ left; reflexivity
                                                     | reflexivity ]) ]
                          | solve [ eexists; (split; [ right; reflexivity
                                                     | reflexivity ]) ] ]));
       try contradiction
     | intros (st0 & [E | E] & Hcc); inversion E; subst; intuition auto ]).
Qed.

Lemma close_sink s s' evs :
  close s = Ok tt s' evs ->
  (forall ok, ~ In (EvAvioOpen ok) evs) /\
  (forall c, m_context s = Some c -> needs_file c = true -> In EvAvioClose evs).
Proof.
  destruct s as [st [v | ] [a | ] [c | ] [ | ] vi ai vf af vq aq rp si];
    unfold close, needs_file; unfold_m; cbn;
    try destruct (has_flag (of_flags (oformat c)) AVFMT_NOFILE) eqn:Hnf;
    cbn; intros H; inversion H; subst; split;
    try (intros ok Hin; cbn in Hin; intuition discriminate);
    intros c0 E N; inversion E; subst; try (rewrite Hnf in N; discriminate N);
    cbn; auto 10.
Qed.

Lemma in_open_events ok c :
  In (EvAvioOpen ok) (open_events c) -> needs_file c = true.
Proof.
  unfold open_events. destruct (needs_file c); [ reflexivity | intros [] ].
Qed.

Lemma not_open_in_queued ok s : ~ In (EvAvioOpen ok) (queued_packets s).
Proof.
  unfold queued_packets. intros H. apply in_app_or in H.
  destruct H as [H | H]; apply in_map_iff in H;
    destruct H as (ef & Hef & _); discriminate.
Qed.

Lemma onTimeout_sink env s s' evs :
  onTimeout env s = Ok tt s' evs ->
  (forall ok, In (EvAvioOpen ok) evs ->
     exists cx, m_context s = Some cx /\ needs_file cx = true) /\
  (forall cx, m_context s = Some cx ->
     exists cx', m_context s' = Some cx' /\ needs_file cx' = needs_file cx).
Proof.
  intros H. apply onTimeout_cases in H.
  destruct H as [ (_ & -> & ->) | [ (_ & -> & ->) | [ (_ & _ & -> & ->) | H ] ] ].
  - split; [ | eauto ]. intros ok [Hin | []]. discriminate.
  - split; [ | cbn; eauto ]. intros ok Hin. exfalso.
    eapply not_open_in_queued; eauto.
  - split; [ | eauto ]. intros ok [].
  - destruct H as (a & v & c & _ & _ & _ & Hc & H).
    assert (Hcx : exists cx', m_context (sink_opened c s) = Some cx' /\
                              needs_file cx' = needs_file c).
    { unfold sink_opened. destruct (needs_file c) eqn:Hnf; cbn; eauto. }
    destruct Hcx as (cx' & Ecx & Ncx).
    destruct H as [ (N & _ & -> & ->) | [ (_ & _ & -> & ->) | (_ & _ & -> & ->) ] ].
    + split; [ eauto | ]. intros cx E. cbn. eauto.
    + split.
      * intros ok Hin. apply in_app_or in Hin. destruct Hin as [Hin | Hin].
        -- apply in_open_events in Hin. eauto.
        -- destruct Hin as [Hin | [Hin | [Hin | []]]]; discriminate.
      * intros cx E. cbn. rewrite Hc in E. inversion E; subst. eauto.
    + split.
      * intros ok Hin. apply in_app_or in Hin. destruct Hin as [Hin | Hin].
        -- apply in_open_events in Hin. eauto.
        -- destruct Hin as [Hin | [Hin | Hin]]; try discriminate.
           exfalso. eapply not_open_in_queued; eauto.
      * intros cx E. cbn. rewrite Hc in E. inversion E; subst. eauto.
Qed.

Section Sink.

Variable getHeaderLength : list byte -> Z.

Lemma onFrame_keeps_context env frame s s' evs cx :
  onFrame getHeaderLength env frame s = Ok tt s' evs ->
  m_context s = Some cx ->
  exists cx', m_context s' = Some cx' /\ needs_file cx' = needs_file cx.
Proof.
  destruct s as [st [v | ] [a | ] c tr vi ai vf af vq aq rp si];
    unfold_onFrame; cbn; intros H Hc; subst c; cbn in H;
    break_tests H; inversion H; subst; cbn;
    eexists; (split; [ reflexivity | ]);
    unfold needs_file; cbn;
    rewrite ?has_flag_variable_fps_other by reflexivity; reflexivity.
Qed.

Lemma call_sink c s s' evs :
  call getHeaderLength c s = Ok tt s' evs ->
  (forall ok, In (EvAvioOpen ok) evs ->
     exists cx, m_context s = Some cx /\ needs_file cx = true) /\
  (forall cx, m_context s = Some cx ->
     (exists cx', m_context s' = Some cx' /\ needs_file cx' = needs_file cx)
     \/ (m_context s' = None /\ (needs_file cx = true -> In EvAvioClose evs))) /\
  (m_context s = None -> m_context s' = None).
Proof.
  destruct c as [env frame | env | ]; cbn [call]; intros H.
  - split; [ | split ].
    + apply onFrame_effect in H. destruct H as (-> & _). intros ok [].
    + intros cx E. left. eapply onFrame_keeps_context; eauto.
    + eapply onFrame_keeps_closed; eauto.
  - destruct (onTimeout_sink _ _ _ _ H) as [Ho Hk].
    apply onTimeout_keeps in H. destruct H as (_ & _ & _ & _ & _ & Hn).
    split; [ exact Ho | ]. split; [ | exact Hn ].
    intros cx E. left. auto.
  - destruct (close_sink _ _ _ H) as [Hno Hclose].
    apply close_trace in H. destruct H as (_ & _ & _ & _ & Hc & _).
    split; [ | split ].
    + intros ok Hin. exfalso. exact (Hno ok Hin).
    + intros cx E. right. split; [ exact Hc | ]. intros N. eapply Hclose; eauto.
    + intros _. exact Hc.
Qed.

(** A sink that was opened is closed by teardown.  In every run of
    calls that ends with the session torn down, if the run opened the
    output file (or tried to), it also closed the sink handle. *)
Theorem opened_sink_is_closed cs s s' evs ok :
  run getHeaderLength cs s = Ok tt s' evs ->
  m_context s' = None ->
  In (EvAvioOpen ok) evs ->
  In EvAvioClose evs.
Proof.
  assert (Hclosed : forall cs0 s0 s1 evs0,
             run getHeaderLength cs0 s0 = Ok tt s1 evs0 ->
             m_context s0 = None ->
             m_context s1 = None /\ forall ok0, ~ In (EvAvioOpen ok0) evs0).
  { induction cs0 as [ | c cs0 IH ]; intros s0 s1 evs0 Hr Hn.
    - cbn in Hr. unfold ret in Hr. inversion Hr; subst. split; [ exact Hn | ].
      intros ok0 [].
    - apply run_cons in Hr. destruct Hr as (s2 & e1 & e2 & Hc & Hr & ->).
      destruct (call_sink _ _ _ _ Hc) as (Ho & _ & Hk).
      destruct (IH _ _ _ Hr (Hk Hn)) as [Hn1 Hno]. split; [ exact Hn1 | ].
      intros ok0 Hin. apply in_app_or in Hin. destruct Hin as [Hin | Hin].
      + destruct (Ho ok0 Hin) as (cx & E & _). congruence.
      + exact (Hno ok0 Hin). }
  assert (Hteardown : forall cs0 s0 s1 evs0 cx,
             run getHeaderLength cs0 s0 = Ok tt s1 evs0 ->
             m_context s0 = Some cx -> needs_file cx = true ->
             m_context s1 = None -> In EvAvioClose evs0).
  { induction cs0 as [ | c cs0 IH ]; intros s0 s1 evs0 cx Hr E N Hn.
    - cbn in Hr. unfold ret in Hr. inversion Hr; subst. congruence.
    - apply run_cons in Hr. destruct Hr as (s2 & e1 & e2 & Hc & Hr & ->).
      destruct (call_sink _ _ _ _ Hc) as (_ & Hk & _).
      apply in_or_app.
      destruct (Hk cx E) as [ (cx' & E' & N') | [_ Hcl] ].
      + right. eapply IH; eauto; congruence.
      + left. auto. }
  revert s s' evs. induction cs as [ | c cs IH ]; intros s s' evs Hr Hn Hin.
  - cbn in Hr. unfold ret in Hr. inversion Hr; subst. destruct Hin.
  - pose proof Hr as Hrun.
    apply run_cons in Hr. destruct Hr as (s1 & e1 & e2 & Hc & Hr & ->).
    destruct (call_sink _ _ _ _ Hc) as (Ho & Hk & Hkn).
    apply in_app_or in Hin. destruct Hin as [Hin | Hin].
    + destruct (Ho ok Hin) as (cx & E & N). eapply Hteardown; eauto.
    + apply in_or_app. right. eapply IH; eauto.
Qed.

End Sink.

(** ** The slot adapter, call by call *)

Section SlotAdapterCalls.

Import FakedVideoFrameDecoder.

Lemma invoke_all_closed_form d ms :
  invoke_all d ms =
  if forallb adapter_call_ok ms then Some (adapter_pushes (m_slot d) ms) else None.
Proof.
  induction ms as [ | m ms IH ]; [ reflexivity | ].
  cbn [invoke_all forallb adapter_pushes flat_map]. rewrite IH.
  destruct m as [format | | format payload len ts]; cbn.
  - unfold setInput. destruct (FrameFormat_eqb format FRAME_FORMAT_I420); cbn;
      [ destruct (forallb adapter_call_ok ms); reflexivity | reflexivity ].
  - destruct (forallb adapter_call_ok ms); reflexivity.
  - unfold FakedVideoFrameDecoder.onFrame.
    destruct (FrameFormat_eqb format FRAME_FORMAT_I420); cbn;
      [ destruct (forallb adapter_call_ok ms); reflexivity | reflexivity ].
Qed.

(** The adapter forwards frames to its slot, unchanged and in order.
    When every member call passes its assertion, the compositor sees
    [activateInput] on the slot, then one [pushInput] on that slot for
    each [onFrame], with the payload it was given and in call order,
    then [deActivateInput] on the slot; [setInput] and [unsetInput]
    reach the compositor not at all. *)
Theorem adapter_forwards_frames_in_order slot ms :
  forallb adapter_call_ok ms = true ->
  lifetime slot ms =
  Some (activateInput slot :: adapter_pushes slot ms ++ [deActivateInput slot]).
Proof.
  intros H. unfold lifetime. cbn [new]. rewrite invoke_all_closed_form, H.
  reflexivity.
Qed.

Lemma invoke_closed_form d m :
  invoke d m =
  if adapter_call_ok m then Some (adapter_pushes (m_slot d) [m]) else None.
Proof.
  destruct m as [format | | format payload len ts]; cbn.
  - unfold setInput. destruct (FrameFormat_eqb format FRAME_FORMAT_I420); reflexivity.
  - reflexivity.
  - unfold FakedVideoFrameDecoder.onFrame.
    destruct (FrameFormat_eqb format FRAME_FORMAT_I420); reflexivity.
Qed.

Lemma adapter_pushes_app slot ms ms' :
  adapter_pushes slot (ms ++ ms') = adapter_pushes slot ms ++ adapter_pushes slot ms'.
Proof. unfold adapter_pushes. apply flat_map_app. Qed.

Lemma adapter_pushes_no_deactivate slot ms :
  count (is_deactivate slot) (adapter_pushes slot ms) = 0%nat.
Proof.
  unfold count, adapter_pushes.
  induction ms as [ | m ms IH ]; [ reflexivity | ].
  cbn [flat_map]. rewrite filter_app, length_app, IH.
  destruct m; reflexivity.
Qed.

Lemma adapter_calls_until_abort_ok d ms :
  forallb adapter_call_ok ms = true ->
  adapter_calls_until_abort d ms = (adapter_pushes (m_slot d) ms, true).
Proof.
  induction ms as [ | m ms IH ]; intros H; [ reflexivity | ].
  cbn [forallb] in H. apply andb_prop in H. destruct H as [Hm Hms].
  cbn [adapter_calls_until_abort]. rewrite invoke_closed_form, Hm, (IH Hms).
  change (m :: ms) with ([m] ++ ms). rewrite adapter_pushes_app. reflexivity.
Qed.

Lemma adapter_calls_until_abort_cut d pre m post :
  forallb adapter_call_ok pre = true ->
  adapter_call_ok m = false ->
  adapter_calls_until_abort d (pre ++ m :: post)
    = (adapter_pushes (m_slot d) pre, false).
Proof.
  intros Hpre Hm. induction pre as [ | p pre IH ].
  - cbn [app adapter_calls_until_abort]. rewrite invoke_closed_form, Hm. reflexivity.
  - cbn [forallb] in Hpre. apply andb_prop in Hpre. destruct Hpre as [Hp Hpre].
    cbn [app adapter_calls_until_abort]. rewrite invoke_closed_form, Hp, (IH Hpre).
    change (p :: pre) with ([p] ++ pre). rewrite adapter_pushes_app. reflexivity.
Qed.

Lemma first_rejected_call ms :
  forallb adapter_call_ok ms = false ->
  exists pre m post,
    ms = pre ++ m :: post /\
    forallb adapter_call_ok pre = true /\ adapter_call_ok m = false.
Proof.
  induction ms as [ | m ms IH ]; intros H; [ discriminate H | ].
  cbn [forallb] in H. destruct (adapter_call_ok m) eqn:Hm.
  - cbn in H. destruct (IH H) as (pre & m' & post & -> & Hpre & Hm').
    exists (m :: pre), m', post. cbn [forallb]. rewrite Hm, Hpre. auto.
  - exists [], m, ms. auto.
Qed.

(** The adapter takes I420 frames only.  A lifetime is cut short by a
    failed assertion exactly when some [setInput] or [onFrame] call
    names another format; the destructor then does not run and the slot
    is never deactivated: the compositor has seen [activateInput] on the
    slot and one [pushInput] for each [onFrame] before the first call
    that names another format, and nothing else.  A lifetime that is
    not cut short shows the compositor all of its calls. *)
Theorem adapter_rejects_other_formats slot ms :
  (lifetime slot ms = None <->
   exists m, In m ms /\ adapter_call_ok m = false) /\
  (forall evs, lifetime slot ms = Some evs ->
     adapter_observed slot ms = (evs, true)) /\
  (lifetime slot ms = None ->
   exists pre m post,
     ms = pre ++ m :: post /\
     forallb adapter_call_ok pre = true /\
     adapter_call_ok m = false /\
     adapter_observed slot ms
       = (activateInput slot :: adapter_pushes slot pre, false) /\
     count (is_deactivate slot) (fst (adapter_observed slot ms)) = 0%nat).
Proof.
  unfold lifetime, adapter_observed. cbn [new]. rewrite invoke_all_closed_form.
  destruct (forallb adapter_call_ok ms) eqn:H.
  - split; [ | split ].
    + split; [ discriminate | ].
      intros (m & Hin & Hm). rewrite forallb_forall in H.
      rewrite (H m Hin) in Hm. discriminate Hm.
    + intros evs E. inversion E; subst; clear E.
      rewrite (adapter_calls_until_abort_ok _ _ H). reflexivity.
    + discriminate.
  - destruct (first_rejected_call ms H) as (pre & m & post & -> & Hpre & Hm).
    split; [ | split ].
    + split; [ intros _ | reflexivity ].
      exists m. split; [ apply in_or_app; right; left; reflexivity | exact Hm ].
    + discriminate.
    + intros _. exists pre, m, post.
      rewrite (adapter_calls_until_abort_cut _ pre m post Hpre Hm). cbn [m_slot].
      repeat split; auto.
      cbn [fst app]. unfold count. cbn [filter is_deactivate].
      apply (adapter_pushes_no_deactivate slot pre).
Qed.

End SlotAdapterCalls.


(** ** The tick that initialises the container *)

Lemma frame_writes_packets {A} (f : A -> AVPacket) (q : list A) :
  frame_writes (map (fun ef => EvWriteFrame (f ef)) q) = List.length q.
Proof.
  induction q as [ | ef q IH ]; [ reflexivity | ].
  unfold frame_writes in *. cbn. rewrite IH. reflexivity.
Qed.

Lemma frame_writes_two_queues (aq vq : MediaFrameQueue) :
  List.length
    (filter is_write_frame
       (map (fun ef => EvWriteFrame (audio_packet ef)) aq
        ++ map (fun ef => EvWriteFrame (video_packet ef)) vq))
  = (List.length aq + List.length vq)%nat.
Proof.
  change (frame_writes
            (map (fun ef => EvWriteFrame (audio_packet ef)) aq
             ++ map (fun ef => EvWriteFrame (video_packet ef)) vq)
          = (List.length aq + List.length vq)%nat).
  rewrite frame_writes_app, !frame_writes_packets. reflexivity.
Qed.

(** The first tick that finds both streams, on a session that is not
    torn down, and on which the backend opens the sink (where the format
    needs a file) and writes the header: the tick opens the sink,
    writes the header once, then writes every frame queued so far, audio
    first, each queue in order; it leaves the session ready, with the
    trailer-needed flag set and both queues empty. *)
Theorem onTimeout_first_tick_writes_header_then_frames env s a v c :
  m_status s = Context_EMPTY ->
  m_audioStream s = Some a ->
  m_videoStream s = Some v ->
  m_context s = Some c ->
  (needs_file c = true -> avio_open_ok env = true) ->
  write_header_ok env = true ->
  exists s',
    onTimeout env s =
      Ok tt s' ((if needs_file c then [EvAvioOpen true] else [])
                ++ [EvDumpFormat; EvWriteHeader true]
                ++ queued_packets s) /\
    m_status s' = Context_READY /\
    m_avTrailerNeeded s' = true /\
    m_audioQueue s' = [] /\ m_videoQueue s' = [] /\
    m_videoStream s' = Some v /\ m_audioStream s' = Some a /\
    (exists c', m_context s' = Some c' /\ streams c' = streams c /\
                pb c' = (needs_file c || pb c)%bool) /\
    frame_writes (queued_packets s)
      = (List.length (m_audioQueue s) + List.length (m_videoQueue s))%nat.
Proof.
  intros Hst Ha Hv Hc Hopen Hhdr.
  destruct s as [status vs as_ cx tr vi ai vf af vq aq rp si].
  cbn in Hst, Ha, Hv, Hc. subst status vs as_ cx.
  destruct env as [open_ok header_ok]. cbn in Hopen, Hhdr. subst header_ok.
  unfold onTimeout, needs_file in *. unfold_m. cbn.
  destruct (has_flag (of_flags (oformat c)) AVFMT_NOFILE) eqn:Hnf; cbn in Hopen |- *.
  - erewrite drainQueues_ok; [ | reflexivity | reflexivity | reflexivity ].
    eexists. split; [ reflexivity | ].
    repeat (split; [ reflexivity | ]).
    split; [ eexists; repeat split | apply frame_writes_two_queues ].
  - rewrite (Hopen eq_refl). cbn.
    erewrite drainQueues_ok; [ | reflexivity | reflexivity | reflexivity ].
    eexists. split; [ reflexivity | ].
    repeat (split; [ reflexivity | ]).
    split; [ eexists; repeat split | apply frame_writes_two_queues ].
Qed.

(** The tick that fails to initialise the container.  When both streams
    exist and the backend cannot open the sink, or cannot write the
    header, the tick puts the session in the error state, reports the
    failure to the event registry exactly once, and writes no packet and
    no trailer-needed flag: the queued frames stay queued.  When it is
    the sink that cannot be opened, the header write is not
    attempted. *)
Theorem onTimeout_initialization_failure env s a v c :
  m_status s = Context_EMPTY ->
  m_audioStream s = Some a ->
  m_videoStream s = Some v ->
  m_context s = Some c ->
  (needs_file c = true /\ avio_open_ok env = false) \/
  ((needs_file c = true -> avio_open_ok env = true) /\ write_header_ok env = false) ->
  exists s' evs,
    onTimeout env s = Ok tt s' evs /\
    m_status s' = Context_ERROR /\
    notifications evs = 1%nat /\
    frame_writes evs = 0%nat /\
    m_avTrailerNeeded s' = m_avTrailerNeeded s /\
    m_audioQueue s' = m_audioQueue s /\ m_videoQueue s' = m_videoQueue s /\
    (avio_open_ok env = false -> needs_file c = true ->
     header_writes evs = 0%nat /\
     evs = [EvAvioOpen false;
            EvNotify "RecordingStream"
              "output file does not exist or cannot be opened for write"]) /\
    (write_header_ok env = false -> (needs_file c = true -> avio_open_ok env = true) ->
     header_writes evs = 1%nat /\
     In (EvNotify "RecordingStream" "write file header error") evs).
Proof.
  intros Hst Ha Hv Hc Hfail.
  destruct s as [status vs as_ cx tr vi ai vf af vq aq rp si].
  cbn in Hst, Ha, Hv, Hc. subst status vs as_ cx.
  destruct env as [open_ok header_ok]. cbn in Hfail |- *.
  unfold onTimeout, needs_file in *. unfold_m. cbn.
  destruct (has_flag (of_flags (oformat c)) AVFMT_NOFILE) eqn:Hnf; cbn in Hfail |- *.
  - destruct Hfail as [ [N _] | [_ ->] ]; [ discriminate N | ].
    cbn. do 2 eexists. split; [ reflexivity | ]. cbn.
    repeat split; try discriminate; cbn; auto.
  - destruct Hfail as [ [_ ->] | [Hopen ->] ].
    + cbn. do 2 eexists. split; [ reflexivity | ]. cbn.
      repeat split; try discriminate; try congruence.
      all: match goal with
           | K : _ -> false = true |- _ =>
               exfalso; assert (Hk : false = true) by (apply K; reflexivity);
               discriminate Hk
           end.
    + rewrite (Hopen eq_refl). cbn. do 2 eexists. split; [ reflexivity | ]. cbn.
      repeat split; try discriminate; cbn; auto.
Qed.

(** ** The further statements at concrete sessions and frames *)

Lemma video_only_session_reachable : reachable rtpHeaderLength video_only_session.
Proof.
  exists "/tmp/room.mkv"%string, 0, sample_format,
    [CallFrame sample_env vp8_frame], [].
  vm_compute. reflexivity.
Defined.

Lemma ready_session_with_frames_reachable :
  reachable rtpHeaderLength ready_session_with_frames.
Proof.
  exists "/tmp/room.mkv"%string, 0, sample_format,
    (recording_calls ++
     [CallTick sample_tick; CallFrame sample_env vp8_frame;
      CallFrame sample_env opus_rtp_frame; CallFrame sample_env vp8_frame]).
  eexists. vm_compute. reflexivity.
Defined.

Lemma onFrame_unsupported_format_witness :
  m_status sample_session <> Context_ERROR /\
  frame_kind (f_format i420_frame) = None /\
  onFrame rtpHeaderLength sample_env i420_frame sample_session
    = Ok tt (set_status Context_ERROR sample_session) [].
Proof.
  assert (H1 : m_status sample_session <> Context_ERROR) by (vm_compute; discriminate).
  assert (H2 : frame_kind (f_format i420_frame) = None) by reflexivity.
  split; [ exact H1 | ]. split; [ exact H2 | ].
  exact (onFrame_unsupported_format rtpHeaderLength sample_env i420_frame
           sample_session H1 H2).
Defined.

Lemma onFrame_video_without_geometry_witness :
  is_video_format (f_format vp8_frame_without_geometry) = true /\
  m_videoStream sample_session = None /\
  width (video (f_additionalInfo vp8_frame_without_geometry)) <= 0 /\
  onFrame rtpHeaderLength sample_env vp8_frame_without_geometry sample_session
    = Ok tt sample_session [].
Proof.
  assert (H3 : width (video (f_additionalInfo vp8_frame_without_geometry)) <= 0)
    by (vm_compute; discriminate).
  split; [ reflexivity | ]. split; [ reflexivity | ]. split; [ exact H3 | ].
  exact (onFrame_video_without_geometry rtpHeaderLength sample_env
           vp8_frame_without_geometry sample_session eq_refl eq_refl (or_introl H3)).
Defined.

Lemma onFrame_video_stream_allocation_fails_witness :
  m_status sample_session <> Context_ERROR /\
  new_stream_ok failing_env = false /\
  exists s',
    onFrame rtpHeaderLength failing_env vp8_frame sample_session = Ok tt s' [] /\
    m_status s' = Context_ERROR /\
    m_videoStream s' = None /\
    List.length (m_videoQueue s') = 1%nat.
Proof.
  assert (H1 : m_status sample_session <> Context_ERROR) by (vm_compute; discriminate).
  assert (Hw : 0 < width (video (f_additionalInfo vp8_frame))) by reflexivity.
  assert (Hh : 0 < height (video (f_additionalInfo vp8_frame))) by reflexivity.
  split; [ exact H1 | ]. split; [ reflexivity | ].
  destruct (onFrame_video_stream_allocation_fails rtpHeaderLength failing_env
              vp8_frame sample_session _ H1 eq_refl eq_refl eq_refl Hw Hh eq_refl)
    as (s' & c' & Hon & Hst & Hv & _ & _ & _ & _ & Hq & _).
  exists s'. split; [ exact Hon | ]. split; [ exact Hst | ]. split; [ exact Hv | ].
  rewrite Hq. reflexivity.
Defined.

Lemma onFrame_audio_stream_allocation_fails_witness :
  m_status video_only_session <> Context_ERROR /\
  m_audioStream video_only_session = None /\
  new_stream_ok failing_env = false /\
  exists s',
    onFrame rtpHeaderLength failing_env opus_rtp_frame video_only_session = Ok tt s' [] /\
    m_status s' = Context_ERROR /\
    m_audioStream s' = None /\
    List.length (m_audioQueue s') = 1%nat.
Proof.
  assert (H1 : m_status video_only_session <> Context_ERROR)
    by (vm_compute; discriminate).
  assert (H2 : isRtpPacket (audio (f_additionalInfo opus_rtp_frame)) = true ->
               rtpHeaderLength (f_payload opus_rtp_frame) <= f_length opus_rtp_frame)
    by (intros _; vm_compute; discriminate).
  split; [ exact H1 | ]. split; [ reflexivity | ]. split; [ reflexivity | ].
  destruct (onFrame_audio_stream_allocation_fails rtpHeaderLength failing_env
              opus_rtp_frame video_only_session _ _ H1 eq_refl eq_refl eq_refl
              eq_refl H2 eq_refl)
    as (s' & Hon & Hst & Ha & _ & _ & _ & Hq & _).
  exists s'. split; [ exact Hon | ]. split; [ exact Hst | ]. split; [ exact Ha | ].
  rewrite Hq. reflexivity.
Defined.

Lemma onFrame_first_video_creates_stream_witness :
  m_status sample_session <> Context_ERROR /\
  m_videoStream sample_session = None /\
  new_stream_ok sample_env = true /\
  exists s' v,
    onFrame rtpHeaderLength sample_env vp8_frame sample_session = Ok tt s' [] /\
    m_videoStream s' = Some v /\
    codec_id (codec v) = AV_CODEC_ID_VP8 /\
    cc_width (codec v) = 640 /\ cc_height (codec v) = 480 /\
    index v = 0.
Proof.
  assert (H1 : m_status sample_session <> Context_ERROR) by (vm_compute; discriminate).
  assert (Hw : 0 < width (video (f_additionalInfo vp8_frame))) by reflexivity.
  assert (Hh : 0 < height (video (f_additionalInfo vp8_frame))) by reflexivity.
  split; [ exact H1 | ]. split; [ reflexivity | ]. split; [ reflexivity | ].
  destruct (onFrame_first_video_creates_stream rtpHeaderLength sample_env
              vp8_frame sample_session _ H1 eq_refl eq_refl eq_refl Hw Hh eq_refl)
    as (s' & v & c' & Hon & Hv & (_ & Hid & _) & _ & _ & Hcw & Hch & Hi & _).
  exists s', v.
  split; [ exact Hon | ]. split; [ exact Hv | ]. split; [ exact Hid | ].
  split; [ apply Hcw; reflexivity | ]. split; [ apply Hch; reflexivity | exact Hi ].
Defined.

Lemma onFrame_first_audio_creates_stream_witness :
  m_status video_only_session <> Context_ERROR /\
  m_audioStream video_only_session = None /\
  new_stream_ok sample_env = true /\
  exists s' a,
    onFrame rtpHeaderLength sample_env opus_rtp_frame video_only_session = Ok tt s' [] /\
    m_audioStream s' = Some a /\
    codec_id (codec a) = AV_CODEC_ID_OPUS /\
    sample_fmt (codec a) = AV_SAMPLE_FMT_FLT /\
    cc_channels (codec a) = 2 /\ sample_rate (codec a) = 48000 /\
    index a = 1.
Proof.
  assert (H1 : m_status video_only_session <> Context_ERROR)
    by (vm_compute; discriminate).
  assert (H2 : isRtpPacket (audio (f_additionalInfo opus_rtp_frame)) = true ->
               rtpHeaderLength (f_payload opus_rtp_frame) <= f_length opus_rtp_frame)
    by (intros _; vm_compute; discriminate).
  split; [ exact H1 | ]. split; [ reflexivity | ]. split; [ reflexivity | ].
  destruct (onFrame_first_audio_creates_stream rtpHeaderLength sample_env
              opus_rtp_frame video_only_session _ _ H1 eq_refl eq_refl eq_refl
              eq_refl H2 eq_refl)
    as (s' & a & c' & Hon & Ha & (_ & Hid & _ & Hsf) & Hch & _ & Hsr & Hi & _).
  exists s', a. repeat split; assumption.
Defined.

Lemma onFrame_video_after_close_crashes_witness :
  m_status closed_session <> Context_ERROR /\
  m_videoStream closed_session = None /\
  m_context closed_session = None /\
  onFrame rtpHeaderLength sample_env vp8_frame closed_session = Crash NullDereference.
Proof.
  assert (H1 : m_status closed_session <> Context_ERROR) by (vm_compute; discriminate).
  assert (Hw : 0 < width (video (f_additionalInfo vp8_frame))) by reflexivity.
  assert (Hh : 0 < height (video (f_additionalInfo vp8_frame))) by reflexivity.
  split; [ exact H1 | ]. split; [ reflexivity | ]. split; [ reflexivity | ].
  exact (onFrame_video_after_close_crashes rtpHeaderLength sample_env vp8_frame
           closed_session H1 eq_refl eq_refl eq_refl Hw Hh).
Defined.

Lemma stream_descriptors_are_write_once_witness :
  exists s' evs v a,
    run rtpHeaderLength
        [CallTick sample_tick; CallFrame sample_env vp8_frame;
         CallFrame sample_env h264_frame; CallTick sample_tick]
        recording_session = Ok tt s' evs /\
    m_context s' <> None /\
    m_videoStream recording_session = Some v /\
    m_audioStream recording_session = Some a /\
    m_status s' = Context_ERROR /\
    m_videoStream s' = Some v /\ m_audioStream s' = Some a.
Proof.
  do 4 eexists.
  assert (Hrun : run rtpHeaderLength
                   [CallTick sample_tick; CallFrame sample_env vp8_frame;
                    CallFrame sample_env h264_frame; CallTick sample_tick]
                   recording_session = Ok tt _ _) by (vm_compute; reflexivity).
  assert (Hv : m_videoStream recording_session = Some _) by reflexivity.
  assert (Ha : m_audioStream recording_session = Some _) by reflexivity.
  match type of Hrun with
  | _ = Ok _ ?s1 _ =>
      assert (Hlive : m_context s1 <> None) by (vm_compute; discriminate)
  end.
  destruct (stream_descriptors_are_write_once rtpHeaderLength _ _ _ _ Hrun Hlive)
    as (_ & _ & Kv & Ka).
  split; [ exact Hrun | ]. split; [ exact Hlive | ].
  split; [ exact Hv | ]. split; [ exact Ha | ].
  split; [ reflexivity | ].
  split; [ exact (proj1 (Kv _ Hv)) | exact (proj1 (Ka _ Ha)) ].
Defined.

Lemma container_holds_session_streams_witness :
  reachable rtpHeaderLength recording_session /\
  exists c,
    m_context recording_session = Some c /\
    streams c = session_streams recording_session /\
    List.length (streams c) = 2%nat.
Proof.
  split; [ exact recording_session_reachable | ].
  eexists.
  assert (Hc : m_context recording_session = Some _) by reflexivity.
  destruct (container_holds_session_streams rtpHeaderLength recording_session _
              recording_session_reachable Hc) as (Hs & _ & _).
  split; [ exact Hc | ]. split; [ exact Hs | reflexivity ].
Defined.

Lemma video_frame_accepted_iff_recorded_format_witness :
  reachable rtpHeaderLength recording_session /\
  m_status recording_session <> Context_ERROR /\
  f_format vp8_frame = m_videoFrameFormat recording_session /\
  f_format h264_frame <> m_videoFrameFormat recording_session /\
  (exists s',
     onFrame rtpHeaderLength sample_env vp8_frame recording_session = Ok tt s' [] /\
     List.length (m_videoQueue s') = 2%nat /\ m_status s' = Context_EMPTY) /\
  onFrame rtpHeaderLength sample_env h264_frame recording_session
    = Ok tt (set_status Context_ERROR recording_session) [].
Proof.
  assert (H1 : m_status recording_session <> Context_ERROR)
    by (vm_compute; discriminate).
  assert (Hv : m_videoStream recording_session = Some _) by reflexivity.
  assert (Hsame : f_format vp8_frame = m_videoFrameFormat recording_session)
    by reflexivity.
  assert (Hdiff : f_format h264_frame <> m_videoFrameFormat recording_session)
    by (vm_compute; discriminate).
  split; [ exact recording_session_reachable | ]. split; [ exact H1 | ].
  split; [ exact Hsame | ]. split; [ exact Hdiff | ].
  split.
  - destruct (video_frame_accepted_iff_recorded_format rtpHeaderLength sample_env
                vp8_frame recording_session _ recording_session_reachable H1 Hv
                eq_refl) as [Hacc _].
    eexists. split; [ exact (Hacc Hsame) | ]. split; reflexivity.
  - destruct (video_frame_accepted_iff_recorded_format rtpHeaderLength sample_env
                h264_frame recording_session _ recording_session_reachable H1 Hv
                eq_refl) as [_ Hrej].
    exact (Hrej Hdiff).
Defined.

Lemma audio_frame_accepted_iff_recorded_format_witness :
  reachable rtpHeaderLength recording_session /\
  m_status recording_session <> Context_ERROR /\
  f_format opus_rtp_frame = m_audioFrameFormat recording_session /\
  f_format pcmu_frame <> m_audioFrameFormat recording_session /\
  (exists s',
     onFrame rtpHeaderLength sample_env opus_rtp_frame recording_session = Ok tt s' [] /\
     List.length (m_audioQueue s') = 2%nat /\ m_status s' = Context_EMPTY) /\
  onFrame rtpHeaderLength sample_env pcmu_frame recording_session
    = Ok tt (set_status Context_ERROR recording_session) [].
Proof.
  assert (H1 : m_status recording_session <> Context_ERROR)
    by (vm_compute; discriminate).
  assert (Ha : m_audioStream recording_session = Some _) by reflexivity.
  assert (Hsame : f_format opus_rtp_frame = m_audioFrameFormat recording_session)
    by reflexivity.
  assert (Hdiff : f_format pcmu_frame <> m_audioFrameFormat recording_session)
    by (vm_compute; discriminate).
  assert (H2 : isRtpPacket (audio (f_additionalInfo opus_rtp_frame)) = true ->
               rtpHeaderLength (f_payload opus_rtp_frame) <= f_length opus_rtp_frame)
    by (intros _; vm_compute; discriminate).
  split; [ exact recording_session_reachable | ]. split; [ exact H1 | ].
  split; [ exact Hsame | ]. split; [ exact Hdiff | ].
  split.
  - destruct (audio_frame_accepted_iff_recorded_format rtpHeaderLength sample_env
                opus_rtp_frame recording_session _ recording_session_reachable H1 Ha
                eq_refl) as [Hacc _].
    eexists. split; [ exact (Hacc Hsame H2) | ]. split; reflexivity.
  - destruct (audio_frame_accepted_iff_recorded_format rtpHeaderLength sample_env
                pcmu_frame recording_session _ recording_session_reachable H1 Ha
                eq_refl) as [_ Hrej].
    exact (Hrej Hdiff).
Defined.

Lemma onTimeout_ready_drains_both_queues_witness :
  reachable rtpHeaderLength ready_session_with_frames /\
  m_status ready_session_with_frames = Context_READY /\
  List.length (m_audioQueue ready_session_with_frames) = 1%nat /\
  List.length (m_videoQueue ready_session_with_frames) = 2%nat /\
  exists s' evs,
    onTimeout sample_tick ready_session_with_frames = Ok tt s' evs /\
    m_audioQueue s' = [] /\ m_videoQueue s' = [] /\
    m_status s' = Context_READY /\
    map (fun e => match e with EvWriteFrame p => stream_index p | _ => -1 end) evs
      = [1; 0; 0].
Proof.
  assert (Hc : m_context ready_session_with_frames = Some _) by reflexivity.
  split; [ exact ready_session_with_frames_reachable | ].
  split; [ reflexivity | ]. split; [ reflexivity | ]. split; [ reflexivity | ].
  destruct (onTimeout_ready_drains_both_queues rtpHeaderLength sample_tick
              ready_session_with_frames _ ready_session_with_frames_reachable
              eq_refl Hc) as [Hon Hst].
  do 2 eexists. split; [ exact Hon | ].
  split; [ reflexivity | ]. split; [ reflexivity | ]. split; [ exact Hst | ].
  reflexivity.
Defined.

Lemma frames_are_written_in_queue_order_witness :
  exists s' evs,
    run rtpHeaderLength
        [CallFrame sample_env opus_rtp_frame; CallTick sample_tick;
         CallFrame sample_env h264_frame; CallFrame sample_env vp8_frame]
        recording_session = Ok tt s' evs /\
    audio_queued_by_run rtpHeaderLength
        [CallFrame sample_env opus_rtp_frame; CallTick sample_tick;
         CallFrame sample_env h264_frame; CallFrame sample_env vp8_frame]
        recording_session
      = [audio_entry rtpHeaderLength sample_env opus_rtp_frame] /\
    video_queued_by_run rtpHeaderLength
        [CallFrame sample_env opus_rtp_frame; CallTick sample_tick;
         CallFrame sample_env h264_frame; CallFrame sample_env vp8_frame]
        recording_session = [] /\
    packets_of 1 evs ++ map audio_packet (m_audioQueue s')
      = map audio_packet
          (m_audioQueue recording_session
           ++ [audio_entry rtpHeaderLength sample_env opus_rtp_frame]) /\
    packets_of 0 evs ++ map video_packet (m_videoQueue s')
      = map video_packet (m_videoQueue recording_session ++ []) /\
    List.length (packets_of 1 evs) = 2%nat /\
    List.length (packets_of 0 evs) = 1%nat.
Proof.
  do 2 eexists.
  assert (Hrun : run rtpHeaderLength
                   [CallFrame sample_env opus_rtp_frame; CallTick sample_tick;
                    CallFrame sample_env h264_frame; CallFrame sample_env vp8_frame]
                   recording_session = Ok tt _ _) by (vm_compute; reflexivity).
  assert (Hqa : audio_queued_by_run rtpHeaderLength
                  [CallFrame sample_env opus_rtp_frame; CallTick sample_tick;
                   CallFrame sample_env h264_frame; CallFrame sample_env vp8_frame]
                  recording_session
                = [audio_entry rtpHeaderLength sample_env opus_rtp_frame])
    by (vm_compute; reflexivity).
  assert (Hqv : video_queued_by_run rtpHeaderLength
                  [CallFrame sample_env opus_rtp_frame; CallTick sample_tick;
                   CallFrame sample_env h264_frame; CallFrame sample_env vp8_frame]
                  recording_session = [])
    by (vm_compute; reflexivity).
  destruct (frames_are_written_in_queue_order rtpHeaderLength _ _ _ _ Hrun)
    as [Ha Hv].
  rewrite Hqa in Ha. rewrite Hqv in Hv.
  split; [ exact Hrun | ]. split; [ exact Hqa | ]. split; [ exact Hqv | ].
  split; [ exact Ha | ]. split; [ exact Hv | ].
  split; reflexivity.
Defined.

Lemma no_packet_before_header_witness :
  m_status sample_session <> Context_READY /\
  exists s' evs,
    run rtpHeaderLength
        (recording_calls ++
         [CallTick sample_tick; CallFrame sample_env vp8_frame; CallTick sample_tick;
          CallClose])
        sample_session = Ok tt s' evs /\
    frame_writes evs = 3%nat /\
    header_before_packets evs = true.
Proof.
  assert (H1 : m_status sample_session <> Context_READY) by (vm_compute; discriminate).
  split; [ exact H1 | ]. do 2 eexists.
  assert (Hrun : run rtpHeaderLength
                   (recording_calls ++
                    [CallTick sample_tick; CallFrame sample_env vp8_frame;
                     CallTick sample_tick; CallClose])
                   sample_session = Ok tt _ _) by (vm_compute; reflexivity).
  split; [ exact Hrun | ]. split; [ reflexivity | ].
  exact (no_packet_before_header rtpHeaderLength _ _ _ _ H1 Hrun).
Defined.

Lemma error_state_records_nothing_witness :
  m_status failed_session = Context_ERROR /\
  exists s' evs,
    run rtpHeaderLength
        (recording_calls ++ [CallTick sample_tick; CallFrame sample_env vp8_frame;
                             CallTick sample_tick; CallClose])
        failed_session = Ok tt s' evs /\
    m_status s' = Context_ERROR /\
    frame_writes evs = 0%nat /\ header_writes evs = 0%nat /\
    m_audioQueue s' = m_audioQueue failed_session /\
    m_videoQueue s' = m_videoQueue failed_session.
Proof.
  assert (H1 : m_status failed_session = Context_ERROR) by reflexivity.
  split; [ exact H1 | ]. do 2 eexists.
  assert (Hrun : run rtpHeaderLength
                   (recording_calls ++
                    [CallTick sample_tick; CallFrame sample_env vp8_frame;
                     CallTick sample_tick; CallClose])
                   failed_session = Ok tt _ _) by (vm_compute; reflexivity).
  destruct (error_state_records_nothing rtpHeaderLength _ _ _ _ H1 Hrun)
    as (Hst & Hf & Hh & Ha & Hv & _).
  split; [ exact Hrun | ]. repeat split; assumption.
Defined.

Lemma trailer_at_most_once_and_after_header_witness :
  m_avTrailerNeeded sample_session = false /\
  exists s' evs,
    run rtpHeaderLength
        (recording_calls ++ [CallTick sample_tick; CallClose; CallClose])
        sample_session = Ok tt s' evs /\
    trailer_writes evs = 1%nat /\
    (trailer_writes evs <= 1)%nat /\
    header_before_trailer evs = true.
Proof.
  split; [ reflexivity | ]. do 2 eexists.
  assert (Hrun : run rtpHeaderLength
                   (recording_calls ++ [CallTick sample_tick; CallClose; CallClose])
                   sample_session = Ok tt _ _) by (vm_compute; reflexivity).
  destruct (trailer_at_most_once_and_after_header rtpHeaderLength _ _ _ _ Hrun)
    as (Hle & _ & Hafter).
  split; [ exact Hrun | ]. split; [ reflexivity | ].
  split; [ exact Hle | exact (Hafter eq_refl) ].
Defined.

Lemma status_only_moves_forward_witness :
  (exists s' evs,
     run rtpHeaderLength
         (recording_calls ++ [CallTick sample_tick; CallFrame sample_env h264_frame])
         sample_session = Ok tt s' evs /\
     m_status s' = Context_ERROR /\
     (status_rank (m_status sample_session) <= status_rank (m_status s'))%nat)
  /\ (m_status ready_session_with_frames = Context_READY /\
      exists s' evs,
        onTimeout sample_tick ready_session_with_frames = Ok tt s' evs /\
        m_status s' = Context_READY).
Proof.
  destruct (status_only_moves_forward rtpHeaderLength) as [Hrun Htick].
  split.
  - do 2 eexists.
    assert (H : run rtpHeaderLength
                  (recording_calls ++
                   [CallTick sample_tick; CallFrame sample_env h264_frame])
                  sample_session = Ok tt _ _) by (vm_compute; reflexivity).
    split; [ exact H | ]. split; [ reflexivity | exact (Hrun _ _ _ _ H) ].
  - split; [ reflexivity | ]. do 2 eexists.
    assert (H : onTimeout sample_tick ready_session_with_frames = Ok tt _ _)
      by (vm_compute; reflexivity).
    split; [ exact H | ].
    exact (Htick sample_tick ready_session_with_frames _ _ eq_refl H).
Defined.

Lemma onFrame_makes_no_outside_call_witness :
  exists s' evs,
    onFrame rtpHeaderLength sample_env vp8_frame ready_session_with_frames
      = Ok tt s' evs /\
    evs = [] /\
    m_avTrailerNeeded s' = m_avTrailerNeeded ready_session_with_frames /\
    List.length (m_videoQueue s') = 3%nat.
Proof.
  do 2 eexists.
  assert (H : onFrame rtpHeaderLength sample_env vp8_frame ready_session_with_frames
              = Ok tt _ _) by (vm_compute; reflexivity).
  destruct (onFrame_makes_no_outside_call rtpHeaderLength _ _ _ _ _ H)
    as (He & Ht & _).
  split; [ exact H | ]. split; [ exact He | ]. split; [ exact Ht | reflexivity ].
Defined.

Lemma format_requirements_are_kept_witness :
  exists c v a,
    run rtpHeaderLength recording_calls
        (MediaFileOut_new "/tmp/room.mkv" 0 sample_format)
      = Ok tt recording_session [] /\
    m_context recording_session = Some c /\
    m_videoStream recording_session = Some v /\
    m_audioStream recording_session = Some a /\
    of_flags (oformat c) <> of_flags sample_format /\
    has_flag (of_flags (oformat c)) AVFMT_NOFILE = false /\
    has_flag (of_flags (oformat c)) AVFMT_GLOBALHEADER = true /\
    has_flag (cc_flags (codec v)) CODEC_FLAG_GLOBAL_HEADER = true /\
    has_flag (cc_flags (codec a)) CODEC_FLAG_GLOBAL_HEADER = true.
Proof.
  do 3 eexists.
  assert (Hrun : run rtpHeaderLength recording_calls
                   (MediaFileOut_new "/tmp/room.mkv" 0 sample_format)
                 = Ok tt recording_session []) by (vm_compute; reflexivity).
  assert (Hc : m_context recording_session = Some _) by reflexivity.
  assert (Hv : m_videoStream recording_session = Some _) by reflexivity.
  assert (Ha : m_audioStream recording_session = Some _) by reflexivity.
  destruct (format_requirements_are_kept rtpHeaderLength _ _ _ _ _ _ Hrun)
    as [Kc Ks].
  destruct (Kc _ Hc) as [Kn Kg].
  split; [ exact Hrun | ]. split; [ exact Hc | ]. split; [ exact Hv | ].
  split; [ exact Ha | ]. split; [ vm_compute; discriminate | ].
  split; [ exact Kn | ]. split; [ exact Kg | ].
  split; [ exact (Ks _ (or_introl Hv)) | exact (Ks _ (or_intror Ha)) ].
Defined.

Lemma opened_sink_is_closed_witness :
  exists s' evs,
    run rtpHeaderLength (recording_calls ++ [CallTick sample_tick; CallClose])
        sample_session = Ok tt s' evs /\
    m_context s' = None /\
    In (EvAvioOpen true) evs /\
    In EvAvioClose evs.
Proof.
  do 2 eexists.
  assert (Hrun : run rtpHeaderLength
                   (recording_calls ++ [CallTick sample_tick; CallClose])
                   sample_session = Ok tt _ _) by (vm_compute; reflexivity).
  match type of Hrun with
  | _ = Ok _ _ ?e => assert (Hin : In (EvAvioOpen true) e) by (left; reflexivity)
  end.
  split; [ exact Hrun | ]. split; [ reflexivity | ]. split; [ exact Hin | ].
  exact (opened_sink_is_closed rtpHeaderLength _ _ _ _ true Hrun eq_refl Hin).
Defined.

Lemma adapter_forwards_frames_in_order_witness :
  forallb adapter_call_ok
    [FakedVideoFrameDecoder.MSetInput FRAME_FORMAT_I420;
     FakedVideoFrameDecoder.MOnFrame FRAME_FORMAT_I420 [x01] 1 0;
     FakedVideoFrameDecoder.MUnsetInput;
     FakedVideoFrameDecoder.MOnFrame FRAME_FORMAT_I420 [x02] 1 33] = true /\
  FakedVideoFrameDecoder.lifetime 3
    [FakedVideoFrameDecoder.MSetInput FRAME_FORMAT_I420;
     FakedVideoFrameDecoder.MOnFrame FRAME_FORMAT_I420 [x01] 1 0;
     FakedVideoFrameDecoder.MUnsetInput;
     FakedVideoFrameDecoder.MOnFrame FRAME_FORMAT_I420 [x02] 1 33]
  = Some [FakedVideoFrameDecoder.activateInput 3;
          FakedVideoFrameDecoder.pushInput 3 [x01];
          FakedVideoFrameDecoder.pushInput 3 [x02];
          FakedVideoFrameDecoder.deActivateInput 3].
Proof.
  split; [ reflexivity | ].
  exact (adapter_forwards_frames_in_order 3
           [FakedVideoFrameDecoder.MSetInput FRAME_FORMAT_I420;
            FakedVideoFrameDecoder.MOnFrame FRAME_FORMAT_I420 [x01] 1 0;
            FakedVideoFrameDecoder.MUnsetInput;
            FakedVideoFrameDecoder.MOnFrame FRAME_FORMAT_I420 [x02] 1 33]
           eq_refl).
Defined.

Lemma adapter_rejects_other_formats_witness :
  let ms := [FakedVideoFrameDecoder.MSetInput FRAME_FORMAT_I420;
             FakedVideoFrameDecoder.MOnFrame FRAME_FORMAT_I420 [x01] 1 0;
             FakedVideoFrameDecoder.MOnFrame FRAME_FORMAT_VP8 [x9d] 1 0;
             FakedVideoFrameDecoder.MOnFrame FRAME_FORMAT_I420 [x02] 1 33] in
  FakedVideoFrameDecoder.lifetime 3 ms = None /\
  adapter_observed 3 ms
    = ([FakedVideoFrameDecoder.activateInput 3;
        FakedVideoFrameDecoder.pushInput 3 [x01]], false) /\
  exists pre m post,
    ms = pre ++ m :: post /\
    adapter_call_ok m = false /\
    adapter_observed 3 ms
      = (FakedVideoFrameDecoder.activateInput 3 :: adapter_pushes 3 pre, false) /\
    FakedVideoFrameDecoder.count (FakedVideoFrameDecoder.is_deactivate 3)
      (fst (adapter_observed 3 ms)) = 0%nat.
Proof.
  intros ms.
  assert (Hcut : FakedVideoFrameDecoder.lifetime 3 ms = None) by reflexivity.
  split; [ exact Hcut | ]. split; [ reflexivity | ].
  destruct (adapter_rejects_other_formats 3 ms) as (_ & _ & Habort).
  destruct (Habort Hcut) as (pre & m & post & E & _ & Hm & Hobs & Hcount).
  exists pre, m, post. auto.
Defined.

Lemma onTimeout_first_tick_writes_header_then_frames_witness :
  m_status recording_session = Context_EMPTY /\
  write_header_ok sample_tick = true /\
  exists s' evs c,
    m_context recording_session = Some c /\ needs_file c = true /\
    onTimeout sample_tick recording_session = Ok tt s' evs /\
    evs = [EvAvioOpen true; EvDumpFormat; EvWriteHeader true]
          ++ queued_packets recording_session /\
    frame_writes evs = 2%nat /\
    m_status s' = Context_READY /\ m_avTrailerNeeded s' = true.
Proof.
  assert (Ha : m_audioStream recording_session = Some _) by reflexivity.
  assert (Hv : m_videoStream recording_session = Some _) by reflexivity.
  assert (Hc : m_context recording_session = Some _) by reflexivity.
  split; [ reflexivity | ]. split; [ reflexivity | ].
  destruct (onTimeout_first_tick_writes_header_then_frames sample_tick
              recording_session _ _ _ eq_refl Ha Hv Hc (fun _ => eq_refl) eq_refl)
    as (s' & Hon & Hst & Htr & _).
  exists s'. do 2 eexists.
  split; [ exact Hc | ]. split; [ reflexivity | ]. split; [ exact Hon | ].
  split; [ reflexivity | ]. split; [ reflexivity | ].
  split; [ exact Hst | exact Htr ].
Defined.

Lemma onTimeout_initialization_failure_witness :
  m_status recording_session = Context_EMPTY /\
  exists c s' evs,
    m_context recording_session = Some c /\ needs_file c = true /\
    onTimeout {| avio_open_ok := false; write_header_ok := true |} recording_session
      = Ok tt s' evs /\
    m_status s' = Context_ERROR /\
    notifications evs = 1%nat /\ frame_writes evs = 0%nat /\
    header_writes evs = 0%nat /\
    m_audioQueue s' = m_audioQueue recording_session.
Proof.
  assert (Ha : m_audioStream recording_session = Some _) by reflexivity.
  assert (Hv : m_videoStream recording_session = Some _) by reflexivity.
  assert (Hc : m_context recording_session = Some _) by reflexivity.
  split; [ reflexivity | ]. eexists.
  destruct (onTimeout_initialization_failure
              {| avio_open_ok := false; write_header_ok := true |}
              recording_session _ _ _ eq_refl Ha Hv Hc
              (or_introl (conj eq_refl eq_refl)))
    as (s' & evs & Hon & Hst & Hn & Hf & _ & Hq & _ & Hopen & _).
  destruct (Hopen eq_refl eq_refl) as [Hh _].
  exists s', evs. split; [ exact Hc | ]. split; [ reflexivity | ].
  repeat split; assumption.
Defined.

Lemma close_completes_on_every_session_witness :
  m_context ready_session_with_frames <> None /\
  exists evs,
    close ready_session_with_frames
      = Ok tt (set_context None ready_session_with_frames) evs /\
    hd_error evs = Some EvTimerStop /\
    In EvWriteTrailer evs /\ In EvFreeContext evs /\ In EvAvioClose evs.
Proof.
  assert (Hlive : m_context ready_session_with_frames <> None)
    by (vm_compute; discriminate).
  split; [ exact Hlive | ].
  destruct (close_completes_on_every_session ready_session_with_frames
              (or_introl Hlive)) as (evs & Hc & Hhd & Htr & Hfree & Havio & _).
  exists evs. split; [ exact Hc | ]. split; [ exact Hhd | ].
  split; [ apply Htr; split; [ exact Hlive | reflexivity ] | ].
  split; [ apply Hfree; exact Hlive | ].
  apply Havio. eexists. split; reflexivity.
Defined.

(** * Audio that arrives before video, to the end *)

Lemma onTimeout_success env s a v c :
  m_status s = Context_EMPTY ->
  m_audioStream s = Some a ->
  m_videoStream s = Some v ->
  m_context s = Some c ->
  (needs_file c = true -> avio_open_ok env = true) ->
  write_header_ok env = true ->
  onTimeout env s =
  Ok tt (drained (set_status Context_READY
                    (set_avTrailerNeeded true (sink_opened c s))))
     (open_events c ++ [EvDumpFormat; EvWriteHeader true] ++ queued_packets s).
Proof.
  intros Hst Ha Hv Hc Hopen Hhdr.
  destruct s as [status vs as_ cx tr vi ai vf af vq aq rp si].
  cbn in Hst, Ha, Hv, Hc. subst status vs as_ cx.
  destruct env as [open_ok header_ok]. cbn in Hopen, Hhdr. subst header_ok.
  unfold onTimeout, open_events, sink_opened, needs_file in *. unfold_m. cbn.
  destruct (has_flag (of_flags (oformat c)) AVFMT_NOFILE) eqn:Hnf; cbn in Hopen |- *.
  - erewrite drainQueues_ok; [ | reflexivity | reflexivity | reflexivity ].
    reflexivity.
  - rewrite (Hopen eq_refl). cbn.
    erewrite drainQueues_ok; [ | reflexivity | reflexivity | reflexivity ].
    reflexivity.
Qed.

Section EarlyAudio.

Variable getHeaderLength : list byte -> Z.

Lemma run_in_error cs : forall s s' evs,
  m_status s = Context_ERROR ->
  run getHeaderLength cs s = Ok tt s' evs ->
  m_status s' = Context_ERROR /\
  frame_writes evs = 0%nat /\
  m_audioQueue s' = m_audioQueue s.
Proof.
  induction cs as [ | c cs IH ]; intros s s' evs Hst H.
  - cbn in H. unfold ret in H. inversion H; subst. auto.
  - apply run_cons in H. destruct H as (s1 & evs1 & evs2 & Hc & Hr & ->).
    destruct (call_in_error _ _ _ _ _ Hst Hc) as (S1 & F1 & _ & Qa & _).
    destruct (IH _ _ _ S1 Hr) as (S2 & F2 & Qa2).
    rewrite frame_writes_app, F1, F2. repeat split; auto; congruence.
Qed.

(** C10 (as amended). An audio frame (PCMU or OPUS) that arrives at a
    reachable session which is not in the error state and has no video
    stream yet, and which passes the assertion on its RTP header length
    when it is flagged as an RTP packet: [onFrame] creates no audio
    stream and does not discard the frame; it appends the payload,
    without its RTP header when flagged, to the audio queue and changes
    nothing else.  From then on the frame is never dropped: after any
    run of calls it is still queued or has been written.  It is written
    by the first tick that finds it queued on a session with both
    streams that is not torn down and not in the error state, provided
    that, if the header is still to be written, the sink opens and the
    header is written; every run that ends with a tick leaving the
    session ready has written it.  If the session enters the error
    state while the frame is queued, the frame stays queued and is
    never written. *)
Theorem audio_before_video_is_buffered env frame s :
  reachable getHeaderLength s ->
  is_audio_format (f_format frame) = true ->
  m_status s <> Context_ERROR ->
  m_videoStream s = None ->
  (isRtpPacket (audio (f_additionalInfo frame)) = true ->
   getHeaderLength (f_payload frame) <= f_length frame) ->
  let entry := audio_entry getHeaderLength env frame in
  let queued := set_audioQueue (m_audioQueue s ++ [entry]) s in
  onFrame getHeaderLength env frame s = Ok tt queued [] /\
  m_audioStream queued = None /\
  m_status queued = m_status s /\
  (forall cs s1 evs1,
     run getHeaderLength cs queued = Ok tt s1 evs1 ->
     In entry (m_audioQueue s1) \/ In (EvWriteFrame (audio_packet entry)) evs1) /\
  (forall cs s1 evs1 tick a v c,
     run getHeaderLength cs queued = Ok tt s1 evs1 ->
     In entry (m_audioQueue s1) ->
     m_audioStream s1 = Some a ->
     m_videoStream s1 = Some v ->
     m_context s1 = Some c ->
     m_status s1 <> Context_ERROR ->
     (m_status s1 = Context_EMPTY ->
      (needs_file c = true -> avio_open_ok tick = true) /\
      write_header_ok tick = true) ->
     exists s2 evs2,
       onTimeout tick s1 = Ok tt s2 evs2 /\
       m_status s2 = Context_READY /\
       In (EvWriteFrame (audio_packet entry)) evs2) /\
  (forall cs tick s' evs,
     run getHeaderLength (cs ++ [CallTick tick]) queued = Ok tt s' evs ->
     m_status s' = Context_READY ->
     is_some (m_videoStream s') = true /\
     is_some (m_audioStream s') = true /\
     In (EvWriteFrame (audio_packet entry)) evs) /\
  (forall cs s1 evs1 cs' s2 evs2,
     run getHeaderLength cs queued = Ok tt s1 evs1 ->
     m_status s1 = Context_ERROR ->
     In entry (m_audioQueue s1) ->
     run getHeaderLength cs' s1 = Ok tt s2 evs2 ->
     frame_writes evs2 = 0%nat /\ In entry (m_audioQueue s2)).
Proof.
  intros Hr Hf Hst Hv Hassert entry queued.
  assert (Hinv := reachable_invariant _ _ Hr).
  assert (Ha : m_audioStream s = None).
  { destruct Hinv as [Hord _]. unfold streams_in_order in Hord.
    rewrite Hv in Hord. destruct (m_audioStream s); [ contradiction | reflexivity ]. }
  assert (Hon : onFrame getHeaderLength env frame s = Ok tt queued []).
  { subst queued entry. unfold audio_entry.
    destruct s as [st vs as_ cx tr vi ai vf af vq aq rp si].
    cbn in Hst, Hv, Ha. subst vs as_.
    unfold_onFrame. cbn.
    destruct (isRtpPacket (audio (f_additionalInfo frame))) eqn:Hrtp.
    - specialize (Hassert eq_refl). apply Z.leb_le in Hassert. rewrite Hassert.
      destruct st; [ | | congruence ];
        destruct (f_format frame); try discriminate Hf; reflexivity.
    - destruct st; [ | | congruence ];
        destruct (f_format frame); try discriminate Hf; reflexivity. }
  assert (Hin : In entry (m_audioQueue queued)).
  { subst queued. cbn. apply in_or_app. right. left. reflexivity. }
  split; [ exact Hon | ]. split; [ exact Ha | ]. split; [ reflexivity | ].
  split; [ | split; [ | split ] ].
  - intros cs s1 evs1 Hrun. eapply run_keeps_audio; eauto.
  - intros cs s1 evs1 tick a v c Hrun Hq Ea Ev Ec Hne Hbackend.
    destruct (m_status s1) eqn:Est; [ | | congruence ].
    + destruct (Hbackend eq_refl) as [Hopen Hhdr].
      rewrite (onTimeout_success tick s1 a v c Est Ea Ev Ec Hopen Hhdr).
      do 2 eexists. split; [ reflexivity | ]. split; [ reflexivity | ].
      apply in_or_app. right. apply in_or_app. right.
      apply in_queued_packets, Hq.
    + unfold onTimeout. rewrite (bind_Ok _ _ s1 s1 s1 []) by reflexivity.
      rewrite Est, (drainQueues_ok s1 a v c Ea Ev Ec).
      do 2 eexists. split; [ reflexivity | ]. split; [ exact Est | ].
      apply in_queued_packets, Hq.
  - intros cs tick s' evs Hrun Hready.
    assert (Hinv' : session_invariant s').
    { eapply run_invariant; [ | exact Hrun ].
      eapply onFrame_invariant; [ exact Hinv | exact Hon ]. }
    destruct Hinv' as [_ Hboth]. destruct (Hboth Hready) as [Sv Sa].
    split; [ exact Sv | ]. split; [ exact Sa | ].
    apply run_app in Hrun. destruct Hrun as (s1 & e1 & e2 & Hcs & Htick & ->).
    apply run_cons in Htick. destruct Htick as (s2 & e3 & e4 & Ht & Hnil & ->).
    cbn in Hnil. unfold ret in Hnil. inversion Hnil; subst. cbn [call] in Ht.
    destruct (run_keeps_audio _ entry _ _ _ _ Hcs Hin) as [Hq | Hw].
    + apply in_or_app. right. apply in_or_app. left.
      eapply onTimeout_ready_writes; eauto.
    + apply in_or_app. auto.
  - intros cs s1 evs1 cs' s2 evs2 Hrun Est Hq Hrun'.
    destruct (run_in_error _ _ _ _ Est Hrun') as (_ & F & Q).
    split; [ exact F | rewrite Q; exact Hq ].
Qed.

End EarlyAudio.

(** C10, as stated, fails: an OPUS frame arrives before any video and is
    queued; a VP8 frame and a second OPUS frame then create both
    streams; the next tick cannot open the sink and puts the session in
    the error state.  Both streams exist, the frame is still queued, and
    no later run of calls writes a packet. *)
Lemma buffered_audio_is_not_written_when_sink_cannot_open :
  let entry := audio_entry rtpHeaderLength sample_env opus_rtp_frame in
  onFrame rtpHeaderLength sample_env opus_rtp_frame sample_session
    = Ok tt early_audio_session [] /\
  m_audioQueue early_audio_session = [entry] /\
  run rtpHeaderLength recording_calls early_audio_session
    = Ok tt both_streams_session [] /\
  is_some (m_videoStream both_streams_session) = true /\
  is_some (m_audioStream both_streams_session) = true /\
  onTimeout failing_sink_tick both_streams_session
    = Ok tt sink_failed_session
         [EvAvioOpen false;
          EvNotify "RecordingStream"
            "output file does not exist or cannot be opened for write"] /\
  In entry (m_audioQueue sink_failed_session) /\
  forall cs s' evs,
    run rtpHeaderLength cs sink_failed_session = Ok tt s' evs ->
    frame_writes evs = 0%nat /\ ~ In (EvWriteFrame (audio_packet entry)) evs.
Proof.
  intros entry.
  split; [ vm_compute; reflexivity | ]. split; [ reflexivity | ].
  split; [ vm_compute; reflexivity | ]. split; [ reflexivity | ].
  split; [ reflexivity | ]. split; [ vm_compute; reflexivity | ].
  split; [ left; reflexivity | ].
  intros cs s' evs Hrun.
  assert (Est : m_status sink_failed_session = Context_ERROR) by reflexivity.
  destruct (run_in_error rtpHeaderLength cs sink_failed_session s' evs Est Hrun)
    as (_ & F & _).
  split; [ exact F | ].
  intros Hin. unfold frame_writes in F.
  assert (Hf : In (EvWriteFrame (audio_packet entry)) (filter is_write_frame evs)).
  { apply filter_In. split; [ exact Hin | reflexivity ]. }
  destruct (filter is_write_frame evs); [ destruct Hf | discriminate F ].
Qed.

Lemma audio_before_video_is_buffered_witness :
  reachable rtpHeaderLength sample_session /\
  is_audio_format (f_format opus_rtp_frame) = true /\
  m_status sample_session <> Context_ERROR /\
  m_videoStream sample_session = None /\
  rtpHeaderLength (f_payload opus_rtp_frame) <= f_length opus_rtp_frame /\
  let entry := audio_entry rtpHeaderLength sample_env opus_rtp_frame in
  let queued := set_audioQueue [entry] sample_session in
  onFrame rtpHeaderLength sample_env opus_rtp_frame sample_session = Ok tt queued [] /\
  m_audioStream queued = None /\
  (exists s1 s2 evs2,
     run rtpHeaderLength recording_calls queued = Ok tt s1 [] /\
     In entry (m_audioQueue s1) /\
     m_status s1 = Context_EMPTY /\
     onTimeout sample_tick s1 = Ok tt s2 evs2 /\
     m_status s2 = Context_READY /\
     In (EvWriteFrame (audio_packet entry)) evs2) /\
  (exists s' evs,
     run rtpHeaderLength (recording_calls ++ [CallTick sample_tick]) queued
       = Ok tt s' evs /\
     m_status s' = Context_READY /\
     In (EvWriteFrame (audio_packet entry)) evs).
Proof.
  assert (H1 : is_audio_format (f_format opus_rtp_frame) = true) by reflexivity.
  assert (H2 : m_status sample_session <> Context_ERROR) by (vm_compute; discriminate).
  assert (H3 : m_videoStream sample_session = None) by reflexivity.
  assert (H4 : isRtpPacket (audio (f_additionalInfo opus_rtp_frame)) = true ->
               rtpHeaderLength (f_payload opus_rtp_frame) <= f_length opus_rtp_frame)
    by (intros _; vm_compute; discriminate).
  split; [ exact sample_session_reachable | ].
  split; [ exact H1 | ]. split; [ exact H2 | ]. split; [ exact H3 | ].
  split; [ exact (H4 eq_refl) | ].
  intros entry queued.
  destruct (audio_before_video_is_buffered rtpHeaderLength sample_env opus_rtp_frame
              sample_session sample_session_reachable H1 H2 H3 H4)
    as (Hon & Ha & _ & _ & Hnext & Hlater & _).
  split; [ exact Hon | ]. split; [ exact Ha | ].
  split.
  - assert (Hrun : run rtpHeaderLength recording_calls queued = Ok tt _ [])
      by (vm_compute; reflexivity).
    match type of Hrun with
    | _ = Ok _ ?s1 _ =>
        assert (Ea : m_audioStream s1 = Some _) by reflexivity;
        assert (Ev : m_videoStream s1 = Some _) by reflexivity;
        assert (Ec : m_context s1 = Some _) by reflexivity;
        assert (Hq : In entry (m_audioQueue s1)) by (left; reflexivity);
        assert (Hne : m_status s1 <> Context_ERROR) by (vm_compute; discriminate)
    end.
    destruct (Hnext recording_calls _ _ sample_tick _ _ _ Hrun Hq Ea Ev Ec Hne
                (fun _ => conj (fun _ => eq_refl) eq_refl))
      as (s2 & evs2 & Ht & Hst & Hin).
    eexists. exists s2, evs2.
    split; [ exact Hrun | ]. split; [ exact Hq | ]. split; [ reflexivity | ].
    split; [ exact Ht | ]. split; [ exact Hst | exact Hin ].
  - do 2 eexists.
    assert (Hrun : run rtpHeaderLength (recording_calls ++ [CallTick sample_tick])
                     queued = Ok tt _ _) by (vm_compute; reflexivity).
    split; [ exact Hrun | ]. split; [ reflexivity | ].
    destruct (Hlater recording_calls sample_tick _ _ Hrun eq_refl) as (_ & _ & Hin).
    exact Hin.
Defined.
